(** * CORCRESER: inventario recursivo de Drive y comparación de snapshots

    Shallow embedding of [PROYECTO_COPIA_DOCUMENTOS.py].

    Definitions
    - [PyDict]: the insertion-ordered dictionary of Python, as an association
      list without repeated keys.
    - [Snapshot]: [obtener_snapshot], [comparar_snapshot],
      [actualizar_snapshot] and the keying loop of [main].
    - [DateTime]: the interface of [strptime] and [strftime].
    - [Drive]: [obtener_archivos_recursivamente] over a listing service
      given as a function; the listing calls and the log lines are kept as a
      trace of events, and fuel bounds the number of listing calls.
    - [Recorrido]: the pre-order flattening the walk is meant to compute,
      and listing services that cut the children into pages.
    - [Ejemplos], [FechaISO], [Servicios]: sample data.
    - [Lotes]: [insertar_datos_en_sheets].
    - [Principal]: [registrar_cambios] and [main], over a spreadsheet kept
      as the sequence of its titled worksheets.
    - [Inventario], [ServiciosExtra], [LibrosEjemplo]: helpers and sample
      data for the above.

    Facts
    - dictionaries, the differ, the keying loops and the codec;
    - the walk: it returns a list exactly when the list is the pre-order
      flattening of the listings ([devuelve_Preorden]); pagination, failing
      calls, dates and owners;
    - batches, the change log and whole runs of [main]. *)

From Stdlib Require Import String Ascii List Bool Arith Lia DecimalString.
From Stdlib Require Import ZArith.
Import ListNotations.

Local Open Scope string_scope.
Local Open Scope list_scope.

(** A row of a sheet and a record of the inventory are the same thing in
    the program: a Python list of strings. *)
Definition row := list string.

(* ================================================================== *)
(** ** Python dictionaries with string keys *)

Module PyDict.
Section Dict.
Context {V : Type}.

(** Entries in insertion order; a key occurs at most once ([wf]). *)
Definition dict := list (string * V).

Definition empty : dict := [].

(** [key in d] *)
Fixpoint contains (d : dict) (key : string) : bool :=
  match d with
  | [] => false
  | (k, _) :: t => if String.eqb k key then true else contains t key
  end.

(** [d.get(key)] *)
Fixpoint get (d : dict) (key : string) : option V :=
  match d with
  | [] => None
  | (k, v) :: t => if String.eqb k key then Some v else get t key
  end.

(** [d[key] = v]: a key already present keeps its place and takes the new
    value, a new key goes to the end. *)
Fixpoint set (d : dict) (key : string) (v : V) : dict :=
  match d with
  | [] => [(key, v)]
  | (k, w) :: t =>
      if String.eqb k key then (k, v) :: t else (k, w) :: set t key v
  end.

(** [d.items()] *)
Definition items (d : dict) : list (string * V) := d.

Definition keys (d : dict) : list string := map fst d.

Definition wf (d : dict) : Prop := NoDup (keys d).

End Dict.
Arguments dict : clear implicits.
End PyDict.

(* ================================================================== *)
(** ** Snapshots: decoding, keying, comparing, persisting *)

Module Snapshot.
Import PyDict.

(** Mapping from derived key to the whole row. *)
Definition snapshot := dict row.

(** The worksheet is an external collaborator (gspread). Only what the
    program relies on is kept: a sheet is the sequence of its rows, in
    insertion order. *)
Definition hoja := list row.

Definition get_all_values (h : hoja) : list row := h.
Definition clear (h : hoja) : hoja := [].
Definition append_row (h : hoja) (r : row) : hoja := h ++ [r].
Definition append_rows (h : hoja) (rs : list row) : hoja := h ++ rs.

(** A Python [for] loop over a list whose body may raise: [None] is the
    exception leaving the loop (here always an [IndexError]). *)
Fixpoint para_cada {A S : Type} (l : list A) (s : S)
  (cuerpo : S -> A -> option S) : option S :=
  match l with
  | [] => Some s
  | a :: resto =>
      match cuerpo s a with
      | None => None
      | Some s' => para_cada resto s' cuerpo
      end
  end.

(** [row[0] + "_" + row[1]]; [None] when the row has fewer than two cells. *)
Definition clave (r : row) : option string :=
  match nth_error r 0, nth_error r 1 with
  | Some ubicacion, Some nombre => Some (ubicacion ++ "_" ++ nombre)%string
  | _, _ => None
  end.

(** [obtener_snapshot], lines 97-111. *)
Definition obtener_snapshot (snapshot_sheet : hoja) : option snapshot :=
  let data := get_all_values snapshot_sheet in
  if (List.length data <? 2)%nat then Some empty
  else
    let rows := skipn 1 data in
    para_cada rows empty (fun snapshot row =>
      match nth_error row 0, nth_error row 1 with
      | Some c0, Some c1 =>
          let key := (c0 ++ "_" ++ c1)%string in
          Some (set snapshot key row)
      | _, _ => None
      end).

(** The keying of the current inventory in [main], lines 199-202. *)
Definition snapshot_nuevo_de (datos_actuales : list row) : option snapshot :=
  para_cada datos_actuales empty (fun snapshot_nuevo row =>
    match nth_error row 0, nth_error row 1 with
    | Some c0, Some c1 =>
        let key := (c0 ++ "_" ++ c1)%string in
        Some (set snapshot_nuevo key row)
    | _, _ => None
    end).

(** [comparar_snapshot], lines 113-127: two loops, each appending to its
    own list. *)
Definition comparar_snapshot (snapshot_actual snapshot_nuevo : snapshot)
  : list row * list row :=
  let nuevos :=
    fold_left (fun nuevos '(key, row) =>
                 if negb (contains snapshot_actual key)
                 then nuevos ++ [row] else nuevos)
              (items snapshot_nuevo) [] in
  let eliminados :=
    fold_left (fun eliminados '(key, row) =>
                 if negb (contains snapshot_nuevo key)
                 then eliminados ++ [row] else eliminados)
              (items snapshot_actual) [] in
  (nuevos, eliminados).

Definition encabezado : row :=
  ["Ubicación"; "Nombre"; "Tipo"; "Propietario"; "Fecha de Subida"].

(** [actualizar_snapshot], lines 151-159 (the log line is left out). *)
Definition actualizar_snapshot (snapshot_sheet : hoja) (datos : list row) : hoja :=
  let snapshot_sheet := clear snapshot_sheet in
  let snapshot_sheet := append_row snapshot_sheet encabezado in
  append_rows snapshot_sheet datos.

(** The end of [main], lines 195-215, once the "Snapshot" sheet exists:
    the change set and the sheet as it is left. *)
Definition main_comparar (snapshot_sheet : hoja) (datos_actuales : list row)
  : option ((list row * list row) * hoja) :=
  match obtener_snapshot snapshot_sheet with
  | None => None
  | Some snapshot_actual =>
      match snapshot_nuevo_de datos_actuales with
      | None => None
      | Some snapshot_nuevo =>
          Some (comparar_snapshot snapshot_actual snapshot_nuevo,
                actualizar_snapshot snapshot_sheet datos_actuales)
      end
  end.

(** The body that the two keying loops share, for stating facts about both. *)
Definition cuerpo_indexar (s : snapshot) (r : row) : option snapshot :=
  match clave r with
  | Some key => Some (set s key r)
  | None => None
  end.

(** The pair (location, name) of a record. *)
Definition ubicacion_nombre (r : row) : string * string :=
  (nth 0 r "", nth 1 r "").

(** The last row of [rows] whose derived key is [key]. *)
Definition tiene_clave (key : string) (r : row) : bool :=
  match clave r with
  | Some k => String.eqb k key
  | None => false
  end.

Fixpoint ultima_con_clave (key : string) (rows : list row) : option row :=
  match rows with
  | [] => None
  | r :: resto =>
      match ultima_con_clave key resto with
      | Some r' => Some r'
      | None => if tiene_clave key r then Some r else None
      end
  end.

(** The rows of [d] whose keys are absent from [otro], in the order of [d]. *)
Definition ausentes (otro d : snapshot) : list (string * row) :=
  filter (fun kv => negb (contains otro (fst kv))) d.

End Snapshot.

(* ================================================================== *)
(** ** The datetime library *)

(** [datetime.strptime] and [strftime] belong to Python's library, not to
    the program: they are an interface here. [strptime s fmt = None] stands
    for the [ValueError] raised on a string that does not match [fmt]. *)
Class DateTime := {
  datetime : Type;
  strptime : string -> string -> option datetime;
  strftime : datetime -> string -> string
}.

(* ================================================================== *)
(** ** The recursive walk over Drive *)

Module Drive.

(** An entry of [owners]. *)
Record propietario := { emailAddress : string }.

(** An element of [files]: the fields the walk subscripts are always
    there, the ones it reads with [in] or [.get] may be missing. *)
Record item := {
  item_id : string;
  item_name : string;
  item_mimeType : string;
  item_owners : option (list propietario);
  item_createdTime : option string
}.

(** The dictionary returned by [files().list(...).execute()]. *)
Record resultados := {
  files : option (list item);
  nextPageToken : option string
}.

(** A listing call returns a page or raises. *)
Inductive respuesta :=
| Respuesta (r : resultados)
| Excepcion (e : string).

(** The Drive service: the query [q] and the [pageToken] decide the answer. *)
Definition servicio := string -> option string -> respuesta.

(** What the walk does besides computing its result: listing calls and
    log lines, in order. *)
Inductive evento :=
| Listar (q : string) (pageToken : option string)
| LogError (parent_id : string) (e : string)
| LogWarning (fecha_subida : string).

(** Computations that may run out of fuel ([None]) and that write events. *)
Definition M (A : Type) : Type := option (A * list evento).

Definition ret {A : Type} (a : A) : M A := Some (a, []).

Definition bind {A B : Type} (m : M A) (f : A -> M B) : M B :=
  match m with
  | None => None
  | Some (a, ev) =>
      match f a with
      | None => None
      | Some (b, ev') => Some (b, ev ++ ev')
      end
  end.

Definition registrar (e : evento) : M unit := Some (tt, [e]).

Notation "x <- m ;; k" := (bind m (fun x => k))
  (at level 61, m at next level, right associativity).
Notation "m ;; k" := (bind m (fun _ => k))
  (at level 61, right associativity).

(** The rows computed, without the events. *)
Definition filas {A : Type} (m : M A) : option A := option_map fst m.

Definition MIME_CARPETA : string := "application/vnd.google-apps.folder".
Definition FORMATO_ORIGEN : string := "%Y-%m-%dT%H:%M:%S.%fZ".
Definition FORMATO_SALIDA : string := "%d/%m/%Y %H:%M:%S".
Definition RUTA_INICIAL : string := "Carpeta Principal".

(** [f"'{parent_id}' in parents and trashed=false"] *)
Definition consulta (parent_id : string) : string :=
  ("'" ++ parent_id ++ "' in parents and trashed=false")%string.

(** [not page_token]: no token, or an empty one. *)
Definition sin_token (page_token : option string) : bool :=
  match page_token with
  | None => true
  | Some t => String.eqb t ""
  end.

(** [resultados.get("files", [])] *)
Definition items_de (res : resultados) : list item :=
  match files res with
  | Some l => l
  | None => []
  end.

(** Line 63. *)
Definition tipo_de (it : item) : string :=
  if String.eqb (item_mimeType it) MIME_CARPETA then "Carpeta" else "Archivo".

(** Line 64. *)
Definition propietario_de (it : item) : string :=
  match item_owners it with
  | Some (primero :: _) => emailAddress primero
  | _ => "Desconocido"
  end.

(** Line 65. *)
Definition fecha_subida_de (it : item) : string :=
  match item_createdTime it with
  | Some s => s
  | None => "No disponible"
  end.

Section Recorrido.
Context {DT : DateTime}.
Variable drive_service : servicio.

(** Lines 66-71. *)
Definition formatear_fecha (fecha_subida : string) : M string :=
  match strptime fecha_subida FORMATO_ORIGEN with
  | Some fecha_obj => ret (strftime fecha_obj FORMATO_SALIDA)
  | None => registrar (LogWarning fecha_subida) ;; ret fecha_subida
  end.

(** The [for item in items] loop, lines 62-77; [rec] is the recursive call
    of the walk. *)
Fixpoint para_items (rec : string -> string -> M (list row))
  (ruta_actual : string) (items : list item) (archivos_lista : list row)
  : M (list row) :=
  match items with
  | [] => ret archivos_lista
  | it :: resto =>
      let tipo := tipo_de it in
      let propietario := propietario_de it in
      let fecha_subida := fecha_subida_de it in
      fecha_formateada <- formatear_fecha fecha_subida ;;
      let archivos_lista :=
        archivos_lista
          ++ [[ruta_actual; item_name it; tipo; propietario; fecha_formateada]] in
      if String.eqb tipo "Carpeta" then
        let nueva_ruta := (ruta_actual ++ "/" ++ item_name it)%string in
        sub <- rec (item_id it) nueva_ruta ;;
        para_items rec ruta_actual resto (archivos_lista ++ sub)
      else para_items rec ruta_actual resto archivos_lista
  end.

(** The [while True] loop, lines 50-80, entered with the current
    [page_token] and [archivos_lista]. Every listing call takes one unit of
    fuel; a recursive call starts with the fuel left. *)
Fixpoint bucle (fuel : nat) (parent_id ruta_actual : string)
  (page_token : option string) (archivos_lista : list row) : M (list row) :=
  match fuel with
  | O => None
  | S fuel' =>
      registrar (Listar (consulta parent_id) page_token) ;;
      match drive_service (consulta parent_id) page_token with
      | Excepcion e =>
          registrar (LogError parent_id e) ;;
          ret archivos_lista
      | Respuesta res =>
          let items := items_de res in
          archivos_lista <-
            para_items (fun id ruta => bucle fuel' id ruta None [])
                       ruta_actual items archivos_lista ;;
          let page_token := nextPageToken res in
          if sin_token page_token then ret archivos_lista
          else bucle fuel' parent_id ruta_actual page_token archivos_lista
      end
  end.

(** [obtener_archivos_recursivamente], lines 41-81. *)
Definition obtener_archivos_recursivamente (fuel : nat)
  (parent_id ruta_actual : string) : M (list row) :=
  bucle fuel parent_id ruta_actual None [].

(** The walk returns [rows]. *)
Definition devuelve (parent_id ruta_actual : string) (rows : list row) : Prop :=
  exists fuel ev,
    obtener_archivos_recursivamente fuel parent_id ruta_actual = Some (rows, ev).

End Recorrido.

End Drive.

(* ================================================================== *)
(** ** What the walk is meant to compute *)

Module Recorrido.
Import Drive.

Section Especificacion.
Context {DT : DateTime}.
Variable drive_service : servicio.

Definition es_carpeta (it : item) : bool :=
  String.eqb (item_mimeType it) MIME_CARPETA.

(** The creation date as the record shows it. *)
Definition fecha_mostrada (fecha_subida : string) : string :=
  match strptime fecha_subida FORMATO_ORIGEN with
  | Some fecha_obj => strftime fecha_obj FORMATO_SALIDA
  | None => fecha_subida
  end.

(** The record of an entry listed under the location [ruta]. *)
Definition fila (ruta : string) (it : item) : row :=
  [ruta; item_name it; tipo_de it; propietario_de it;
   fecha_mostrada (fecha_subida_de it)].

(** [Paginas q tok items]: from the token [tok] on, the pages of the
    listing [q] follow one another without a failure, end with a page that
    carries no token, and hold [items] in all. *)
Inductive Paginas : string -> option string -> list item -> Prop :=
| paginas_fin q tok res :
    drive_service q tok = Respuesta res ->
    sin_token (nextPageToken res) = true ->
    Paginas q tok (items_de res)
| paginas_mas q tok res resto :
    drive_service q tok = Respuesta res ->
    sin_token (nextPageToken res) = false ->
    Paginas q (nextPageToken res) resto ->
    Paginas q tok (items_de res ++ resto).

(** [Hijos q tok items]: the same, but the chain may also end with a call
    that fails; the failing call brings no children. *)
Inductive Hijos : string -> option string -> list item -> Prop :=
| hijos_fallo q tok e :
    drive_service q tok = Excepcion e ->
    Hijos q tok []
| hijos_fin q tok res :
    drive_service q tok = Respuesta res ->
    sin_token (nextPageToken res) = true ->
    Hijos q tok (items_de res)
| hijos_mas q tok res resto :
    drive_service q tok = Respuesta res ->
    sin_token (nextPageToken res) = false ->
    Hijos q (nextPageToken res) resto ->
    Hijos q tok (items_de res ++ resto).

(** Depth-first, pre-order flattening, following the spec's words: the
    record of a folder comes first, then the records of what is below it,
    listed under the folder's location extended by "/" and its name, then
    the records of its later siblings. *)
Inductive Preorden : string -> string -> list row -> Prop :=
| preorden_contenedor parent_id ruta items rows :
    Hijos (consulta parent_id) None items ->
    PreordenItems ruta items rows ->
    Preorden parent_id ruta rows
with PreordenItems : string -> list item -> list row -> Prop :=
| preorden_nil ruta :
    PreordenItems ruta [] []
| preorden_archivo ruta it resto rows :
    es_carpeta it = false ->
    PreordenItems ruta resto rows ->
    PreordenItems ruta (it :: resto) (fila ruta it :: rows)
| preorden_carpeta ruta it resto sub rows :
    es_carpeta it = true ->
    Preorden (item_id it) (ruta ++ "/" ++ item_name it)%string sub ->
    PreordenItems ruta resto rows ->
    PreordenItems ruta (it :: resto) (fila ruta it :: sub ++ rows).

(** [Listado parent_id ruta it r]: walking [parent_id] under the label
    [ruta] meets the entry [it], in a container whose location is [r]. *)
Inductive Listado : string -> string -> item -> string -> Prop :=
| listado_aqui parent_id ruta items it :
    Hijos (consulta parent_id) None items ->
    In it items ->
    Listado parent_id ruta it ruta
| listado_dentro parent_id ruta items c it r :
    Hijos (consulta parent_id) None items ->
    In c items ->
    es_carpeta c = true ->
    Listado (item_id c) (ruta ++ "/" ++ item_name c)%string it r ->
    Listado parent_id ruta it r.

(** The service with every failing call replaced by an empty last page. *)
Definition sin_fallos : servicio :=
  fun q tok =>
    match drive_service q tok with
    | Excepcion _ => Respuesta {| files := None; nextPageToken := None |}
    | Respuesta res => Respuesta res
    end.

End Especificacion.

Scheme Preorden_mut := Minimality for Preorden Sort Prop
  with PreordenItems_mut := Minimality for PreordenItems Sort Prop.

(** A listing service that hands over the children of every container in
    one page. *)
Definition una_pagina (hijos : string -> list item) : servicio :=
  fun q _ => Respuesta {| files := Some (hijos q); nextPageToken := None |}.

(** A listing service that hands them over in pages of [tam] entries; the
    continuation token of a page is as long as the number of entries
    delivered so far. *)
Fixpoint ficha (n : nat) : string :=
  match n with
  | O => ""
  | S m => ("t" ++ ficha m)%string
  end.

Definition desplazamiento (page_token : option string) : nat :=
  match page_token with
  | None => 0
  | Some t => String.length t
  end.

Definition paginado (tam : nat) (hijos : string -> list item) : servicio :=
  fun q page_token =>
    let hechos := desplazamiento page_token in
    let quedan := skipn hechos (hijos q) in
    Respuesta {| files := Some (firstn tam quedan);
                 nextPageToken :=
                   if (List.length quedan <=? tam)%nat then None
                   else Some (ficha (hechos + tam)) |}.

End Recorrido.

(* ================================================================== *)
(** ** Sample data *)

Module Ejemplos.
Import PyDict Snapshot.

Definition previo : snapshot :=
  [("R_a", ["R"; "a"; "Archivo"; "ana@x.org"; "01/01/2024 00:00:00"]);
   ("R_b", ["R"; "b"; "Archivo"; "luz@x.org"; "01/01/2024 00:00:00"])].

Definition actual : snapshot :=
  [("R_b", ["R"; "b"; "Archivo"; "ana@x.org"; "02/01/2024 03:04:05"]);
   ("R_c", ["R"; "c"; "Archivo"; "ana@x.org"; "02/01/2024 03:04:05"])].

(** Two records that differ in location and in name and share a key. *)
Definition fila_ab_c : row :=
  ["a_b"; "c"; "Archivo"; "ana@x.org"; "01/01/2024 00:00:00"].
Definition fila_a_bc : row :=
  ["a"; "b_c"; "Carpeta"; "luz@x.org"; "02/01/2024 03:04:05"].

Definition inventario : list row :=
  [["R"; "a"; "Archivo"; "ana@x.org"; "01/01/2024 00:00:00"];
   ["R"; "s"; "Carpeta"; "luz@x.org"; "01/01/2024 00:00:00"];
   ["R/s"; "a"; "Archivo"; "Desconocido"; "No disponible"]].

(** A file and a folder of the same name in the same place. *)
Definition repetidas : list row :=
  [["R"; "a"; "Archivo"; "ana@x.org"; "01/01/2024 00:00:00"];
   ["R"; "b"; "Archivo"; "ana@x.org"; "01/01/2024 00:00:00"];
   ["R"; "a"; "Carpeta"; "luz@x.org"; "02/01/2024 03:04:05"]].

End Ejemplos.

(** A [DateTime] for the examples. It reads only timestamps written with
    every field zero-padded, a year from 1000 on, a day up to 28, one to six
    digits of fraction and capital "T" and "Z": on those Python's [strptime]
    succeeds and [strftime] prints the fields as they were written. Every
    other string is refused. *)
Module FechaISO.

Record fecha := {
  anio : string; mes : string; dia : string;
  hora : string; minuto : string; segundo : string
}.

Definition es_digito (c : ascii) : bool :=
  ((48 <=? nat_of_ascii c) && (nat_of_ascii c <=? 57))%nat.

Definition dos (a b : ascii) : nat :=
  10 * (nat_of_ascii a - 48) + (nat_of_ascii b - 48).

Definition texto (l : list ascii) : string := string_of_list_ascii l.

(** One to six digits, then "Z". *)
Definition fraccion_valida (l : list ascii) : bool :=
  match rev l with
  | z :: digitos =>
      Ascii.eqb z "Z" && forallb es_digito digitos
      && (1 <=? List.length digitos)%nat && (List.length digitos <=? 6)%nat
  | [] => false
  end.

Definition leer (s : string) : option fecha :=
  match list_ascii_of_string s with
  | y1 :: y2 :: y3 :: y4 :: g1 :: m1 :: m2 :: g2 :: d1 :: d2 :: t
      :: h1 :: h2 :: p1 :: n1 :: n2 :: p2 :: s1 :: s2 :: punto :: fraccion =>
      if forallb es_digito [y1; y2; y3; y4; m1; m2; d1; d2; h1; h2; n1; n2; s1; s2]
         && negb (Ascii.eqb y1 "0")
         && Ascii.eqb g1 "-" && Ascii.eqb g2 "-" && Ascii.eqb t "T"
         && Ascii.eqb p1 ":" && Ascii.eqb p2 ":" && Ascii.eqb punto "."
         && (1 <=? dos m1 m2)%nat && (dos m1 m2 <=? 12)%nat
         && (1 <=? dos d1 d2)%nat && (dos d1 d2 <=? 28)%nat
         && (dos h1 h2 <=? 23)%nat && (dos n1 n2 <=? 59)%nat
         && (dos s1 s2 <=? 59)%nat
         && fraccion_valida fraccion
      then Some {| anio := texto [y1; y2; y3; y4]; mes := texto [m1; m2];
                   dia := texto [d1; d2]; hora := texto [h1; h2];
                   minuto := texto [n1; n2]; segundo := texto [s1; s2] |}
      else None
  | _ => None
  end.

Definition escribir (f : fecha) : string :=
  (dia f ++ "/" ++ mes f ++ "/" ++ anio f ++ " "
   ++ hora f ++ ":" ++ minuto f ++ ":" ++ segundo f)%string.

#[export] Instance instancia : DateTime := {|
  datetime := fecha;
  strptime := fun s formato =>
    if String.eqb formato "%Y-%m-%dT%H:%M:%S.%fZ" then leer s else None;
  strftime := fun f formato =>
    if String.eqb formato "%d/%m/%Y %H:%M:%S" then escribir f else ""
|}.

End FechaISO.

(** Listing services for the examples. *)
Module Servicios.
Import Drive Recorrido.

Definition a_txt : item := {|
  item_id := "id-a"; item_name := "a.txt"; item_mimeType := "text/plain";
  item_owners := Some [ {| emailAddress := "ana@example.org" |};
                        {| emailAddress := "luz@example.org" |} ];
  item_createdTime := Some "2024-01-02T03:04:05.678Z" |}.

Definition sub : item := {|
  item_id := "id-sub"; item_name := "sub"; item_mimeType := MIME_CARPETA;
  item_owners := None;
  item_createdTime := Some "2024-01-02 03:04" |}.

Definition b_txt : item := {|
  item_id := "id-b"; item_name := "b.txt"; item_mimeType := "application/pdf";
  item_owners := Some [];
  item_createdTime := None |}.

Definition pagina (l : list item) (tok : option string) : respuesta :=
  Respuesta {| files := Some l; nextPageToken := tok |}.

Definition vacia : respuesta :=
  Respuesta {| files := None; nextPageToken := None |}.

(** A root with the file "a.txt" and the folder "sub", which holds the file
    "b.txt". *)
Definition arbol : servicio :=
  fun q tok =>
    if String.eqb q (consulta "raiz") then pagina [a_txt; sub] None
    else if String.eqb q (consulta "id-sub") then pagina [b_txt] None
    else vacia.

(** The same tree, the root listed in two pages, the second of which
    fails. *)
Definition arbol_con_fallo : servicio :=
  fun q tok =>
    if String.eqb q (consulta "raiz") then
      match tok with
      | None => pagina [sub] (Some "p2")
      | Some _ => Excepcion "HttpError 500"
      end
    else if String.eqb q (consulta "id-sub") then pagina [b_txt] None
    else vacia.

(** A container with 250 files. *)
Definition documento (n : nat) : item := {|
  item_id := ("id-" ++ NilEmpty.string_of_uint (Nat.to_uint n))%string;
  item_name := ("doc-" ++ NilEmpty.string_of_uint (Nat.to_uint n) ++ ".txt")%string;
  item_mimeType := "text/plain";
  item_owners := Some [ {| emailAddress := "ana@example.org" |} ];
  item_createdTime := Some "2024-01-02T03:04:05.678Z" |}.

Definition hijos_250 (q : string) : list item :=
  if String.eqb q (consulta "raiz") then map documento (seq 0 250) else [].

(** What walking [arbol] from "raiz" under the label "Root" gives. *)
Definition filas_arbol : list row :=
  [["Root"; "a.txt"; "Archivo"; "ana@example.org"; "02/01/2024 03:04:05"];
   ["Root"; "sub"; "Carpeta"; "Desconocido"; "2024-01-02 03:04"];
   ["Root/sub"; "b.txt"; "Archivo"; "Desconocido"; "No disponible"]].

End Servicios.

(* ================================================================== *)
(** ** Reading the change set off the inventory *)

Module Inventario.
Import PyDict Snapshot.

(** The record's key is already a key of [d]. *)
Definition conocido (d : snapshot) (r : row) : bool :=
  match clave r with
  | Some k => contains d k
  | None => false
  end.

(** The keys and the records, paired in inventory order. *)
Definition por_clave (ks : list string) (datos : list row) : snapshot :=
  combine ks datos.

End Inventario.

Module ServiciosExtra.
Import Drive Servicios.

(** A container whose every page announces one more page. *)
Definition sin_fin : servicio :=
  fun _ _ => pagina [a_txt] (Some "otra").

(** A root with the folder "sub", whose listing fails at once, and then
    the file "a.txt". *)
Definition sub_caida : servicio :=
  fun q tok =>
    if String.eqb q (consulta "raiz") then pagina [sub; a_txt] None
    else if String.eqb q (consulta "id-sub") then Excepcion "HttpError 403"
    else vacia.

End ServiciosExtra.

(* ================================================================== *)
(** ** Inserting in batches *)

Module Lotes.
Import Snapshot.

(** What [insertar_datos_en_sheets] does besides appending: a log line for
    a batch written (with the first and last row number it reports), the
    pause after it, or a log line for a batch that failed. *)
Inductive suceso :=
| InfoLote (desde hasta : nat)
| Pausa
| ErrorLote.

Definition BATCH_SIZE : Z := 100.

(** [range(0, total, paso)]: [None] is the [ValueError] of a zero step; a
    negative step gives the empty range. *)
Definition rango (total : nat) (paso : Z) : option (list nat) :=
  if (paso =? 0)%Z then None
  else if (paso <? 0)%Z then Some []
  else
    let p := Z.to_nat paso in
    Some (map (fun k => k * p) (seq 0 ((total + p - 1) / p))).

Section Insertar.

(** [sheet.append_rows(lote, value_input_option='USER_ENTERED')]: the sheet
    after the call, or [None] when the call raises; a call that raises is
    taken to leave the sheet as it was. *)
Variable append_rows_api : hoja -> list row -> option hoja.

(** One turn of the [for] loop, lines 89-95, for the batch that starts at
    row [i]; [tam] is the batch size. *)
Definition paso_lote (datos : list row) (tam : nat)
  : hoja * list suceso -> nat -> hoja * list suceso :=
  fun '(sheet, sucesos) i =>
    let lote := firstn tam (skipn i datos) in
    match append_rows_api sheet lote with
    | Some sheet' =>
        (sheet', sucesos ++ [InfoLote (i + 1) (i + List.length lote); Pausa])
    | None => (sheet, sucesos ++ [ErrorLote])
    end.

(** [insertar_datos_en_sheets], lines 83-95; [None] is the [ValueError]
    of [range]. *)
Definition insertar_datos_en_sheets (sheet : hoja) (datos : list row)
  (batch_size : Z) : option (hoja * list suceso) :=
  let total := List.length datos in
  match rango total batch_size with
  | None => None
  | Some indices =>
      Some (fold_left (paso_lote datos (Z.to_nat batch_size)) indices (sheet, []))
  end.

End Insertar.

(** An [append_rows] that never fails and adds the rows as they are. *)
Definition append_rows_fiel : hoja -> list row -> option hoja :=
  fun h lote => Some (append_rows h lote).

(** An [append_rows] that fails on the batches that start with [malo]. *)
Definition append_rows_salvo (malo : row) : hoja -> list row -> option hoja :=
  fun h lote =>
    match lote with
    | r :: _ => if list_eq_dec string_dec r malo then None
                else Some (append_rows h lote)
    | [] => Some h
    end.

(** The row ranges of the batches the log reports as written. *)
Fixpoint rangos (l : list suceso) : list (nat * nat) :=
  match l with
  | [] => []
  | InfoLote a b :: t => (a, b) :: rangos t
  | _ :: t => rangos t
  end.

(** Batches tried: written or failed. *)
Fixpoint intentos (l : list suceso) : nat :=
  match l with
  | [] => 0
  | InfoLote _ _ :: t => S (intentos t)
  | ErrorLote :: t => S (intentos t)
  | Pausa :: t => intentos t
  end.

(** The ranges follow one another from [siguiente] up to [total]. *)
Fixpoint cubren (siguiente : nat) (l : list (nat * nat)) (total : nat) : Prop :=
  match l with
  | [] => siguiente = S total
  | (a, b) :: t => a = siguiente /\ a <= b /\ cubren (S b) t total
  end.

(** [Subsecuencia s l]: [s] is [l] with some elements left out. *)
Inductive Subsecuencia {A : Type} : list A -> list A -> Prop :=
| sub_nil : Subsecuencia [] []
| sub_toma x s l : Subsecuencia s l -> Subsecuencia (x :: s) (x :: l)
| sub_salta x s l : Subsecuencia s l -> Subsecuencia s (x :: l).

End Lotes.

(* ================================================================== *)
(** ** The change log and [main] *)

Module Principal.
Import PyDict Snapshot Drive.

(** The spreadsheet is an external collaborator (gspread). It is kept as
    the sequence of its worksheets, each with its title; titles are what
    the program finds and creates worksheets by. *)
Definition libro := list (string * hoja).

(** [spreadsheet.worksheet(title)]; [None] is [WorksheetNotFound]. *)
Fixpoint worksheet (spreadsheet : libro) (title : string) : option hoja :=
  match spreadsheet with
  | [] => None
  | (t, h) :: resto =>
      if String.eqb t title then Some h else worksheet resto title
  end.

(** [spreadsheet.add_worksheet(title=..., rows="1000", cols="10")]: a new,
    blank worksheet at the end; the service refuses a title that is taken
    ([None]). *)
Definition add_worksheet (spreadsheet : libro) (title : string) : option libro :=
  match worksheet spreadsheet title with
  | Some _ => None
  | None => Some (spreadsheet ++ [(title, [])])
  end.

(** A method called on the worksheet object titled [title]. *)
Fixpoint en_hoja (spreadsheet : libro) (title : string) (f : hoja -> hoja)
  : libro :=
  match spreadsheet with
  | [] => []
  | (t, h) :: resto =>
      if String.eqb t title then (t, f h) :: resto
      else (t, h) :: en_hoja resto title f
  end.

Definition titulos (spreadsheet : libro) : list string := map fst spreadsheet.

(** The log lines of [obtener_servicios], [registrar_cambios],
    [actualizar_snapshot] and [main]. *)
Inductive linea :=
| ErrorObtenerServicios
| ErrorSinServicios
| InfoObteniendo (folder_id : string)
| InfoEncontrados (n : nat)
| ErrorAbrir
| InfoSnapshotCreado
| InfoDetectados (nuevos eliminados : nat)
| InfoSinCambios
| ErrorCrearHoja
| InfoCambiosRegistrados (nombre_sheet : string)
| InfoSnapshotActualizado (n : nat).

Definition encabezado_cambios : row :=
  ["Tipo de Cambio"; "Ubicación"; "Nombre"; "Tipo"; "Propietario";
   "Fecha de Subida"].

(** [registrar_cambios], lines 129-149. [marca] is
    [datetime.now().strftime("%Y-%m-%d_%H-%M-%S")]. *)
Definition registrar_cambios (spreadsheet : libro) (marca : string)
  (nuevos eliminados : list row) : libro * list linea :=
  let nombre_sheet := ("Cambios " ++ marca)%string in
  match add_worksheet spreadsheet nombre_sheet with
  | None => (spreadsheet, [ErrorCrearHoja])
  | Some spreadsheet =>
      let header := encabezado_cambios in
      let spreadsheet :=
        en_hoja spreadsheet nombre_sheet (fun h => append_row h header) in
      let spreadsheet :=
        fold_left (fun s r =>
                     en_hoja s nombre_sheet (fun h => append_row h ("Nuevo" :: r)))
                  nuevos spreadsheet in
      let spreadsheet :=
        fold_left (fun s r =>
                     en_hoja s nombre_sheet
                             (fun h => append_row h ("Eliminado" :: r)))
                  eliminados spreadsheet in
      (spreadsheet, [InfoCambiosRegistrados nombre_sheet])
  end.

Inductive excepcion := IndexError | APIError.

(** How [main] ends: it returns, or an exception leaves it. *)
Inductive fin := Retorna | Lanza (e : excepcion).

(** [if nuevos_archivos or eliminados] *)
Definition hay_cambios (nuevos eliminados : list row) : bool :=
  match nuevos, eliminados with
  | [], [] => false
  | _, _ => true
  end.

(** [main] from line 184 on, with the spreadsheet open and the inventory
    walked, for the runs in which the calls to the spreadsheet go through:
    here a call fails only when [add_worksheet] is given a title that is
    taken. The runs in which any call may fail are [Falible.main_con_fallos],
    which gives this function back when none does. *)
Definition main_con_spreadsheet (spreadsheet : libro) (marca : string)
  (datos_actuales : list row) : fin * libro * list linea :=
  match worksheet spreadsheet "Snapshot" with
  | None =>
      match add_worksheet spreadsheet "Snapshot" with
      | None => (Lanza APIError, spreadsheet, [])
      | Some spreadsheet =>
          let spreadsheet :=
            en_hoja spreadsheet "Snapshot" (fun h => append_row h encabezado) in
          let spreadsheet :=
            en_hoja spreadsheet "Snapshot"
                    (fun h => append_rows h datos_actuales) in
          (Retorna, spreadsheet, [InfoSnapshotCreado])
      end
  | Some snapshot_sheet =>
      match obtener_snapshot snapshot_sheet with
      | None => (Lanza IndexError, spreadsheet, [])
      | Some snapshot_actual =>
          match snapshot_nuevo_de datos_actuales with
          | None => (Lanza IndexError, spreadsheet, [])
          | Some snapshot_nuevo =>
              let '(nuevos_archivos, eliminados) :=
                comparar_snapshot snapshot_actual snapshot_nuevo in
              let diario :=
                [InfoDetectados (List.length nuevos_archivos)
                                (List.length eliminados)] in
              let '(spreadsheet, diario) :=
                if hay_cambios nuevos_archivos eliminados then
                  let '(s, d) :=
                    registrar_cambios spreadsheet marca nuevos_archivos
                                      eliminados in
                  (s, diario ++ d)
                else (spreadsheet, diario ++ [InfoSinCambios]) in
              let spreadsheet :=
                en_hoja spreadsheet "Snapshot"
                        (fun h => actualizar_snapshot h datos_actuales) in
              (Retorna, spreadsheet,
               diario ++ [InfoSnapshotActualizado (List.length datos_actuales)])
          end
      end
  end.

Definition FOLDER_ID : string := "1mDdBuS9EjjO1iXsq2l99WJgj0KEmZiPt".
Definition SHEET_ID : string := "1MGHuyIgHoFgmFmZ5g0AXFrwK2Z0S5-rxEeDRbld9MCU".

(** What [main] finds outside: the Drive service ([None] when
    [obtener_servicios] raises), the spreadsheet that
    [open_by_key(SHEET_ID)] opens ([None] when it raises), and the time of
    the run as [registrar_cambios] formats it. *)
Record entorno := {
  servicios : option servicio;
  spreadsheet_remoto : option libro;
  marca_de_tiempo : string
}.

(** What a run leaves: how it ended, the spreadsheet if it was opened, the
    events of the walk and the log lines of the rest. *)
Record salida := {
  fin_de : fin;
  libro_de : option libro;
  eventos_de : list evento;
  diario_de : list linea
}.

(** [main], lines 161-215; [None] when the walk runs out of fuel. *)
Definition main {DT : DateTime} (fuel : nat) (env : entorno) : option salida :=
  match servicios env with
  | None =>
      Some {| fin_de := Retorna; libro_de := None; eventos_de := [];
              diario_de := [ErrorObtenerServicios; ErrorSinServicios] |}
  | Some drive_service =>
      match obtener_archivos_recursivamente drive_service fuel FOLDER_ID
                                            RUTA_INICIAL with
      | None => None
      | Some (datos_actuales, eventos) =>
          let diario :=
            [InfoObteniendo FOLDER_ID;
             InfoEncontrados (List.length datos_actuales)] in
          match spreadsheet_remoto env with
          | None =>
              Some {| fin_de := Retorna; libro_de := None;
                      eventos_de := eventos;
                      diario_de := diario ++ [ErrorAbrir] |}
          | Some spreadsheet =>
              let '(f, spreadsheet, d) :=
                main_con_spreadsheet spreadsheet
                                     (marca_de_tiempo env) datos_actuales in
              Some {| fin_de := f; libro_de := Some spreadsheet;
                      eventos_de := eventos; diario_de := diario ++ d |}
          end
      end
  end.

End Principal.

Module LibrosEjemplo.
Import Snapshot Principal Drive Servicios.

(** A spreadsheet with a main sheet only. *)
Definition nuevo : libro := [("Hoja 1", [["notas"]])].

(** A spreadsheet whose snapshot knows a file that is gone and lacks the
    folder "sub" and its file. *)
Definition con_snapshot : libro :=
  [("Hoja 1", [["notas"]]);
   ("Snapshot",
    [encabezado;
     ["Root"; "a.txt"; "Archivo"; "ana@example.org"; "02/01/2024 03:04:05"];
     ["Root"; "viejo.txt"; "Archivo"; "luz@example.org"; "01/01/2023 00:00:00"]])].

(** The same, with the change sheet of the second "2024-05-06_07-08-09"
    already there. *)
Definition con_cambios_previos : libro :=
  con_snapshot ++ [("Cambios 2024-05-06_07-08-09", [encabezado_cambios])].

(** A spreadsheet whose snapshot has a row of one cell. *)
Definition con_fila_corta : libro :=
  [("Snapshot", [["Ubicación"]; ["Root"]])].

(** A Drive whose root cannot be listed. *)
Definition sin_raiz : servicio := fun _ _ => Excepcion "HttpError 404".

(** The tree of [arbol], hung from the folder that [main] walks. *)
Definition arbol_principal : servicio :=
  fun q tok =>
    if String.eqb q (consulta FOLDER_ID) then pagina [a_txt; sub] None
    else if String.eqb q (consulta "id-sub") then pagina [b_txt] None
    else vacia.

(** What walking [arbol_principal] from [FOLDER_ID] gives. *)
Definition filas_principal : list row :=
  [["Carpeta Principal"; "a.txt"; "Archivo"; "ana@example.org";
    "02/01/2024 03:04:05"];
   ["Carpeta Principal"; "sub"; "Carpeta"; "Desconocido"; "2024-01-02 03:04"];
   ["Carpeta Principal/sub"; "b.txt"; "Archivo"; "Desconocido"; "No disponible"]].

Definition eventos_principal : list evento :=
  [Listar (consulta FOLDER_ID) None; LogWarning "2024-01-02 03:04";
   Listar (consulta "id-sub") None; LogWarning "No disponible"].

(** The first run on [nuevo], and a run on [con_snapshot] when the root
    cannot be listed. *)
Definition primera_vez : entorno :=
  {| servicios := Some arbol_principal;
     spreadsheet_remoto := Some nuevo;
     marca_de_tiempo := "2024-05-06_07-08-09" |}.

Definition raiz_caida : entorno :=
  {| servicios := Some sin_raiz;
     spreadsheet_remoto := Some con_snapshot;
     marca_de_tiempo := "2024-05-06_07-08-09" |}.

(** The dictionary that the "Snapshot" worksheet of [con_snapshot] reads
    as. *)
Definition snapshot_previo : snapshot :=
  [("Root_a.txt",
    ["Root"; "a.txt"; "Archivo"; "ana@example.org"; "02/01/2024 03:04:05"]);
   ("Root_viejo.txt",
    ["Root"; "viejo.txt"; "Archivo"; "luz@example.org"; "01/01/2023 00:00:00"])].

(** The dictionary of the inventory [filas_arbol]. *)
Definition snapshot_arbol : snapshot :=
  Inventario.por_clave ["Root_a.txt"; "Root_sub"; "Root/sub_b.txt"] filas_arbol.

(** What the first run leaves. *)
Definition libro_primera_vez : libro :=
  nuevo ++ [("Snapshot", encabezado :: filas_principal)].

Definition salida_primera_vez : salida :=
  {| fin_de := Retorna;
     libro_de := Some libro_primera_vez;
     eventos_de := eventos_principal;
     diario_de := [InfoObteniendo FOLDER_ID; InfoEncontrados 3;
                   InfoSnapshotCreado] |}.

End LibrosEjemplo.

(* ================================================================== *)
(** ** Runs in which the calls to the spreadsheet may fail *)

Module Falible.
Import PyDict Snapshot Drive Principal.

(** The spreadsheet and what the service will answer to the calls still to
    come, one entry per call, in order: [true] for a call that raises. When
    the list is used up the calls go through. *)
Definition estado : Type := libro * list bool.

(** A step of the run: a value or the exception raised, the state it
    leaves and the log lines it wrote. *)
Definition G (A : Type) : Type := estado -> (A + excepcion) * estado * list linea.

Definition ret_g {A : Type} (a : A) : G A := fun st => (inl a, st, []).

Definition lanzar {A : Type} (e : excepcion) : G A := fun st => (inr e, st, []).

Definition bind_g {A B : Type} (m : G A) (f : A -> G B) : G B :=
  fun st =>
    match m st with
    | (inl a, st', d) =>
        match f a st' with
        | (r, st'', d') => (r, st'', d ++ d')
        end
    | (inr e, st', d) => (inr e, st', d)
    end.

Definition anotar (l : linea) : G unit := fun st => (inl tt, st, [l]).

(** [try: ... except Exception: ...]: [None] when the body raised. *)
Definition intentar {A : Type} (m : G A) : G (option A) :=
  fun st =>
    match m st with
    | (inl a, st', d) => (inl (Some a), st', d)
    | (inr _, st', d) => (inl None, st', d)
    end.

(** A request to the service: it raises when the next answer says so, and
    then it has changed nothing. *)
Definition llamada : G unit :=
  fun st =>
    match snd st with
    | true :: g => (inr APIError, (fst st, g), [])
    | false :: g => (inl tt, (fst st, g), [])
    | [] => (inl tt, (fst st, []), [])
    end.

(** [spreadsheet.worksheet(title)]; a missing worksheet raises too (the
    program catches both alike, line 187). *)
Definition worksheet_g (title : string) : G hoja :=
  bind_g llamada (fun _ st =>
    match worksheet (fst st) title with
    | Some h => (inl h, st, [])
    | None => (inr APIError, st, [])
    end).

(** [spreadsheet.add_worksheet(title=...)] *)
Definition add_worksheet_g (title : string) : G unit :=
  bind_g llamada (fun _ st =>
    match add_worksheet (fst st) title with
    | Some s => (inl tt, (s, snd st), [])
    | None => (inr APIError, st, [])
    end).

(** A writing method ([clear], [append_row], [append_rows]) of the
    worksheet titled [title]. *)
Definition en_hoja_g (title : string) (f : hoja -> hoja) : G unit :=
  bind_g llamada (fun _ st => (inl tt, (en_hoja (fst st) title f, snd st), [])).

(** [get_all_values()] of the worksheet titled [title]. *)
Definition get_all_values_g (title : string) : G hoja :=
  bind_g llamada (fun _ st =>
    (inl match worksheet (fst st) title with
         | Some h => get_all_values h
         | None => []
         end, st, [])).

Fixpoint para_cada_g {A : Type} (l : list A) (cuerpo : A -> G unit) : G unit :=
  match l with
  | [] => ret_g tt
  | a :: resto => bind_g (cuerpo a) (fun _ => para_cada_g resto cuerpo)
  end.

(** [registrar_cambios], lines 129-149: only [add_worksheet] is inside a
    [try]. *)
Definition registrar_cambios_g (marca : string) (nuevos eliminados : list row)
  : G unit :=
  let nombre_sheet := ("Cambios " ++ marca)%string in
  bind_g (intentar (add_worksheet_g nombre_sheet)) (fun creada =>
    match creada with
    | None => anotar ErrorCrearHoja
    | Some _ =>
        bind_g (en_hoja_g nombre_sheet (fun h => append_row h encabezado_cambios))
          (fun _ =>
        bind_g (para_cada_g nuevos (fun r =>
                  en_hoja_g nombre_sheet (fun h => append_row h ("Nuevo" :: r))))
          (fun _ =>
        bind_g (para_cada_g eliminados (fun r =>
                  en_hoja_g nombre_sheet
                            (fun h => append_row h ("Eliminado" :: r))))
          (fun _ => anotar (InfoCambiosRegistrados nombre_sheet))))
    end).

(** [actualizar_snapshot], lines 151-159, on the worksheet "Snapshot". *)
Definition actualizar_snapshot_g (datos : list row) : G unit :=
  bind_g (en_hoja_g "Snapshot" clear) (fun _ =>
  bind_g (en_hoja_g "Snapshot" (fun h => append_row h encabezado)) (fun _ =>
  bind_g (en_hoja_g "Snapshot" (fun h => append_rows h datos)) (fun _ =>
  anotar (InfoSnapshotActualizado (List.length datos))))).

(** [main] from line 184 on. *)
Definition main_con_fallos (marca : string) (datos_actuales : list row) : G unit :=
  bind_g (intentar (worksheet_g "Snapshot")) (fun hallada =>
    match hallada with
    | None =>
        bind_g (add_worksheet_g "Snapshot") (fun _ =>
        bind_g (en_hoja_g "Snapshot" (fun h => append_row h encabezado)) (fun _ =>
        bind_g (en_hoja_g "Snapshot" (fun h => append_rows h datos_actuales))
          (fun _ => anotar InfoSnapshotCreado)))
    | Some _ =>
        bind_g (get_all_values_g "Snapshot") (fun data =>
          match obtener_snapshot data with
          | None => lanzar IndexError
          | Some snapshot_actual =>
              match snapshot_nuevo_de datos_actuales with
              | None => lanzar IndexError
              | Some snapshot_nuevo =>
                  let nuevos_archivos :=
                    fst (comparar_snapshot snapshot_actual snapshot_nuevo) in
                  let eliminados :=
                    snd (comparar_snapshot snapshot_actual snapshot_nuevo) in
                  bind_g (anotar (InfoDetectados (List.length nuevos_archivos)
                                                 (List.length eliminados)))
                    (fun _ =>
                  bind_g (if hay_cambios nuevos_archivos eliminados
                          then registrar_cambios_g marca nuevos_archivos
                                                   eliminados
                          else anotar InfoSinCambios)
                    (fun _ => actualizar_snapshot_g datos_actuales))
              end
          end)
    end).

(** No call of the list fails. *)
Definition limpio (g : list bool) : Prop := Forall (fun b => b = false) g.

(** [Corre m s r s' d]: when no call fails, the step [m] taken on the
    spreadsheet [s] ends with [r], leaves [s'] and logs [d]. *)
Definition Corre {A : Type} (m : G A) (s : libro) (r : A + excepcion)
  (s' : libro) (d : list linea) : Prop :=
  forall g, limpio g -> exists g', limpio g' /\ m (s, g) = (r, (s', g'), d).

(** The step raises nothing but the error of a call. *)
Definition SoloAPI {A : Type} (m : G A) : Prop :=
  forall st e st' d, m st = (inr e, st', d) -> e = APIError.

(** How a run of [main_con_spreadsheet] ends, as a step ends. *)
Definition resultado_g (f : fin) : unit + excepcion :=
  match f with
  | Retorna => inl tt
  | Lanza e => inr e
  end.

Definition fin_g (r : unit + excepcion) : fin :=
  match r with
  | inl _ => Retorna
  | inr e => Lanza e
  end.

(** [main], lines 161-215, with the answers [guion] of the spreadsheet
    service to the calls made once the spreadsheet is open. *)
Definition main_falible {DT : DateTime} (fuel : nat) (env : entorno)
  (guion : list bool) : option salida :=
  match servicios env with
  | None =>
      Some {| fin_de := Retorna; libro_de := None; eventos_de := [];
              diario_de := [ErrorObtenerServicios; ErrorSinServicios] |}
  | Some drive_service =>
      match obtener_archivos_recursivamente drive_service fuel FOLDER_ID
                                            RUTA_INICIAL with
      | None => None
      | Some (datos_actuales, eventos) =>
          let diario :=
            [InfoObteniendo FOLDER_ID;
             InfoEncontrados (List.length datos_actuales)] in
          match spreadsheet_remoto env with
          | None =>
              Some {| fin_de := Retorna; libro_de := None;
                      eventos_de := eventos;
                      diario_de := diario ++ [ErrorAbrir] |}
          | Some spreadsheet =>
              match main_con_fallos (marca_de_tiempo env) datos_actuales
                                    (spreadsheet, guion) with
              | (r, st, d) =>
                  Some {| fin_de := fin_g r; libro_de := Some (fst st);
                          eventos_de := eventos; diario_de := diario ++ d |}
              end
          end
      end
  end.

End Falible.

Module EjemplosFalible.
Import Snapshot Drive Principal Falible LibrosEjemplo.

(** A run on the spreadsheet whose snapshot has a row of one cell. *)
Definition con_snapshot_ilegible : entorno :=
  {| servicios := Some arbol_principal;
     spreadsheet_remoto := Some con_fila_corta;
     marca_de_tiempo := "2024-05-06_07-08-09" |}.

Definition salida_ilegible : salida :=
  {| fin_de := Lanza IndexError;
     libro_de := Some con_fila_corta;
     eventos_de := eventos_principal;
     diario_de := [InfoObteniendo FOLDER_ID; InfoEncontrados 3] |}.

(** Eight calls go through and the ninth fails. *)
Definition falla_la_novena : list bool :=
  [false; false; false; false; false; false; false; false; true].

End EjemplosFalible.

(* ================================================================== *)
(** * Facts *)

(** ** Dictionaries *)

Section DictFacts.
Import PyDict.
Context {V : Type}.
Implicit Types (d : dict V) (key : string) (v : V).

Lemma contains_In d key : contains d key = true <-> In key (keys d).
Proof.
  induction d as [|[k w] t IH]; simpl.
  - split; [discriminate | tauto].
  - destruct (String.eqb k key) eqn:E.
    + apply String.eqb_eq in E. tauto.
    + apply String.eqb_neq in E. rewrite IH. split; [tauto|].
      intros [H|H]; [contradiction | exact H].
Qed.

Lemma contains_false d key : contains d key = false <-> ~ In key (keys d).
Proof.
  rewrite <- contains_In. destruct (contains d key); split; intros;
    congruence.
Qed.

Lemma contains_get d key : contains d key = true <-> exists v, get d key = Some v.
Proof.
  induction d as [|[k w] t IH]; simpl.
  - split; [discriminate | intros [v H]; discriminate].
  - destruct (String.eqb k key); [|exact IH].
    split; eauto.
Qed.

Lemma get_None d key : get d key = None <-> contains d key = false.
Proof.
  induction d as [|[k w] t IH]; simpl; [tauto|].
  destruct (String.eqb k key); [|exact IH].
  split; discriminate.
Qed.

Lemma keys_set d key v :
  keys (set d key v) = if contains d key then keys d else keys d ++ [key].
Proof.
  unfold keys. induction d as [|[k w] t IH]; simpl; [reflexivity|].
  destruct (String.eqb k key) eqn:E; simpl; [reflexivity|].
  rewrite IH. destruct (contains t key); reflexivity.
Qed.

Lemma wf_empty : wf (@empty V).
Proof. constructor. Qed.

Lemma wf_set d key v : wf d -> wf (set d key v).
Proof.
  unfold wf. intros H. rewrite keys_set.
  destruct (contains d key) eqn:E; [exact H|].
  apply contains_false in E.
  apply NoDup_rev in H. rewrite <- (rev_involutive (keys d ++ [key])).
  apply NoDup_rev. rewrite rev_app_distr. simpl. constructor; [|exact H].
  rewrite <- in_rev. exact E.
Qed.

Lemma get_set_same d key v : get (set d key v) key = Some v.
Proof.
  induction d as [|[k w] t IH]; simpl.
  - now rewrite String.eqb_refl.
  - destruct (String.eqb k key) eqn:E; simpl; rewrite E; auto.
Qed.

Lemma get_set_other d key k' v : key <> k' -> get (set d key v) k' = get d k'.
Proof.
  intros Hne. induction d as [|[k w] t IH]; simpl.
  - apply String.eqb_neq in Hne. now rewrite Hne.
  - destruct (String.eqb k key) eqn:E; simpl.
    + apply String.eqb_eq in E. subst k.
      apply String.eqb_neq in Hne. now rewrite Hne.
    + destruct (String.eqb k k'); auto.
Qed.

Lemma get_In d key v : wf d -> In (key, v) d -> get d key = Some v.
Proof.
  unfold wf. induction d as [|[k w] t IH]; simpl; [tauto|].
  intros Hnd [H|H].
  - inversion H; subst. now rewrite String.eqb_refl.
  - inversion Hnd as [|? ? Hk Ht]; subst.
    destruct (String.eqb k key) eqn:E; [|auto].
    apply String.eqb_eq in E. subst k. exfalso. apply Hk.
    change key with (fst (key, v)). now apply in_map.
Qed.

Lemma get_Some_In d key v : get d key = Some v -> In (key, v) d.
Proof.
  induction d as [|[k w] t IH]; simpl; [discriminate|].
  destruct (String.eqb k key) eqn:E; [|auto].
  apply String.eqb_eq in E. intros H; inversion H; subst. now left.
Qed.

End DictFacts.

(** ** The differ *)

Section DifferFacts.
Import PyDict Snapshot.

Lemma fold_left_ausentes (otro d : snapshot) (acc : list row) :
  fold_left (fun acc '(key, r) =>
               if negb (contains otro key) then acc ++ [r] else acc) d acc
  = acc ++ map snd (ausentes otro d).
Proof.
  revert acc. induction d as [|[k r] t IH]; intros acc; simpl.
  - now rewrite app_nil_r.
  - rewrite IH. destruct (contains otro k); simpl; [reflexivity|].
    now rewrite <- app_assoc.
Qed.

Lemma comparar_snapshot_ausentes (snapshot_actual snapshot_nuevo : snapshot) :
  comparar_snapshot snapshot_actual snapshot_nuevo
  = (map snd (ausentes snapshot_actual snapshot_nuevo),
     map snd (ausentes snapshot_nuevo snapshot_actual)).
Proof.
  unfold comparar_snapshot, items. now rewrite !fold_left_ausentes.
Qed.

Lemma NoDup_keys_filter (f : string * row -> bool) (d : snapshot) :
  NoDup (map fst d) -> NoDup (map fst (filter f d)).
Proof.
  induction d as [|kv t IH]; simpl; intros H; [constructor|].
  inversion H as [|? ? Hk Ht]; subst.
  destruct (f kv); simpl; [|auto].
  constructor; [|auto].
  intros Hin. apply Hk. apply in_map_iff in Hin.
  destruct Hin as [x [Hx Hin]]. apply filter_In in Hin.
  apply in_map_iff. exists x. tauto.
Qed.

Lemma ausentes_keys (otro d : snapshot) (k : string) :
  In k (map fst (ausentes otro d))
  <-> contains d k = true /\ contains otro k = false.
Proof.
  unfold ausentes. rewrite in_map_iff. split.
  - intros [[k' r] [Hk Hin]]. simpl in Hk. subst k'.
    apply filter_In in Hin. destruct Hin as [Hin Hf]. simpl in Hf.
    split.
    + apply contains_In. apply in_map_iff. now exists (k, r).
    + now apply negb_true_iff.
  - intros [Hd Ho]. apply contains_In in Hd. apply in_map_iff in Hd.
    destruct Hd as [[k' r] [Hk Hin]]. simpl in Hk. subst k'.
    exists (k, r). split; [reflexivity|].
    apply filter_In. split; [assumption|]. simpl. now rewrite Ho.
Qed.

Lemma ausentes_rows (otro d : snapshot) :
  wf d ->
  Forall2 (fun k r => get d k = Some r)
          (map fst (ausentes otro d)) (map snd (ausentes otro d)).
Proof.
  intros Hwf.
  assert (Hsub : forall kv, In kv (ausentes otro d) -> In kv d).
  { intros kv H. unfold ausentes in H. now apply filter_In in H. }
  induction (ausentes otro d) as [|[k r] t IH]; simpl; constructor.
  - apply get_In; [assumption|]. apply Hsub. now left.
  - apply IH. intros kv H. apply Hsub. now right.
Qed.

(** C1. Partition property of the differ. For dictionaries [previous] and
    [current], the list [nuevos] returned by [comparar_snapshot] lines up,
    entry by entry, with a duplicate-free list of keys that holds exactly the
    keys of [current] absent from [previous], each entry being the row
    [current] gives its key; [eliminados] does the same for the keys of
    [previous] absent from [current] with the rows of [previous]; a key held
    by both dictionaries is in neither list of keys, whatever the two rows
    are. *)
Theorem comparar_snapshot_partition (previous current : snapshot) :
  wf previous -> wf current ->
  exists claves_nuevos claves_eliminados : list string,
    NoDup claves_nuevos /\ NoDup claves_eliminados /\
    (forall k, In k claves_nuevos
               <-> contains current k = true /\ contains previous k = false) /\
    (forall k, In k claves_eliminados
               <-> contains previous k = true /\ contains current k = false) /\
    Forall2 (fun k r => get current k = Some r)
            claves_nuevos (fst (comparar_snapshot previous current)) /\
    Forall2 (fun k r => get previous k = Some r)
            claves_eliminados (snd (comparar_snapshot previous current)) /\
    (forall k, contains previous k = true -> contains current k = true ->
               ~ In k claves_nuevos /\ ~ In k claves_eliminados).
Proof.
  intros Hp Hc.
  exists (map fst (ausentes previous current)),
         (map fst (ausentes current previous)).
  rewrite comparar_snapshot_ausentes. simpl.
  split; [now apply NoDup_keys_filter|].
  split; [now apply NoDup_keys_filter|].
  split; [intros k; apply ausentes_keys|].
  split; [intros k; apply ausentes_keys|].
  split; [now apply ausentes_rows|].
  split; [now apply ausentes_rows|].
  intros k Hk1 Hk2. rewrite !ausentes_keys.
  split; intros [_ H']; congruence.
Qed.

Lemma comparar_snapshot_partition_witness :
  wf Ejemplos.previo /\ wf Ejemplos.actual /\
  exists claves_nuevos claves_eliminados : list string,
    NoDup claves_nuevos /\ NoDup claves_eliminados /\
    (forall k, In k claves_nuevos
               <-> contains Ejemplos.actual k = true /\
                   contains Ejemplos.previo k = false) /\
    (forall k, In k claves_eliminados
               <-> contains Ejemplos.previo k = true /\
                   contains Ejemplos.actual k = false) /\
    Forall2 (fun k r => get Ejemplos.actual k = Some r) claves_nuevos
            (fst (comparar_snapshot Ejemplos.previo Ejemplos.actual)) /\
    Forall2 (fun k r => get Ejemplos.previo k = Some r) claves_eliminados
            (snd (comparar_snapshot Ejemplos.previo Ejemplos.actual)) /\
    (forall k, contains Ejemplos.previo k = true ->
               contains Ejemplos.actual k = true ->
               ~ In k claves_nuevos /\ ~ In k claves_eliminados).
Proof.
  assert (Hp : wf Ejemplos.previo).
  { unfold wf; simpl. repeat constructor; simpl; intuition discriminate. }
  assert (Hc : wf Ejemplos.actual).
  { unfold wf; simpl. repeat constructor; simpl; intuition discriminate. }
  split; [exact Hp|]. split; [exact Hc|].
  exact (comparar_snapshot_partition Ejemplos.previo Ejemplos.actual Hp Hc).
Defined.

(** C6. Symmetry of the differ: what [comparar_snapshot A B] reports as new
    is, as a list, what [comparar_snapshot B A] reports as removed, and the
    other way round. *)
Theorem comparar_snapshot_symmetry (A B : snapshot) :
  fst (comparar_snapshot A B) = snd (comparar_snapshot B A) /\
  snd (comparar_snapshot A B) = fst (comparar_snapshot B A).
Proof.
  rewrite !comparar_snapshot_ausentes. simpl. split; reflexivity.
Qed.

End DifferFacts.

(** ** Keying rows *)

Section KeyingFacts.
Import PyDict Snapshot.

Lemma para_cada_ext {A S : Type} (f g : S -> A -> option S) (l : list A) (s : S) :
  (forall s a, f s a = g s a) -> para_cada l s f = para_cada l s g.
Proof.
  intros Hfg. revert s. induction l as [|a t IH]; intros s; simpl.
  - reflexivity.
  - rewrite Hfg. destruct (g s a); auto.
Qed.

Lemma snapshot_nuevo_de_indexar (datos : list row) :
  snapshot_nuevo_de datos = para_cada datos empty cuerpo_indexar.
Proof.
  unfold snapshot_nuevo_de. apply para_cada_ext. intros s r.
  unfold cuerpo_indexar, clave.
  destruct (nth_error r 0), (nth_error r 1); reflexivity.
Qed.

Lemma obtener_snapshot_indexar (header : row) (rows : list row) :
  rows <> [] ->
  obtener_snapshot (header :: rows) = para_cada rows empty cuerpo_indexar.
Proof.
  intros Hne. unfold obtener_snapshot, get_all_values.
  destruct rows as [|r0 t0]; [contradiction|].
  change (List.length (header :: r0 :: t0) <? 2)%nat with false.
  cbv iota. change (skipn 1 (header :: r0 :: t0)) with (r0 :: t0).
  apply para_cada_ext. intros s r.
  unfold cuerpo_indexar, clave.
  destruct (nth_error r 0), (nth_error r 1); reflexivity.
Qed.

Lemma clave_total (r : row) : 2 <= List.length r -> exists k, clave r = Some k.
Proof.
  destruct r as [|a [|b t]]; simpl; intros H; try lia.
  unfold clave. simpl. eauto.
Qed.

Lemma indexar_total (rows : list row) (d0 : snapshot) :
  Forall (fun r => 2 <= List.length r) rows ->
  exists d, para_cada rows d0 cuerpo_indexar = Some d.
Proof.
  intros H. revert d0. induction H as [|r t Hr Ht IH]; intros d0; simpl.
  - eauto.
  - unfold cuerpo_indexar at 1. destruct (clave_total r Hr) as [k ->].
    apply IH.
Qed.

Lemma indexar_wf (rows : list row) (d0 d : snapshot) :
  wf d0 -> para_cada rows d0 cuerpo_indexar = Some d -> wf d.
Proof.
  revert d0. induction rows as [|r t IH]; intros d0 Hwf; simpl.
  - intros H; inversion H; subst; assumption.
  - unfold cuerpo_indexar at 1. destruct (clave r) as [k|]; [|discriminate].
    apply IH. now apply wf_set.
Qed.

Lemma indexar_get (rows : list row) (d0 d : snapshot) (key : string) :
  para_cada rows d0 cuerpo_indexar = Some d ->
  get d key = match ultima_con_clave key rows with
              | Some r => Some r
              | None => get d0 key
              end.
Proof.
  revert d0. induction rows as [|r t IH]; intros d0; simpl.
  - intros H; inversion H; reflexivity.
  - unfold cuerpo_indexar at 1, tiene_clave.
    destruct (clave r) as [k|]; [|discriminate].
    intros H. rewrite (IH _ H).
    destruct (ultima_con_clave key t); [reflexivity|].
    destruct (String.eqb k key) eqn:E.
    + apply String.eqb_eq in E. subst. apply get_set_same.
    + apply String.eqb_neq in E. now apply get_set_other.
Qed.

Lemma ultima_con_clave_Some (key : string) (rows : list row) (r : row) :
  ultima_con_clave key rows = Some r -> In r rows /\ clave r = Some key.
Proof.
  induction rows as [|r0 t IH]; simpl; [discriminate|].
  destruct (ultima_con_clave key t) as [r'|].
  - intros H; inversion H; subst. destruct (IH eq_refl). auto.
  - unfold tiene_clave. destruct (clave r0) as [k|] eqn:Ek; [|discriminate].
    destruct (String.eqb k key) eqn:E; [|discriminate].
    apply String.eqb_eq in E. intros H; inversion H; subst. auto.
Qed.

Lemma ultima_con_clave_None (key : string) (rows : list row) :
  ultima_con_clave key rows = None ->
  forall r, In r rows -> clave r <> Some key.
Proof.
  induction rows as [|r0 t IH]; simpl; [tauto|].
  destruct (ultima_con_clave key t) as [r'|]; [discriminate|].
  unfold tiene_clave. intros H r [Hr|Hr]; [subst r0|now apply IH].
  intros Hk. rewrite Hk, String.eqb_refl in H. discriminate.
Qed.

Lemma ultima_con_clave_last (key : string) (pre post : list row) (r : row) :
  clave r = Some key ->
  Forall (fun r' => clave r' <> Some key) post ->
  ultima_con_clave key (pre ++ r :: post) = Some r.
Proof.
  intros Hr Hpost.
  assert (Hp : ultima_con_clave key post = None).
  { destruct (ultima_con_clave key post) as [r'|] eqn:E; [|reflexivity].
    apply ultima_con_clave_Some in E. destruct E as [Hin Hk].
    rewrite Forall_forall in Hpost. now destruct (Hpost _ Hin). }
  induction pre as [|p t IH]; simpl.
  - rewrite Hp. unfold tiene_clave. now rewrite Hr, String.eqb_refl.
  - now rewrite IH.
Qed.

End KeyingFacts.

Section CodecFacts.
Import PyDict Snapshot.

Lemma indexar_empty_spec (rows : list row) (d : snapshot) :
  para_cada rows empty cuerpo_indexar = Some d ->
  wf d /\
  (forall key, get d key = ultima_con_clave key rows) /\
  (forall r, In r rows -> exists k, clave r = Some k /\ contains d k = true) /\
  (forall k v, get d k = Some v -> In v rows /\ clave v = Some k).
Proof.
  intros H.
  assert (Hget : forall key, get d key = ultima_con_clave key rows).
  { intros key. rewrite (indexar_get rows empty d key H). simpl.
    now destruct (ultima_con_clave key rows). }
  split; [apply (indexar_wf rows empty d wf_empty H)|].
  split; [exact Hget|]. split.
  - intros r Hin. destruct (clave r) as [k|] eqn:Ek.
    + exists k. split; [reflexivity|]. apply contains_get.
      rewrite Hget. destruct (ultima_con_clave k rows) as [r'|] eqn:Eu; eauto.
      exfalso. exact (ultima_con_clave_None k rows Eu r Hin Ek).
    + exfalso. clear Hget. revert H Hin. generalize (@empty row).
      induction rows as [|r0 t IH]; intros d0; simpl; [tauto|].
      unfold cuerpo_indexar at 1. intros H [Hr|Hr].
      * subst r0. rewrite Ek in H. discriminate.
      * destruct (clave r0); [|discriminate]. eapply IH; eauto.
  - intros k v Hk. rewrite Hget in Hk. now apply ultima_con_clave_Some.
Qed.

(** C3. Snapshot codec round-trip. For a non-empty list of five-column
    records with pairwise-distinct (location, name) pairs, writing them with
    [actualizar_snapshot] (header row, then the records) and reading the
    sheet back with [obtener_snapshot] succeeds and gives the very
    dictionary that the keying loop of [main] builds from the records; its
    keys are the keys derived from the records and each of its values is a
    record stored under its own derived key. *)
Theorem snapshot_roundtrip (snapshot_sheet : hoja) (records : list row) :
  records <> [] ->
  NoDup (map ubicacion_nombre records) ->
  Forall (fun r => List.length r = 5) records ->
  exists d : snapshot,
    actualizar_snapshot snapshot_sheet records = encabezado :: records /\
    obtener_snapshot (actualizar_snapshot snapshot_sheet records) = Some d /\
    snapshot_nuevo_de records = Some d /\
    (forall r, In r records -> exists k, clave r = Some k /\ contains d k = true) /\
    (forall k v, get d k = Some v -> In v records /\ clave v = Some k).
Proof.
  intros Hne _ Hlen.
  assert (H2 : Forall (fun r => 2 <= List.length r) records).
  { eapply Forall_impl; [|exact Hlen]. simpl. intros r Hr. lia. }
  destruct (indexar_total records empty H2) as [d Hd].
  exists d.
  assert (Hsheet : actualizar_snapshot snapshot_sheet records = encabezado :: records)
    by reflexivity.
  split; [exact Hsheet|]. rewrite Hsheet.
  rewrite (obtener_snapshot_indexar encabezado records Hne).
  rewrite snapshot_nuevo_de_indexar.
  destruct (indexar_empty_spec records d Hd) as (_ & _ & Hk & Hv).
  auto.
Qed.

Lemma snapshot_roundtrip_witness :
  Ejemplos.inventario <> [] /\
  NoDup (map ubicacion_nombre Ejemplos.inventario) /\
  Forall (fun r => List.length r = 5) Ejemplos.inventario /\
  exists d : snapshot,
    actualizar_snapshot [["x"]; ["y"; "z"]] Ejemplos.inventario
      = encabezado :: Ejemplos.inventario /\
    obtener_snapshot (actualizar_snapshot [["x"]; ["y"; "z"]] Ejemplos.inventario)
      = Some d /\
    snapshot_nuevo_de Ejemplos.inventario = Some d /\
    (forall r, In r Ejemplos.inventario ->
               exists k, clave r = Some k /\ contains d k = true) /\
    (forall k v, get d k = Some v -> In v Ejemplos.inventario /\ clave v = Some k).
Proof.
  assert (H1 : Ejemplos.inventario <> []) by discriminate.
  assert (H2 : NoDup (map ubicacion_nombre Ejemplos.inventario)).
  { simpl. repeat constructor; simpl; intuition discriminate. }
  assert (H3 : Forall (fun r => List.length r = 5) Ejemplos.inventario).
  { repeat constructor. }
  split; [exact H1|]. split; [exact H2|]. split; [exact H3|].
  exact (snapshot_roundtrip [["x"]; ["y"; "z"]] Ejemplos.inventario H1 H2 H3).
Defined.

(** C9. The key [location + "_" + name] is not injective: the records
    ("a_b", "c") and ("a", "b_c") differ in location and in name and get the
    same key "a_b_c". Hence both keying loops keep one entry for the two
    records, and the differ reports no change when one replaces the other. *)
Theorem clave_no_inyectiva :
  fst (ubicacion_nombre Ejemplos.fila_ab_c) <> fst (ubicacion_nombre Ejemplos.fila_a_bc) /\
  snd (ubicacion_nombre Ejemplos.fila_ab_c) <> snd (ubicacion_nombre Ejemplos.fila_a_bc) /\
  clave Ejemplos.fila_ab_c = Some "a_b_c" /\
  clave Ejemplos.fila_a_bc = Some "a_b_c" /\
  snapshot_nuevo_de [Ejemplos.fila_ab_c; Ejemplos.fila_a_bc]
    = Some [("a_b_c", Ejemplos.fila_a_bc)] /\
  obtener_snapshot [encabezado; Ejemplos.fila_ab_c; Ejemplos.fila_a_bc]
    = Some [("a_b_c", Ejemplos.fila_a_bc)] /\
  comparar_snapshot [("a_b_c", Ejemplos.fila_ab_c)] [("a_b_c", Ejemplos.fila_a_bc)]
    = ([], []) /\
  main_comparar [encabezado; Ejemplos.fila_ab_c] [Ejemplos.fila_a_bc]
    = Some (([], []), [encabezado; Ejemplos.fila_a_bc]).
Proof.
  repeat split; try reflexivity; simpl; discriminate.
Qed.

(** C10. Last row wins. When every row has at least two cells, the keying
    loop of [main] and [obtener_snapshot] (on a header followed by the rows)
    build the same dictionary; it maps each key to the last row of the input
    that derives it, and no earlier row with that key is left in it. *)
Theorem ultima_fila_gana (rows : list row) :
  Forall (fun r => 2 <= List.length r) rows ->
  exists d : snapshot,
    snapshot_nuevo_de rows = Some d /\
    (forall header, rows <> [] -> obtener_snapshot (header :: rows) = Some d) /\
    (forall key, get d key = ultima_con_clave key rows) /\
    (forall pre r post key,
        rows = pre ++ r :: post ->
        clave r = Some key ->
        Forall (fun r' => clave r' <> Some key) post ->
        get d key = Some r /\
        forall r', In r' pre -> clave r' = Some key -> r' <> r ->
                   ~ In (key, r') (items d)).
Proof.
  intros H2.
  destruct (indexar_total rows empty H2) as [d Hd].
  destruct (indexar_empty_spec rows d Hd) as (Hwf & Hget & _ & _).
  exists d. split; [now rewrite snapshot_nuevo_de_indexar|].
  split; [intros header Hne; now rewrite obtener_snapshot_indexar|].
  split; [exact Hget|].
  intros pre r post key -> Hr Hpost.
  assert (Hk : get d key = Some r).
  { rewrite Hget. now apply ultima_con_clave_last. }
  split; [exact Hk|].
  intros r' _ _ Hne Hin. apply Hne.
  apply (get_In d key r' Hwf) in Hin. congruence.
Qed.

Lemma ultima_fila_gana_witness :
  Forall (fun r => 2 <= List.length r) Ejemplos.repetidas /\
  exists d : snapshot,
    snapshot_nuevo_de Ejemplos.repetidas = Some d /\
    (forall header, Ejemplos.repetidas <> [] ->
                    obtener_snapshot (header :: Ejemplos.repetidas) = Some d) /\
    (forall key, get d key = ultima_con_clave key Ejemplos.repetidas) /\
    (forall pre r post key,
        Ejemplos.repetidas = pre ++ r :: post ->
        clave r = Some key ->
        Forall (fun r' => clave r' <> Some key) post ->
        get d key = Some r /\
        forall r', In r' pre -> clave r' = Some key -> r' <> r ->
                   ~ In (key, r') (items d)).
Proof.
  assert (H : Forall (fun r => 2 <= List.length r) Ejemplos.repetidas).
  { repeat constructor; simpl; lia. }
  split; [exact H|]. exact (ultima_fila_gana Ejemplos.repetidas H).
Defined.

(** The dictionary built from [Ejemplos.repetidas]: the folder "a" replaced
    the file "a", at the place the file had. *)
Example repetidas_indexadas :
  snapshot_nuevo_de Ejemplos.repetidas
  = Some [("R_a", ["R"; "a"; "Carpeta"; "luz@x.org"; "02/01/2024 03:04:05"]);
          ("R_b", ["R"; "b"; "Archivo"; "ana@x.org"; "01/01/2024 00:00:00"])].
Proof. reflexivity. Qed.

End CodecFacts.

(** ** The walk *)

Section WalkFacts.
Import Drive Recorrido.
Context {DT : DateTime}.

Implicit Types (svc : servicio) (rec : string -> string -> M (list row)).
Implicit Types (it : item) (items : list item) (rows acc : list row).

Lemma filas_bind {A B : Type} (m : M A) (f : A -> M B) :
  filas (bind m f) = match filas m with
                     | Some a => filas (f a)
                     | None => None
                     end.
Proof.
  destruct m as [[a ev]|]; simpl; [|reflexivity].
  destruct (f a) as [[b ev']|]; reflexivity.
Qed.

Lemma filas_Some {A : Type} (m : M A) (a : A) :
  filas m = Some a <-> exists ev, m = Some (a, ev).
Proof.
  destruct m as [[a' ev]|]; simpl; split.
  - intros H; inversion H; eauto.
  - intros [ev' H]; inversion H; reflexivity.
  - discriminate.
  - intros [ev' H]; discriminate.
Qed.

Lemma filas_formatear_fecha (s : string) :
  filas (formatear_fecha s) = Some (fecha_mostrada s).
Proof.
  unfold formatear_fecha, fecha_mostrada.
  destruct (strptime s FORMATO_ORIGEN); reflexivity.
Qed.

Lemma tipo_carpeta it : String.eqb (tipo_de it) "Carpeta" = es_carpeta it.
Proof.
  unfold tipo_de, es_carpeta.
  destruct (String.eqb (item_mimeType it) MIME_CARPETA); reflexivity.
Qed.

(** One turn of the [for] loop, on rows. *)
Lemma filas_para_items_cons rec ruta it resto acc :
  filas (para_items rec ruta (it :: resto) acc)
  = if es_carpeta it then
      match filas (rec (item_id it) (ruta ++ "/" ++ item_name it)%string) with
      | Some sub =>
          filas (para_items rec ruta resto ((acc ++ [fila ruta it]) ++ sub))
      | None => None
      end
    else filas (para_items rec ruta resto (acc ++ [fila ruta it])).
Proof.
  cbn [para_items]. rewrite filas_bind, filas_formatear_fecha.
  rewrite tipo_carpeta. destruct (es_carpeta it); [|reflexivity].
  now rewrite filas_bind.
Qed.

(** One turn of the [while] loop, on rows. *)
Lemma filas_bucle_S svc fuel parent_id ruta tok acc :
  filas (bucle svc (S fuel) parent_id ruta tok acc)
  = match svc (consulta parent_id) tok with
    | Excepcion _ => Some acc
    | Respuesta res =>
        match filas (para_items (fun id r => bucle svc fuel id r None [])
                                ruta (items_de res) acc) with
        | Some acc' =>
            if sin_token (nextPageToken res) then Some acc'
            else filas (bucle svc fuel parent_id ruta (nextPageToken res) acc')
        | None => None
        end
    end.
Proof.
  cbn [bucle]. rewrite filas_bind. cbn [registrar filas option_map fst].
  destruct (svc (consulta parent_id) tok) as [res|e]; [|reflexivity].
  rewrite filas_bind.
  destruct (filas (para_items _ ruta (items_de res) acc)); [|reflexivity].
  destruct (sin_token (nextPageToken res)); reflexivity.
Qed.

Lemma devuelve_filas svc parent_id ruta rows :
  devuelve svc parent_id ruta rows
  <-> exists fuel,
      filas (obtener_archivos_recursivamente svc fuel parent_id ruta) = Some rows.
Proof.
  unfold devuelve. split.
  - intros (fuel & ev & H). exists fuel. rewrite H. reflexivity.
  - intros (fuel & H). apply filas_Some in H. destruct H as [ev H]. eauto.
Qed.

(** The [for] loop only depends on what the recursive calls return. *)
Lemma para_items_mono rec1 rec2 ruta items acc rows :
  (forall id r sub, filas (rec1 id r) = Some sub -> filas (rec2 id r) = Some sub) ->
  filas (para_items rec1 ruta items acc) = Some rows ->
  filas (para_items rec2 ruta items acc) = Some rows.
Proof.
  intros Hrec. revert acc.
  induction items as [|it resto IH]; intros acc; [exact (fun H => H)|].
  rewrite !filas_para_items_cons. destruct (es_carpeta it); [|apply IH].
  destruct (filas (rec1 _ _)) as [sub|] eqn:E1; [|discriminate].
  rewrite (Hrec _ _ _ E1). apply IH.
Qed.

Lemma para_items_ext rec1 rec2 ruta items acc :
  (forall id r, filas (rec1 id r) = filas (rec2 id r)) ->
  filas (para_items rec1 ruta items acc) = filas (para_items rec2 ruta items acc).
Proof.
  intros Hrec. revert acc.
  induction items as [|it resto IH]; intros acc; [reflexivity|].
  rewrite !filas_para_items_cons, Hrec. destruct (es_carpeta it); [|apply IH].
  destruct (filas (rec2 _ _)); [apply IH | reflexivity].
Qed.

Lemma para_items_app rec ruta items1 items2 acc :
  filas (para_items rec ruta (items1 ++ items2) acc)
  = match filas (para_items rec ruta items1 acc) with
    | Some acc' => filas (para_items rec ruta items2 acc')
    | None => None
    end.
Proof.
  revert acc. induction items1 as [|it resto IH]; intros acc; [reflexivity|].
  rewrite <- app_comm_cons, !filas_para_items_cons.
  destruct (es_carpeta it); [|apply IH].
  destruct (filas (rec _ _)); [apply IH | reflexivity].
Qed.

(** More fuel does not change what the walk returns. *)
Lemma bucle_mono_S svc fuel :
  forall parent_id ruta tok acc rows,
    filas (bucle svc fuel parent_id ruta tok acc) = Some rows ->
    filas (bucle svc (S fuel) parent_id ruta tok acc) = Some rows.
Proof.
  induction fuel as [|fuel IH]; intros parent_id ruta tok acc rows;
    [discriminate|].
  rewrite (filas_bucle_S svc (S fuel)), (filas_bucle_S svc fuel).
  destruct (svc (consulta parent_id) tok) as [res|e]; [|exact (fun H => H)].
  destruct (filas (para_items (fun id r => bucle svc fuel id r None []) _ _ _))
    as [acc'|] eqn:E; [|discriminate].
  rewrite (para_items_mono _ (fun id r => bucle svc (S fuel) id r None [])
             _ _ _ _ (fun id r sub => IH id r None [] sub) E).
  destruct (sin_token (nextPageToken res)); [exact (fun H => H) | apply IH].
Qed.

Lemma bucle_mono svc n m parent_id ruta tok acc rows :
  n <= m ->
  filas (bucle svc n parent_id ruta tok acc) = Some rows ->
  filas (bucle svc m parent_id ruta tok acc) = Some rows.
Proof.
  induction 1 as [|m Hle IH]; [exact (fun H => H)|].
  intros H. apply bucle_mono_S. now apply IH.
Qed.

Lemma devuelve_unico svc parent_id ruta rows1 rows2 :
  devuelve svc parent_id ruta rows1 ->
  devuelve svc parent_id ruta rows2 ->
  rows1 = rows2.
Proof.
  rewrite !devuelve_filas. intros [n1 H1] [n2 H2].
  unfold obtener_archivos_recursivamente in *.
  apply (bucle_mono svc n1 (Nat.max n1 n2)) in H1; [|lia].
  apply (bucle_mono svc n2 (Nat.max n1 n2)) in H2; [|lia].
  congruence.
Qed.



(** *** The walk computes the pre-order flattening *)

Lemma PreordenItems_app svc ruta items1 items2 rows1 rows2 :
  PreordenItems svc ruta items1 rows1 ->
  PreordenItems svc ruta items2 rows2 ->
  PreordenItems svc ruta (items1 ++ items2) (rows1 ++ rows2).
Proof.
  intros H1 H2. revert rows1 H1.
  induction items1 as [|it resto IH]; intros rows1 H1; inversion H1; subst.
  - exact H2.
  - simpl. apply preorden_archivo; auto.
  - simpl. rewrite <- app_assoc. apply preorden_carpeta; auto.
Qed.

Lemma para_items_Preorden svc rec ruta items :
  (forall id r sub, filas (rec id r) = Some sub -> Preorden svc id r sub) ->
  forall acc rows,
    filas (para_items rec ruta items acc) = Some rows ->
    exists rows', rows = acc ++ rows' /\ PreordenItems svc ruta items rows'.
Proof.
  intros Hrec. induction items as [|it resto IH]; intros acc rows.
  - simpl. intros H. inversion H; subst. exists []. split.
    + now rewrite app_nil_r.
    + constructor.
  - rewrite filas_para_items_cons. destruct (es_carpeta it) eqn:Ec.
    + destruct (filas (rec _ _)) as [sub|] eqn:Es; [|discriminate].
      intros H. apply IH in H. destruct H as (rows' & -> & Hpre).
      exists (fila ruta it :: sub ++ rows'). split.
      * rewrite <- !app_assoc. reflexivity.
      * apply preorden_carpeta; auto.
    + intros H. apply IH in H. destruct H as (rows' & -> & Hpre).
      exists (fila ruta it :: rows'). split.
      * rewrite <- app_assoc. reflexivity.
      * apply preorden_archivo; auto.
Qed.

Lemma bucle_Preorden svc fuel :
  forall parent_id ruta tok acc rows,
    filas (bucle svc fuel parent_id ruta tok acc) = Some rows ->
    exists items rows',
      Hijos svc (consulta parent_id) tok items /\
      rows = acc ++ rows' /\
      PreordenItems svc ruta items rows'.
Proof.
  induction fuel as [|fuel IH]; intros parent_id ruta tok acc rows;
    [discriminate|].
  rewrite filas_bucle_S.
  destruct (svc (consulta parent_id) tok) as [res|e] eqn:Esvc.
  - destruct (filas (para_items _ _ _ _)) as [acc'|] eqn:Ei; [|discriminate].
    apply (para_items_Preorden svc) in Ei.
    + destruct Ei as (rows1 & -> & Hpre1).
      destruct (sin_token (nextPageToken res)) eqn:Et.
      * intros H. inversion H; subst. exists (items_de res), rows1.
        split; [|split]; auto. now apply hijos_fin.
      * intros H. apply IH in H. destruct H as (resto & rows2 & Hh & -> & Hpre2).
        exists (items_de res ++ resto), (rows1 ++ rows2).
        split; [|split].
        -- now apply hijos_mas.
        -- now rewrite app_assoc.
        -- now apply PreordenItems_app.
    + intros id r sub H. apply IH in H.
      destruct H as (items & rows' & Hh & -> & Hpre).
      simpl. econstructor; eauto.
  - intros H. inversion H; subst. exists [], []. split; [|split].
    + eapply hijos_fallo; eauto.
    + now rewrite app_nil_r.
    + constructor.
Qed.

Lemma Hijos_bucle svc q tok items :
  Hijos svc q tok items ->
  forall parent_id, q = consulta parent_id ->
  forall m ruta acc rows,
    filas (para_items (fun id r => bucle svc m id r None []) ruta items acc)
      = Some rows ->
    exists n, filas (bucle svc n parent_id ruta tok acc) = Some rows.
Proof.
  induction 1 as [q tok e Hsvc | q tok res Hsvc Ht
                 | q tok res resto Hsvc Ht Hresto IH];
    intros parent_id -> m ruta acc rows Hi.
  - exists 1. rewrite filas_bucle_S, Hsvc. exact Hi.
  - exists (S m). rewrite filas_bucle_S, Hsvc, Hi, Ht. reflexivity.
  - rewrite para_items_app in Hi.
    destruct (filas (para_items _ ruta (items_de res) acc)) as [acc'|] eqn:E1;
      [|discriminate].
    destruct (IH parent_id eq_refl m ruta acc' rows Hi) as [n Hn].
    exists (S (Nat.max m n)). rewrite filas_bucle_S, Hsvc.
    rewrite (para_items_mono _ (fun id r => bucle svc (Nat.max m n) id r None [])
               _ _ _ _ (fun id r sub => bucle_mono svc m (Nat.max m n) id r None [] sub
                                          (Nat.le_max_l m n)) E1).
    rewrite Ht. apply (bucle_mono svc n); [lia | exact Hn].
Qed.

Lemma Preorden_bucle svc parent_id ruta rows :
  Preorden svc parent_id ruta rows ->
  exists n, filas (bucle svc n parent_id ruta None []) = Some rows.
Proof.
  revert parent_id ruta rows.
  apply (Preorden_mut DT svc
    (fun parent_id ruta rows =>
       exists n, filas (bucle svc n parent_id ruta None []) = Some rows)
    (fun ruta items rows =>
       forall acc, exists n,
         filas (para_items (fun id r => bucle svc n id r None []) ruta items acc)
           = Some (acc ++ rows))).
  - intros parent_id ruta items rows Hh _ HQ.
    destruct (HQ []) as [m Hm].
    exact (Hijos_bucle svc _ _ _ Hh parent_id eq_refl m ruta [] rows Hm).
  - intros ruta acc. exists 0. simpl. now rewrite app_nil_r.
  - intros ruta it resto rows Hc _ HQ acc.
    destruct (HQ (acc ++ [fila ruta it])) as [n Hn].
    exists n. rewrite filas_para_items_cons, Hc, Hn.
    now rewrite <- app_assoc.
  - intros ruta it resto sub rows Hc _ [n1 H1] _ HQ acc.
    destruct (HQ ((acc ++ [fila ruta it]) ++ sub)) as [n2 H2].
    exists (Nat.max n1 n2). rewrite filas_para_items_cons, Hc.
    rewrite (bucle_mono svc n1 (Nat.max n1 n2) _ _ _ _ _ (Nat.le_max_l _ _) H1).
    rewrite (para_items_mono _ (fun id r => bucle svc (Nat.max n1 n2) id r None [])
               _ _ _ _ (fun id r s => bucle_mono svc n2 (Nat.max n1 n2) id r None [] s
                                        (Nat.le_max_r n1 n2)) H2).
    rewrite <- !app_assoc. reflexivity.
Qed.

(** The walk returns [rows] exactly when [rows] is the pre-order
    flattening of what the service lists. *)
Lemma devuelve_Preorden svc parent_id ruta rows :
  devuelve svc parent_id ruta rows <-> Preorden svc parent_id ruta rows.
Proof.
  rewrite devuelve_filas. unfold obtener_archivos_recursivamente. split.
  - intros [fuel H]. apply bucle_Preorden in H.
    destruct H as (items & rows' & Hh & -> & Hpre). simpl.
    econstructor; eauto.
  - apply Preorden_bucle.
Qed.

(** *** Listings *)

Lemma Hijos_unico svc q tok items1 items2 :
  Hijos svc q tok items1 -> Hijos svc q tok items2 -> items1 = items2.
Proof.
  intros H1. revert items2.
  induction H1 as [q tok e Hsvc | q tok res Hsvc Ht
                  | q tok res resto Hsvc Ht Hresto IH];
    intros items2 H2; inversion H2; subst; try congruence;
    match goal with
    | Ha : svc ?q ?t = Respuesta ?a, Hb : svc ?q ?t = Respuesta ?b |- _ =>
        assert (E : b = a) by congruence; subst b
    end; try congruence; try reflexivity.
  f_equal. now apply IH.
Qed.

Lemma Paginas_Hijos svc q tok items :
  Paginas svc q tok items -> Hijos svc q tok items.
Proof.
  induction 1; [eapply hijos_fin | eapply hijos_mas]; eauto.
Qed.

Lemma Hijos_una_pagina (hijos : string -> list item) q tok items :
  Hijos (una_pagina hijos) q tok items <-> items = hijos q.
Proof.
  split.
  - intros H. inversion H as [? ? e Hsvc | ? ? res Hsvc Ht
                             | ? ? res resto Hsvc Ht Hresto]; subst;
      unfold una_pagina in Hsvc; inversion Hsvc; subst.
    + reflexivity.
    + discriminate.
  - intros ->.
    exact (hijos_fin (una_pagina hijos) q tok
             {| files := Some (hijos q); nextPageToken := None |}
             eq_refl eq_refl).
Qed.

(** Two services that list the same children for every container are
    walked alike. *)
Lemma Preorden_mismos_hijos svc1 svc2 :
  (forall q items, Hijos svc1 q None items -> Hijos svc2 q None items) ->
  forall parent_id ruta rows,
    Preorden svc1 parent_id ruta rows -> Preorden svc2 parent_id ruta rows.
Proof.
  intros Hh.
  apply (Preorden_mut DT svc1
           (fun parent_id ruta rows => Preorden svc2 parent_id ruta rows)
           (fun ruta items rows => PreordenItems svc2 ruta items rows)).
  - intros parent_id ruta items rows H _ HQ. econstructor; eauto.
  - intros ruta. apply preorden_nil.
  - intros ruta it resto rows Hc _ HQ. now apply preorden_archivo.
  - intros ruta it resto sub rows Hc _ HP _ HQ. now apply preorden_carpeta.
Qed.

Lemma length_ficha (n : nat) : String.length (ficha n) = n.
Proof. induction n as [|n IH]; simpl; [reflexivity | now rewrite IH]. Qed.

Lemma paginado_Paginas_desde (tam : nat) (hijos : string -> list item) q :
  0 < tam ->
  forall k tok,
    List.length (skipn (desplazamiento tok) (hijos q)) <= k ->
    Paginas (paginado tam hijos) q tok (skipn (desplazamiento tok) (hijos q)).
Proof.
  intros Htam. induction k as [|k IH]; intros tok Hk.
  - assert (E : skipn (desplazamiento tok) (hijos q) = []).
    { destruct (skipn _ _); [reflexivity | simpl in Hk; lia]. }
    set (res := {| files := Some (firstn tam (skipn (desplazamiento tok) (hijos q)));
                   nextPageToken := None |}).
    assert (Hsvc : paginado tam hijos q tok = Respuesta res).
    { unfold paginado, res. rewrite E. simpl. destruct tam; reflexivity. }
    assert (Hi : items_de res = skipn (desplazamiento tok) (hijos q)).
    { unfold res, items_de. simpl. rewrite E. now destruct tam. }
    rewrite <- Hi. now apply paginas_fin with (res := res).
  - set (quedan := skipn (desplazamiento tok) (hijos q)) in *.
    destruct (Nat.leb_spec (List.length quedan) tam) as [Hle|Hgt].
    + set (res := {| files := Some (firstn tam quedan); nextPageToken := None |}).
      assert (Hsvc : paginado tam hijos q tok = Respuesta res).
      { unfold paginado, res. fold quedan.
        apply Nat.leb_le in Hle. now rewrite Hle. }
      assert (Hi : items_de res = quedan).
      { unfold res, items_de. simpl. now apply firstn_all2. }
      rewrite <- Hi. now apply paginas_fin with (res := res).
    + set (sig := Some (ficha (desplazamiento tok + tam))).
      set (res := {| files := Some (firstn tam quedan); nextPageToken := sig |}).
      assert (Hsvc : paginado tam hijos q tok = Respuesta res).
      { unfold paginado, res, sig. fold quedan.
        apply Nat.leb_gt in Hgt. now rewrite Hgt. }
      assert (Hd : desplazamiento sig = desplazamiento tok + tam).
      { unfold sig. simpl. apply length_ficha. }
      assert (Ht : sin_token (nextPageToken res) = false).
      { unfold res, sig. simpl. apply String.eqb_neq. intros E.
        apply (f_equal String.length) in E. rewrite length_ficha in E.
        simpl in E. lia. }
      assert (Hs : skipn (desplazamiento sig) (hijos q) = skipn tam quedan).
      { rewrite Hd. unfold quedan. rewrite skipn_skipn. f_equal. lia. }
      rewrite <- (firstn_skipn tam quedan).
      change (firstn tam quedan) with (items_de res).
      rewrite <- Hs.
      apply paginas_mas with (res := res); [exact Hsvc | exact Ht |].
      change (nextPageToken res) with sig. apply IH.
      rewrite Hs, length_skipn. lia.
Qed.

(** Pages of any positive size deliver all the children, in order. *)
Lemma paginado_Paginas (tam : nat) (hijos : string -> list item) q :
  0 < tam -> Paginas (paginado tam hijos) q None (hijos q).
Proof.
  intros Htam.
  exact (paginado_Paginas_desde tam hijos q Htam _ None (le_n _)).
Qed.

(** *** Every listed entry has its record *)

Lemma PreordenItems_In svc ruta items rows it :
  PreordenItems svc ruta items rows -> In it items -> In (fila ruta it) rows.
Proof.
  revert rows. induction items as [|i resto IH]; intros rows H Hin;
    [contradiction|].
  inversion H as [|? ? ? rows0 Hc0 Hresto|? ? ? sub0 rows0 Hc0 Hsub Hresto];
    subst; destruct Hin as [->|Hin].
  - now left.
  - right. eauto.
  - now left.
  - right. apply in_or_app. right. eauto.
Qed.

Lemma PreordenItems_dentro svc ruta items rows c :
  PreordenItems svc ruta items rows -> In c items -> es_carpeta c = true ->
  exists sub,
    Preorden svc (item_id c) (ruta ++ "/" ++ item_name c)%string sub /\
    incl sub rows.
Proof.
  revert rows. induction items as [|i resto IH]; intros rows H Hin Hc;
    [contradiction|].
  inversion H as [|? ? ? rows0 Hc0 Hresto|? ? ? sub0 rows0 Hc0 Hsub Hresto];
    subst; destruct Hin as [->|Hin].
  - congruence.
  - destruct (IH _ Hresto Hin Hc) as (sub & Hs & Hincl).
    exists sub. split; [exact Hs|]. intros x Hx. right. auto.
  - exists sub0. split; [assumption|]. intros x Hx. right.
    apply in_or_app. now left.
  - destruct (IH _ Hresto Hin Hc) as (sub & Hs & Hincl).
    exists sub. split; [exact Hs|]. intros x Hx. right.
    apply in_or_app. right. auto.
Qed.

Lemma Listado_fila svc parent_id ruta it r :
  Listado svc parent_id ruta it r ->
  forall rows, Preorden svc parent_id ruta rows -> In (fila r it) rows.
Proof.
  induction 1 as [parent_id ruta items it Hh Hin
                 | parent_id ruta items c it r Hh Hin Hc Hl IH];
    intros rows Hpre; inversion Hpre as [? ? items' ? Hh' Hitems]; subst;
    rewrite <- (Hijos_unico _ _ _ _ _ Hh Hh') in Hitems.
  - eapply PreordenItems_In; eauto.
  - destruct (PreordenItems_dentro _ _ _ _ _ Hitems Hin Hc) as (sub & Hs & Hincl).
    apply Hincl. now apply IH.
Qed.

(** Where a folder's record stands among the records of its container. *)
Lemma PreordenItems_carpeta svc ruta items1 c items2 rows :
  PreordenItems svc ruta (items1 ++ c :: items2) rows ->
  es_carpeta c = true ->
  exists antes sub despues,
    rows = antes ++ fila ruta c :: sub ++ despues /\
    PreordenItems svc ruta items1 antes /\
    Preorden svc (item_id c) (ruta ++ "/" ++ item_name c)%string sub /\
    PreordenItems svc ruta items2 despues.
Proof.
  revert rows. induction items1 as [|i resto IH]; intros rows H Hc; simpl in H.
  - inversion H as [| |? ? ? sub0 rows0 Hc0 Hsub Hresto]; subst; [congruence|].
    exists [], sub0, rows0. repeat split; auto. apply preorden_nil.
  - inversion H as [|? ? ? rows0 Hc0 Hresto|? ? ? sub0 rows0 Hc0 Hsub Hresto];
      subst.
    + destruct (IH _ Hresto Hc) as (antes & sub & despues & -> & Ha & Hs & Hd).
      exists (fila ruta i :: antes), sub, despues. repeat split; auto.
      now apply preorden_archivo.
    + destruct (IH _ Hresto Hc) as (antes & sub & despues & -> & Ha & Hs & Hd).
      exists (fila ruta i :: sub0 ++ antes), sub, despues. repeat split; auto.
      * simpl. now rewrite <- app_assoc.
      * now apply preorden_carpeta.
Qed.

(** *** Failing calls *)

Lemma bucle_sin_fallos svc fuel :
  forall parent_id ruta tok acc,
    filas (bucle svc fuel parent_id ruta tok acc)
    = filas (bucle (sin_fallos svc) fuel parent_id ruta tok acc).
Proof.
  induction fuel as [|fuel IH]; intros parent_id ruta tok acc; [reflexivity|].
  rewrite !filas_bucle_S. unfold sin_fallos at 1.
  destruct (svc (consulta parent_id) tok) as [res|e]; [|reflexivity].
  rewrite (para_items_ext _ (fun id r => bucle (sin_fallos svc) fuel id r None [])
             ruta (items_de res) acc (fun id r => IH id r None [])).
  destruct (filas (para_items _ _ _ _)); [|reflexivity].
  destruct (sin_token (nextPageToken res)); [reflexivity | apply IH].
Qed.

(** The children of a container whose second call fails are those of its
    first page. *)
Lemma Preorden_pagina_antes_del_fallo svc parent_id ruta res e rows :
  svc (consulta parent_id) None = Respuesta res ->
  sin_token (nextPageToken res) = false ->
  svc (consulta parent_id) (nextPageToken res) = Excepcion e ->
  (Preorden svc parent_id ruta rows
   <-> PreordenItems svc ruta (items_de res) rows).
Proof.
  intros Hres Hsin Hfalla.
  assert (Hh : Hijos svc (consulta parent_id) None (items_de res)).
  { rewrite <- (app_nil_r (items_de res)).
    apply hijos_mas; [exact Hres | exact Hsin |].
    eapply hijos_fallo. exact Hfalla. }
  split.
  - intros Hpre. inversion Hpre as [? ? items' ? Hh' Hitems]; subst.
    now rewrite (Hijos_unico _ _ _ _ _ Hh Hh').
  - intros Hitems. econstructor; eauto.
Qed.

(** A folder whose listing fails at once brings its own record and nothing
    else; the entries listed before it and after it bring all of theirs. *)
Lemma Preorden_subcarpeta_caida svc padre ruta items1 c items2 e rows :
  es_carpeta c = true ->
  svc (consulta (item_id c)) None = Excepcion e ->
  Hijos svc (consulta padre) None (items1 ++ c :: items2) ->
  (Preorden svc padre ruta rows
   <-> exists antes despues,
       rows = antes ++ fila ruta c :: despues /\
       PreordenItems svc ruta items1 antes /\
       PreordenItems svc ruta items2 despues).
Proof.
  intros Hc Hfalla Hh.
  assert (Hvacio : Hijos svc (consulta (item_id c)) None []).
  { eapply hijos_fallo. exact Hfalla. }
  split.
  - intros Hpre. inversion Hpre as [? ? items' ? Hh' Hitems]; subst.
    rewrite <- (Hijos_unico _ _ _ _ _ Hh Hh') in Hitems.
    destruct (PreordenItems_carpeta _ _ _ _ _ _ Hitems Hc)
      as (antes & sub & despues & -> & Ha & Hs & Hd).
    inversion Hs as [? ? items_c ? Hhc Hsub]; subst.
    rewrite <- (Hijos_unico _ _ _ _ _ Hvacio Hhc) in Hsub.
    inversion Hsub; subst. exists antes, despues. auto.
  - intros (antes & despues & -> & Ha & Hd).
    apply preorden_contenedor with (items := items1 ++ c :: items2);
      [exact Hh|].
    apply PreordenItems_app; [exact Ha|].
    apply (preorden_carpeta svc ruta c items2 [] despues);
      [exact Hc | | exact Hd].
    apply preorden_contenedor with (items := []); [exact Hvacio|].
    apply preorden_nil.
Qed.

(** *** The claims about the walk *)

(** C2. Walk order and locations. A root walked under the label "Root",
    whose children are a file "a.txt" and a folder "sub" holding the single
    file "b.txt", gives exactly three records, with locations "Root", "Root",
    "Root/sub" and names "a.txt", "sub", "b.txt", in that order. In general
    the walk returns a list exactly when that list is the depth-first
    pre-order flattening of the listings, and in such a flattening the
    record of a folder stands right before the records of what the folder
    holds, which are listed under the location extended by "/" and the
    folder's name. *)
Theorem recorrido_preorden svc (raiz : string) (a s b : item) :
  item_name a = "a.txt" -> es_carpeta a = false ->
  item_name s = "sub" -> es_carpeta s = true ->
  item_name b = "b.txt" -> es_carpeta b = false ->
  Paginas svc (consulta raiz) None [a; s] ->
  Paginas svc (consulta (item_id s)) None [b] ->
  (exists rows,
      devuelve svc raiz "Root" rows /\
      (forall rows', devuelve svc raiz "Root" rows' -> rows' = rows) /\
      rows = [fila "Root" a; fila "Root" s; fila "Root/sub" b] /\
      map (fun r => nth 0 r "") rows = ["Root"; "Root"; "Root/sub"] /\
      map (fun r => nth 1 r "") rows = ["a.txt"; "sub"; "b.txt"]) /\
  (forall parent_id ruta rows,
      devuelve svc parent_id ruta rows <-> Preorden svc parent_id ruta rows) /\
  (forall ruta items1 c items2 rows,
      PreordenItems svc ruta (items1 ++ c :: items2) rows ->
      es_carpeta c = true ->
      exists antes sub despues,
        rows = antes ++ fila ruta c :: sub ++ despues /\
        PreordenItems svc ruta items1 antes /\
        Preorden svc (item_id c) (ruta ++ "/" ++ item_name c)%string sub /\
        PreordenItems svc ruta items2 despues).
Proof.
  intros Hna Hca Hns Hcs Hnb Hcb Hraiz Hsub.
  split; [|split].
  - assert (Hpre : Preorden svc raiz "Root"
                     [fila "Root" a; fila "Root" s; fila "Root/sub" b]).
    { apply preorden_contenedor with (items := [a; s]);
        [now apply Paginas_Hijos|].
      apply preorden_archivo; [exact Hca|].
      apply (preorden_carpeta svc "Root" s [] [fila "Root/sub" b] []);
        [exact Hcs | | apply preorden_nil].
      rewrite Hns. change ("Root" ++ "/" ++ "sub")%string with "Root/sub".
      apply preorden_contenedor with (items := [b]);
        [now apply Paginas_Hijos|].
      apply preorden_archivo; [exact Hcb | apply preorden_nil]. }
    apply devuelve_Preorden in Hpre.
    eexists. split; [exact Hpre|]. split; [|split; [reflexivity|]].
    + intros rows' H'. exact (devuelve_unico _ _ _ _ _ H' Hpre).
    + unfold fila. simpl. rewrite Hna, Hns, Hnb. split; reflexivity.
  - intros parent_id ruta rows. apply devuelve_Preorden.
  - intros ruta items1 c items2 rows. apply PreordenItems_carpeta.
Qed.

(** C4. Pagination transparency. When the service delivers the children
    [hijos q] of every container [q] in pages joined by continuation tokens,
    the walk returns a list exactly when it returns that list over the
    service that delivers [hijos q] in one page. *)
Theorem paginacion_transparente svc (hijos : string -> list item) :
  (forall q, Paginas svc q None (hijos q)) ->
  forall parent_id ruta rows,
    devuelve svc parent_id ruta rows
    <-> devuelve (una_pagina hijos) parent_id ruta rows.
Proof.
  intros Hpag parent_id ruta rows. rewrite !devuelve_Preorden.
  split; apply Preorden_mismos_hijos; intros q items H.
  - apply Hijos_una_pagina.
    exact (Hijos_unico _ _ _ _ _ H (Paginas_Hijos _ _ _ _ (Hpag q))).
  - apply Hijos_una_pagina in H. subst items.
    apply Paginas_Hijos, Hpag.
Qed.

(** Pages of any positive size give what the single page gives. *)
Corollary paginado_una_pagina (tam : nat) (hijos : string -> list item) :
  0 < tam ->
  forall parent_id ruta rows,
    devuelve (paginado tam hijos) parent_id ruta rows
    <-> devuelve (una_pagina hijos) parent_id ruta rows.
Proof.
  intros Htam parent_id ruta rows. rewrite !devuelve_Preorden.
  split; apply Preorden_mismos_hijos; intros q items H.
  - apply Hijos_una_pagina.
    exact (Hijos_unico _ _ _ _ _ H
             (Paginas_Hijos _ _ _ _ (paginado_Paginas tam hijos q Htam))).
  - apply Hijos_una_pagina in H. subst items.
    apply Paginas_Hijos, paginado_Paginas, Htam.
Qed.

(** C5. Partial-failure tolerance. When the listing call for [parent_id]
    with the token [tok] fails, the loop entered there returns at once the
    list it was given, after that one call and one error line in the log and
    with no other call. If the page before was the one that announced
    [tok], the walk of [parent_id] from that page on returns what the page
    and its subfolders had added; when that page is the first, the walk of
    [parent_id] returns a list exactly when the list is the flattening of
    the entries of that page, subfolders included. A folder whose listing
    fails at once brings its own record and nothing below it, and the walk
    of its container returns exactly the records of the entries before it,
    then its record, then the records of the entries after it. On rows,
    walking any container over the service is the same as walking it over
    the service whose failing calls are empty last pages, with the same
    fuel, and the walk returns a list exactly when the list is the pre-order
    flattening of the listings cut at their failing calls: the failure
    reaches neither siblings nor ancestors, and no exception leaves the
    walk. *)
Theorem fallo_de_listado_tolerado svc (parent_id ruta : string)
  (tok : option string) (e : string) :
  svc (consulta parent_id) tok = Excepcion e ->
  (forall fuel acc,
      bucle svc (S fuel) parent_id ruta tok acc
      = Some (acc, [Listar (consulta parent_id) tok; LogError parent_id e])) /\
  (forall fuel tok0 res acc acc',
      svc (consulta parent_id) tok0 = Respuesta res ->
      nextPageToken res = tok ->
      sin_token tok = false ->
      filas (para_items (fun id r => bucle svc (S fuel) id r None [])
                        ruta (items_de res) acc) = Some acc' ->
      filas (bucle svc (S (S fuel)) parent_id ruta tok0 acc) = Some acc') /\
  (forall fuel otro ruta',
      filas (obtener_archivos_recursivamente svc fuel otro ruta')
      = filas (obtener_archivos_recursivamente (sin_fallos svc) fuel otro ruta')) /\
  (forall res rows,
      svc (consulta parent_id) None = Respuesta res ->
      nextPageToken res = tok ->
      sin_token tok = false ->
      (devuelve svc parent_id ruta rows
       <-> PreordenItems svc ruta (items_de res) rows)) /\
  (forall padre ruta_p items1 c items2 e' rows,
      es_carpeta c = true ->
      svc (consulta (item_id c)) None = Excepcion e' ->
      Hijos svc (consulta padre) None (items1 ++ c :: items2) ->
      (devuelve svc padre ruta_p rows
       <-> exists antes despues,
           rows = antes ++ fila ruta_p c :: despues /\
           PreordenItems svc ruta_p items1 antes /\
           PreordenItems svc ruta_p items2 despues)) /\
  (forall otro ruta' rows,
      devuelve svc otro ruta' rows <-> Preorden svc otro ruta' rows).
Proof.
  intros Hsvc. split; [|split; [|split; [|split; [|split]]]].
  - intros fuel acc. cbn [bucle]. rewrite Hsvc. reflexivity.
  - intros fuel tok0 res acc acc' Hres Htok Hsin Hitems.
    rewrite filas_bucle_S, Hres, Hitems, Htok, Hsin.
    rewrite filas_bucle_S, Hsvc. reflexivity.
  - intros fuel otro ruta'. apply bucle_sin_fallos.
  - intros res rows Hres Htok Hsin. subst tok. rewrite devuelve_Preorden.
    exact (Preorden_pagina_antes_del_fallo svc parent_id ruta res e rows
             Hres Hsin Hsvc).
  - intros padre ruta_p items1 c items2 e' rows Hc Hfalla Hh.
    rewrite devuelve_Preorden.
    exact (Preorden_subcarpeta_caida svc padre ruta_p items1 c items2 e' rows
             Hc Hfalla Hh).
  - intros otro ruta' rows. apply devuelve_Preorden.
Qed.

(** C7. Timestamp fallback. For an entry whose creation timestamp [s] does
    not parse under the source format, formatting returns [s] itself, with a
    warning in the log and without raising, and the entry's record carries
    [s] as its date; the loop over the entries appends that record and goes
    on, into the entry if it is a folder and then to the entries that follow;
    whenever the walk meets the entry and returns, that record is in the
    result. A timestamp that parses is shown in the display format
    instead. *)
Theorem fecha_sin_formato_se_conserva svc (parent_id ruta : string)
  (it : item) (r s : string) :
  item_createdTime it = Some s ->
  strptime s FORMATO_ORIGEN = None ->
  formatear_fecha s = Some (s, [LogWarning s]) /\
  fila r it = [r; item_name it; tipo_de it; propietario_de it; s] /\
  (forall rec resto acc,
      filas (para_items rec r (it :: resto) acc)
      = let registro := [r; item_name it; tipo_de it; propietario_de it; s] in
        if es_carpeta it then
          match filas (rec (item_id it) (r ++ "/" ++ item_name it)%string) with
          | Some sub => filas (para_items rec r resto ((acc ++ [registro]) ++ sub))
          | None => None
          end
        else filas (para_items rec r resto (acc ++ [registro]))) /\
  (Listado svc parent_id ruta it r ->
   forall rows, devuelve svc parent_id ruta rows ->
                In [r; item_name it; tipo_de it; propietario_de it; s] rows) /\
  (forall it' s' fecha_obj,
      item_createdTime it' = Some s' ->
      strptime s' FORMATO_ORIGEN = Some fecha_obj ->
      formatear_fecha s' = Some (strftime fecha_obj FORMATO_SALIDA, []) /\
      fila r it' = [r; item_name it'; tipo_de it'; propietario_de it';
                    strftime fecha_obj FORMATO_SALIDA]).
Proof.
  intros Hcreado Hparse.
  assert (Hfila : fila r it = [r; item_name it; tipo_de it; propietario_de it; s]).
  { unfold fila, fecha_mostrada, fecha_subida_de. now rewrite Hcreado, Hparse. }
  split; [|split; [exact Hfila|split; [|split]]].
  - unfold formatear_fecha. now rewrite Hparse.
  - intros rec resto acc. rewrite filas_para_items_cons, Hfila. reflexivity.
  - intros Hl rows Hd. rewrite <- Hfila.
    apply devuelve_Preorden in Hd. exact (Listado_fila _ _ _ _ _ Hl rows Hd).
  - intros it' s' fecha_obj Hc' Hp'. split.
    + unfold formatear_fecha. now rewrite Hp'.
    + unfold fila, fecha_mostrada, fecha_subida_de. now rewrite Hc', Hp'.
Qed.

(** C8, as the program has it. Whenever the walk meets an entry and returns,
    the result holds the entry's record, and the owner field of that record
    is the [emailAddress] of the first owner when the owner list is present
    and not empty, and the string "Desconocido" when the list is absent or
    empty. *)
Theorem propietario_del_registro svc (parent_id ruta : string) (it : item)
  (r : string) (rows : list row) :
  Listado svc parent_id ruta it r ->
  devuelve svc parent_id ruta rows ->
  exists reg,
    In reg rows /\ reg = fila r it /\
    nth 3 reg "" = match item_owners it with
                   | Some (primero :: _) => emailAddress primero
                   | Some [] => "Desconocido"
                   | None => "Desconocido"
                   end.
Proof.
  intros Hl Hd. exists (fila r it). split; [|split; [reflexivity|]].
  - apply devuelve_Preorden in Hd. exact (Listado_fila _ _ _ _ _ Hl rows Hd).
  - unfold fila, propietario_de. simpl.
    destruct (item_owners it) as [[|primero resto]|]; reflexivity.
Qed.

End WalkFacts.

(** ** The walk on the sample services *)

Section Testigos.
Import Drive Recorrido Servicios FechaISO.

Example recorrido_arbol :
  obtener_archivos_recursivamente arbol 2 "raiz" "Root"
  = Some (filas_arbol,
          [Listar (consulta "raiz") None; LogWarning "2024-01-02 03:04";
           Listar (consulta "id-sub") None; LogWarning "No disponible"]).
Proof. vm_compute. reflexivity. Qed.

Lemma Paginas_arbol_raiz : Paginas arbol (consulta "raiz") None [a_txt; sub].
Proof.
  exact (paginas_fin arbol (consulta "raiz") None
           {| files := Some [a_txt; sub]; nextPageToken := None |}
           eq_refl eq_refl).
Defined.

Lemma Paginas_arbol_sub : Paginas arbol (consulta "id-sub") None [b_txt].
Proof.
  exact (paginas_fin arbol (consulta "id-sub") None
           {| files := Some [b_txt]; nextPageToken := None |}
           eq_refl eq_refl).
Defined.

Lemma devuelve_arbol : devuelve arbol "raiz" "Root" filas_arbol.
Proof.
  exists 2. eexists. vm_compute. reflexivity.
Defined.

Lemma Listado_arbol_sub : Listado arbol "raiz" "Root" sub "Root".
Proof.
  apply listado_aqui with (items := [a_txt; sub]).
  - apply Paginas_Hijos, Paginas_arbol_raiz.
  - simpl. auto.
Defined.

Lemma Listado_arbol_b : Listado arbol "raiz" "Root" b_txt "Root/sub".
Proof.
  apply listado_dentro with (items := [a_txt; sub]) (c := sub).
  - apply Paginas_Hijos, Paginas_arbol_raiz.
  - simpl. auto.
  - reflexivity.
  - apply listado_aqui with (items := [b_txt]).
    + apply Paginas_Hijos, Paginas_arbol_sub.
    + simpl. auto.
Defined.

Lemma recorrido_preorden_witness :
  item_name a_txt = "a.txt" /\ es_carpeta a_txt = false /\
  item_name sub = "sub" /\ es_carpeta sub = true /\
  item_name b_txt = "b.txt" /\ es_carpeta b_txt = false /\
  Paginas arbol (consulta "raiz") None [a_txt; sub] /\
  Paginas arbol (consulta (item_id sub)) None [b_txt] /\
  exists rows,
    devuelve arbol "raiz" "Root" rows /\
    (forall rows', devuelve arbol "raiz" "Root" rows' -> rows' = rows) /\
    rows = [fila "Root" a_txt; fila "Root" sub; fila "Root/sub" b_txt] /\
    map (fun r => nth 0 r "") rows = ["Root"; "Root"; "Root/sub"] /\
    map (fun r => nth 1 r "") rows = ["a.txt"; "sub"; "b.txt"].
Proof.
  repeat (split; [reflexivity|]).
  split; [exact Paginas_arbol_raiz|]. split; [exact Paginas_arbol_sub|].
  exact (proj1 (recorrido_preorden arbol "raiz" a_txt sub b_txt
                  eq_refl eq_refl eq_refl eq_refl eq_refl eq_refl
                  Paginas_arbol_raiz Paginas_arbol_sub)).
Defined.

Lemma paginacion_transparente_witness :
  (forall q, Paginas (paginado 100 hijos_250) q None (hijos_250 q)) /\
  forall parent_id ruta rows,
    devuelve (paginado 100 hijos_250) parent_id ruta rows
    <-> devuelve (una_pagina hijos_250) parent_id ruta rows.
Proof.
  assert (H : forall q, Paginas (paginado 100 hijos_250) q None (hijos_250 q)).
  { intros q. apply paginado_Paginas. lia. }
  split; [exact H|].
  exact (paginacion_transparente (paginado 100 hijos_250) hijos_250 H).
Defined.

(** 250 entries in pages of 100: three calls, and the rows of one page of
    250. *)
Example paginas_de_100 :
  filas (obtener_archivos_recursivamente (paginado 100 hijos_250) 3 "raiz" "Root")
  = filas (obtener_archivos_recursivamente (una_pagina hijos_250) 1 "raiz" "Root")
  /\ option_map (fun x => List.length (fst x))
       (obtener_archivos_recursivamente (paginado 100 hijos_250) 3 "raiz" "Root")
     = Some 250
  /\ option_map (fun x => List.length (snd x))
       (obtener_archivos_recursivamente (paginado 100 hijos_250) 3 "raiz" "Root")
     = Some 3.
Proof. vm_compute. repeat split; reflexivity. Qed.

Lemma fallo_de_listado_tolerado_witness :
  arbol_con_fallo (consulta "raiz") (Some "p2") = Excepcion "HttpError 500" /\
  (forall fuel acc,
      bucle arbol_con_fallo (S fuel) "raiz" "Root" (Some "p2") acc
      = Some (acc, [Listar (consulta "raiz") (Some "p2");
                    LogError "raiz" "HttpError 500"])) /\
  (forall fuel tok0 res acc acc',
      arbol_con_fallo (consulta "raiz") tok0 = Respuesta res ->
      nextPageToken res = Some "p2" ->
      sin_token (Some "p2") = false ->
      filas (para_items (fun id r => bucle arbol_con_fallo (S fuel) id r None [])
                        "Root" (items_de res) acc) = Some acc' ->
      filas (bucle arbol_con_fallo (S (S fuel)) "raiz" "Root" tok0 acc) = Some acc') /\
  (forall fuel otro ruta',
      filas (obtener_archivos_recursivamente arbol_con_fallo fuel otro ruta')
      = filas (obtener_archivos_recursivamente (sin_fallos arbol_con_fallo)
                 fuel otro ruta')) /\
  (forall res rows,
      arbol_con_fallo (consulta "raiz") None = Respuesta res ->
      nextPageToken res = Some "p2" ->
      sin_token (Some "p2") = false ->
      (devuelve arbol_con_fallo "raiz" "Root" rows
       <-> PreordenItems arbol_con_fallo "Root" (items_de res) rows)) /\
  (forall padre ruta_p items1 c items2 e' rows,
      es_carpeta c = true ->
      arbol_con_fallo (consulta (item_id c)) None = Excepcion e' ->
      Hijos arbol_con_fallo (consulta padre) None (items1 ++ c :: items2) ->
      (devuelve arbol_con_fallo padre ruta_p rows
       <-> exists antes despues,
           rows = antes ++ fila ruta_p c :: despues /\
           PreordenItems arbol_con_fallo ruta_p items1 antes /\
           PreordenItems arbol_con_fallo ruta_p items2 despues)) /\
  (forall otro ruta' rows,
      devuelve arbol_con_fallo otro ruta' rows
      <-> Preorden arbol_con_fallo otro ruta' rows).
Proof.
  split; [reflexivity|].
  exact (fallo_de_listado_tolerado arbol_con_fallo "raiz" "Root" (Some "p2")
           "HttpError 500" eq_refl).
Defined.

(** The root's second page fails: the folder of the first page and what it
    holds are kept, and the walk returns. *)
Example recorrido_arbol_con_fallo :
  obtener_archivos_recursivamente arbol_con_fallo 3 "raiz" "Root"
  = Some ([["Root"; "sub"; "Carpeta"; "Desconocido"; "2024-01-02 03:04"];
           ["Root/sub"; "b.txt"; "Archivo"; "Desconocido"; "No disponible"]],
          [Listar (consulta "raiz") None; LogWarning "2024-01-02 03:04";
           Listar (consulta "id-sub") None; LogWarning "No disponible";
           Listar (consulta "raiz") (Some "p2");
           LogError "raiz" "HttpError 500"]).
Proof. vm_compute. reflexivity. Qed.

(** A subfolder that cannot be listed: its record is kept and the file
    listed after it is walked all the same. *)
Example recorrido_con_subcarpeta_caida :
  obtener_archivos_recursivamente ServiciosExtra.sub_caida 2 "raiz" "Root"
  = Some ([["Root"; "sub"; "Carpeta"; "Desconocido"; "2024-01-02 03:04"];
           ["Root"; "a.txt"; "Archivo"; "ana@example.org"; "02/01/2024 03:04:05"]],
          [Listar (consulta "raiz") None; LogWarning "2024-01-02 03:04";
           Listar (consulta "id-sub") None; LogError "id-sub" "HttpError 403"]).
Proof. vm_compute. reflexivity. Qed.

Lemma fecha_sin_formato_se_conserva_witness :
  item_createdTime sub = Some "2024-01-02 03:04" /\
  strptime "2024-01-02 03:04" FORMATO_ORIGEN = None /\
  formatear_fecha "2024-01-02 03:04"
    = Some ("2024-01-02 03:04", [LogWarning "2024-01-02 03:04"]) /\
  fila "Root" sub
    = ["Root"; item_name sub; tipo_de sub; propietario_de sub; "2024-01-02 03:04"] /\
  (forall rec resto acc,
      filas (para_items rec "Root" (sub :: resto) acc)
      = let registro := ["Root"; item_name sub; tipo_de sub; propietario_de sub;
                         "2024-01-02 03:04"] in
        if es_carpeta sub then
          match filas (rec (item_id sub) ("Root" ++ "/" ++ item_name sub)%string) with
          | Some dentro =>
              filas (para_items rec "Root" resto ((acc ++ [registro]) ++ dentro))
          | None => None
          end
        else filas (para_items rec "Root" resto (acc ++ [registro]))) /\
  (Listado arbol "raiz" "Root" sub "Root" ->
   forall rows, devuelve arbol "raiz" "Root" rows ->
                In ["Root"; item_name sub; tipo_de sub; propietario_de sub;
                    "2024-01-02 03:04"] rows) /\
  (forall it' s' fecha_obj,
      item_createdTime it' = Some s' ->
      strptime s' FORMATO_ORIGEN = Some fecha_obj ->
      formatear_fecha s' = Some (strftime fecha_obj FORMATO_SALIDA, []) /\
      fila "Root" it' = ["Root"; item_name it'; tipo_de it'; propietario_de it';
                         strftime fecha_obj FORMATO_SALIDA]).
Proof.
  split; [reflexivity|]. split; [reflexivity|].
  exact (fecha_sin_formato_se_conserva arbol "raiz" "Root" sub "Root"
           "2024-01-02 03:04" eq_refl eq_refl).
Defined.

Lemma propietario_del_registro_witness :
  Listado arbol "raiz" "Root" b_txt "Root/sub" /\
  devuelve arbol "raiz" "Root" filas_arbol /\
  exists reg,
    In reg filas_arbol /\ reg = fila "Root/sub" b_txt /\
    nth 3 reg "" = match item_owners b_txt with
                   | Some (primero :: _) => emailAddress primero
                   | Some [] => "Desconocido"
                   | None => "Desconocido"
                   end.
Proof.
  split; [exact Listado_arbol_b|]. split; [exact devuelve_arbol|].
  exact (propietario_del_registro arbol "raiz" "Root" b_txt "Root/sub"
           filas_arbol Listado_arbol_b devuelve_arbol).
Defined.

(** C8, as the claim words it, fails: the entries "sub" (no owner list) and
    "b.txt" (empty owner list) of [arbol] are listed, the walk returns their
    records, and the owner field of both is "Desconocido", not "Unknown". *)
Lemma propietario_unknown_contraejemplo :
  item_owners sub = None /\ item_owners b_txt = Some [] /\
  filas (obtener_archivos_recursivamente arbol 2 "raiz" "Root")
    = Some filas_arbol /\
  map (fun r => nth 3 r "") filas_arbol
    = ["ana@example.org"; "Desconocido"; "Desconocido"] /\
  ~ (forall it : item,
        propietario_de it = match item_owners it with
                            | Some (primero :: _) => emailAddress primero
                            | Some [] => "Unknown"
                            | None => "Unknown"
                            end).
Proof.
  repeat (split; [reflexivity|]).
  intros H. specialize (H b_txt). discriminate H.
Qed.

End Testigos.

(** ** More on the differ and on the keying loops *)

Section DifferMore.
Import PyDict Snapshot Inventario.

Lemma ausentes_nil (otro d : snapshot) :
  ausentes otro d = [] <-> forall k, contains d k = true -> contains otro k = true.
Proof.
  unfold ausentes. induction d as [|[k r] t IH]; simpl.
  - split; [discriminate | reflexivity].
  - destruct (contains otro k) eqn:Ek; simpl.
    + rewrite IH. split; intros H k'.
      * destruct (String.eqb k k') eqn:E; [|apply H].
        apply String.eqb_eq in E. subst. auto.
      * intros Hk'. apply H. now destruct (String.eqb k k').
    + split; [discriminate|]. intros H.
      specialize (H k). rewrite String.eqb_refl, Ek in H.
      specialize (H eq_refl). discriminate.
Qed.

Lemma ausentes_mismo (d : snapshot) : ausentes d d = [].
Proof. apply ausentes_nil. auto. Qed.

Lemma ausentes_empty (d : snapshot) : ausentes empty d = d.
Proof.
  unfold ausentes. induction d as [|kv t IH]; simpl; [reflexivity|].
  f_equal. exact IH.
Qed.

(** X1. The differ reports nothing exactly when the two dictionaries have the
    same keys; in particular it reports nothing on a dictionary and
    itself. *)
Theorem comparar_snapshot_sin_cambios (snapshot_actual snapshot_nuevo : snapshot) :
  (comparar_snapshot snapshot_actual snapshot_nuevo = ([], [])
   <-> forall k, contains snapshot_actual k = contains snapshot_nuevo k) /\
  comparar_snapshot snapshot_actual snapshot_actual = ([], []).
Proof.
  split.
  - rewrite comparar_snapshot_ausentes. split.
    + intros H. injection H as Hn He.
      apply map_eq_nil in Hn, He. rewrite ausentes_nil in Hn, He.
      intros k. destruct (contains snapshot_actual k) eqn:Ea,
                         (contains snapshot_nuevo k) eqn:En; auto.
      * rewrite (He k Ea) in En. discriminate.
      * rewrite (Hn k En) in Ea. discriminate.
    + intros H.
      assert (Hn : ausentes snapshot_actual snapshot_nuevo = []).
      { apply ausentes_nil. intros k Hk. now rewrite H. }
      assert (He : ausentes snapshot_nuevo snapshot_actual = []).
      { apply ausentes_nil. intros k Hk. now rewrite <- H. }
      now rewrite Hn, He.
  - rewrite comparar_snapshot_ausentes, ausentes_mismo. reflexivity.
Qed.

(** X2. Against an empty dictionary everything is new, and against an empty
    inventory everything is removed, in the order of the dictionary. *)
Theorem comparar_snapshot_vacio (d : snapshot) :
  comparar_snapshot empty d = (map snd d, []) /\
  comparar_snapshot d empty = ([], map snd d).
Proof.
  rewrite !comparar_snapshot_ausentes, ausentes_empty.
  split; reflexivity.
Qed.

Lemma length_comunes (a b : snapshot) :
  wf a -> wf b ->
  List.length (filter (fun kv => contains b (fst kv)) a)
  = List.length (filter (fun kv => contains a (fst kv)) b).
Proof.
  intros Ha Hb.
  assert (Hk : forall (x y : snapshot),
             wf x -> wf y ->
             List.length (filter (fun kv => contains y (fst kv)) x)
             <= List.length (filter (fun kv => contains x (fst kv)) y)).
  { intros x y Hx Hy.
    rewrite <- (length_map fst (filter _ x)), <- (length_map fst (filter _ y)).
    apply NoDup_incl_length.
    - now apply NoDup_keys_filter.
    - intros k Hin. apply in_map_iff in Hin.
      destruct Hin as [[k' r] [Hk' Hin]]. simpl in Hk'. subst k'.
      apply filter_In in Hin. destruct Hin as [Hin Hc]. simpl in Hc.
      apply contains_In in Hc. apply in_map_iff in Hc.
      destruct Hc as [[k' r'] [Hk' Hin']]. simpl in Hk'. subst k'.
      apply in_map_iff. exists (k, r'). split; [reflexivity|].
      apply filter_In. split; [exact Hin'|]. simpl.
      apply contains_In. apply in_map_iff. now exists (k, r). }
  apply Nat.le_antisymm; now apply Hk.
Qed.

Lemma length_filter_negb {A : Type} (f : A -> bool) (l : list A) :
  List.length (filter f l) + List.length (filter (fun x => negb (f x)) l)
  = List.length l.
Proof.
  induction l as [|a t IH]; simpl; [reflexivity|].
  destruct (f a); simpl; lia.
Qed.

(** X3. The sizes balance: what the previous dictionary holds plus what is new
    is what the current one holds plus what was removed. *)
Theorem comparar_snapshot_balance (previous current : snapshot) :
  wf previous -> wf current ->
  List.length previous + List.length (fst (comparar_snapshot previous current))
  = List.length current + List.length (snd (comparar_snapshot previous current)).
Proof.
  intros Hp Hc. rewrite comparar_snapshot_ausentes. simpl.
  rewrite !length_map. unfold ausentes.
  pose proof (length_filter_negb (fun kv => contains previous (fst kv)) current).
  pose proof (length_filter_negb (fun kv => contains current (fst kv)) previous).
  pose proof (length_comunes previous current Hp Hc).
  lia.
Qed.

Lemma comparar_snapshot_balance_witness :
  wf Ejemplos.previo /\ wf Ejemplos.actual /\
  List.length Ejemplos.previo
  + List.length (fst (comparar_snapshot Ejemplos.previo Ejemplos.actual))
  = List.length Ejemplos.actual
    + List.length (snd (comparar_snapshot Ejemplos.previo Ejemplos.actual)).
Proof.
  assert (Hp : wf Ejemplos.previo).
  { unfold wf; simpl. repeat constructor; simpl; intuition discriminate. }
  assert (Hc : wf Ejemplos.actual).
  { unfold wf; simpl. repeat constructor; simpl; intuition discriminate. }
  split; [exact Hp|]. split; [exact Hc|].
  exact (comparar_snapshot_balance Ejemplos.previo Ejemplos.actual Hp Hc).
Defined.

End DifferMore.

Section KeyingMore.
Import PyDict Snapshot Inventario.

Lemma clave_None (r : row) : clave r = None <-> List.length r < 2.
Proof.
  destruct r as [|a [|b t]]; unfold clave; simpl; split; intros H;
    try reflexivity; try discriminate; lia.
Qed.

Lemma indexar_None (rows : list row) (d0 : snapshot) :
  para_cada rows d0 cuerpo_indexar = None
  <-> Exists (fun r => List.length r < 2) rows.
Proof.
  revert d0. induction rows as [|r t IH]; intros d0; simpl.
  - split; [discriminate | intros H; inversion H].
  - unfold cuerpo_indexar at 1. destruct (clave r) as [k|] eqn:Ek.
    + rewrite IH. split; [now right|].
      intros H. inversion H as [? ? Hr|? ? Ht]; subst; [|exact Ht].
      apply clave_None in Hr. congruence.
    + split; [|reflexivity]. intros _. left. now apply clave_None.
Qed.

(** X4. Reading a sheet raises an [IndexError] exactly when the sheet has at
    least two rows and a row after the first has fewer than two cells; a
    sheet with fewer than two rows reads as the empty dictionary, and the
    first row is never looked at. The keying of the inventory in [main]
    raises exactly when a record has fewer than two cells. *)
Theorem obtener_snapshot_errores :
  (forall data, List.length data < 2 -> obtener_snapshot data = Some empty) /\
  (forall header rows,
      rows <> [] ->
      (obtener_snapshot (header :: rows) = None
       <-> Exists (fun r => List.length r < 2) rows)) /\
  (forall header header' rows,
      obtener_snapshot (header :: rows) = obtener_snapshot (header' :: rows)) /\
  (forall datos,
      snapshot_nuevo_de datos = None
      <-> Exists (fun r => List.length r < 2) datos).
Proof.
  split; [|split; [|split]].
  - intros data H. unfold obtener_snapshot, get_all_values.
    apply Nat.ltb_lt in H. now rewrite H.
  - intros header rows Hne. rewrite obtener_snapshot_indexar by exact Hne.
    apply indexar_None.
  - intros header header' rows. destruct rows as [|r t]; [reflexivity|].
    rewrite !obtener_snapshot_indexar by discriminate. reflexivity.
  - intros datos. rewrite snapshot_nuevo_de_indexar. apply indexar_None.
Qed.

Lemma set_nuevo (d : snapshot) (k : string) (r : row) :
  contains d k = false -> set d k r = d ++ [(k, r)].
Proof.
  induction d as [|[k' r'] t IH]; simpl; [reflexivity|].
  destruct (String.eqb k' k); [discriminate|].
  intros H. now rewrite IH.
Qed.

Lemma contains_app (a b : snapshot) (k : string) :
  contains (a ++ b) k = contains a k || contains b k.
Proof.
  induction a as [|[k' r'] t IH]; simpl; [reflexivity|].
  destruct (String.eqb k' k); [reflexivity | exact IH].
Qed.

Lemma indexar_distintas (datos : list row) :
  forall (ks : list string) (d0 : snapshot),
    map clave datos = map Some ks ->
    NoDup ks ->
    (forall k, In k ks -> contains d0 k = false) ->
    para_cada datos d0 cuerpo_indexar = Some (d0 ++ por_clave ks datos).
Proof.
  unfold por_clave.
  induction datos as [|r t IH]; intros ks d0 Hks Hnd Hd0.
  - destruct ks; [|discriminate]. simpl. now rewrite app_nil_r.
  - destruct ks as [|k ks']; [discriminate|]. simpl in Hks.
    injection Hks as Hk Hks'. simpl. unfold cuerpo_indexar at 1. rewrite Hk.
    rewrite set_nuevo by (apply Hd0; now left).
    inversion Hnd as [|? ? Hnotin Hnd']; subst.
    rewrite (IH ks' (d0 ++ [(k, r)]) Hks' Hnd').
    + now rewrite <- app_assoc.
    + intros k' Hin. rewrite contains_app, (Hd0 k') by now right.
      simpl. destruct (String.eqb k k') eqn:E; [|reflexivity].
      apply String.eqb_eq in E. subst. contradiction.
Qed.

Lemma ausentes_por_clave (previous : snapshot) (datos : list row) :
  forall ks,
    map clave datos = map Some ks ->
    map snd (ausentes previous (por_clave ks datos))
    = filter (fun r => negb (conocido previous r)) datos.
Proof.
  unfold por_clave, ausentes.
  induction datos as [|r t IH]; intros ks Hks.
  - destruct ks; reflexivity.
  - destruct ks as [|k ks']; [discriminate|]. simpl in Hks.
    injection Hks as Hk Hks'. simpl. unfold conocido at 1. rewrite Hk.
    destruct (contains previous k); simpl; [|f_equal]; now apply IH.
Qed.

(** X5. When the records of the inventory derive pairwise different keys, the
    keying loop of [main] loses none: the dictionary pairs each record with
    its key, in inventory order, and the differ then reports as new exactly
    the records whose key the previous dictionary lacks, in inventory
    order. *)
Theorem inventario_sin_colisiones (datos : list row) (ks : list string)
  (previous : snapshot) :
  map clave datos = map Some ks ->
  NoDup ks ->
  snapshot_nuevo_de datos = Some (por_clave ks datos) /\
  List.length (por_clave ks datos) = List.length datos /\
  fst (comparar_snapshot previous (por_clave ks datos))
  = filter (fun r => negb (conocido previous r)) datos.
Proof.
  intros Hks Hnd. split; [|split].
  - rewrite snapshot_nuevo_de_indexar.
    exact (indexar_distintas datos ks empty Hks Hnd (fun k _ => eq_refl)).
  - unfold por_clave. rewrite length_combine.
    apply (f_equal (@List.length _)) in Hks. rewrite !length_map in Hks. lia.
  - rewrite comparar_snapshot_ausentes. simpl.
    now apply ausentes_por_clave.
Qed.

Lemma inventario_sin_colisiones_witness :
  map clave Ejemplos.inventario = map Some ["R_a"; "R_s"; "R/s_a"] /\
  NoDup ["R_a"; "R_s"; "R/s_a"] /\
  snapshot_nuevo_de Ejemplos.inventario
  = Some (por_clave ["R_a"; "R_s"; "R/s_a"] Ejemplos.inventario) /\
  List.length (por_clave ["R_a"; "R_s"; "R/s_a"] Ejemplos.inventario)
  = List.length Ejemplos.inventario /\
  fst (comparar_snapshot Ejemplos.previo
         (por_clave ["R_a"; "R_s"; "R/s_a"] Ejemplos.inventario))
  = filter (fun r => negb (conocido Ejemplos.previo r)) Ejemplos.inventario.
Proof.
  assert (H1 : map clave Ejemplos.inventario = map Some ["R_a"; "R_s"; "R/s_a"])
    by reflexivity.
  assert (H2 : NoDup ["R_a"; "R_s"; "R/s_a"]).
  { repeat constructor; simpl; intuition discriminate. }
  split; [exact H1|]. split; [exact H2|].
  exact (inventario_sin_colisiones Ejemplos.inventario ["R_a"; "R_s"; "R/s_a"]
           Ejemplos.previo H1 H2).
Defined.

End KeyingMore.

(** ** More on the walk *)

Section WalkMore.
Import Drive Recorrido.
Context {DT : DateTime}.

Implicit Types (svc : servicio) (it : item) (items : list item).
Implicit Types (rows : list row).

(** Every record of a flattening is the record of an entry the walk
    meets. *)
Lemma Preorden_Listado svc :
  forall parent_id ruta rows,
    Preorden svc parent_id ruta rows ->
    forall reg, In reg rows ->
                exists it r, Listado svc parent_id ruta it r /\ reg = fila r it.
Proof.
  apply (Preorden_mut DT svc
    (fun parent_id ruta rows =>
       forall reg, In reg rows ->
                   exists it r, Listado svc parent_id ruta it r /\ reg = fila r it)
    (fun ruta items rows =>
       forall reg, In reg rows ->
         (exists it, In it items /\ reg = fila ruta it) \/
         (exists c it r,
             In c items /\ es_carpeta c = true /\
             Listado svc (item_id c) (ruta ++ "/" ++ item_name c)%string it r /\
             reg = fila r it))).
  - intros parent_id ruta items rows Hh _ HQ reg Hin.
    destruct (HQ reg Hin) as [(it & Hit & ->)|(c & it & r & Hc & Hcc & Hl & ->)].
    + exists it, ruta. split; [|reflexivity]. eapply listado_aqui; eauto.
    + exists it, r. split; [|reflexivity]. eapply listado_dentro; eauto.
  - intros ruta reg [].
  - intros ruta it resto rows Hc _ HQ reg [<-|Hin].
    + left. exists it. split; [now left | reflexivity].
    + destruct (HQ reg Hin) as [(it' & Hit & ->)|(c & it' & r & Hc' & Hcc & Hl & ->)].
      * left. exists it'. split; [now right | reflexivity].
      * right. exists c, it', r. repeat split; auto. now right.
  - intros ruta it resto sub rows Hc _ HP _ HQ reg [<-|Hin].
    + left. exists it. split; [now left | reflexivity].
    + apply in_app_or in Hin. destruct Hin as [Hin|Hin].
      * destruct (HP reg Hin) as (it' & r & Hl & ->).
        right. exists it, it', r. repeat split; auto. now left.
      * destruct (HQ reg Hin) as [(it' & Hit & ->)|(c & it' & r & Hc' & Hcc & Hl & ->)].
        -- left. exists it'. split; [now right | reflexivity].
        -- right. exists c, it', r. repeat split; auto. now right.
Qed.

(** X6. The walk invents nothing: every record it returns is the record of an
    entry that some listing delivered, under the location of the container
    that listed it. *)
Theorem registro_de_un_listado svc (parent_id ruta : string) rows :
  devuelve svc parent_id ruta rows ->
  forall reg, In reg rows ->
    exists it r, Listado svc parent_id ruta it r /\
                 reg = [r; item_name it; tipo_de it; propietario_de it;
                        fecha_mostrada (fecha_subida_de it)].
Proof.
  intros Hd reg Hin. apply devuelve_Preorden in Hd.
  exact (Preorden_Listado svc _ _ _ Hd reg Hin).
Qed.

Lemma append_assoc_string (a b c : string) :
  ((a ++ b) ++ c = a ++ (b ++ c))%string.
Proof. induction a as [|x a IH]; simpl; [reflexivity | now rewrite IH]. Qed.

Lemma prefix_append (a b : string) : String.prefix a (a ++ b) = true.
Proof.
  induction a as [|x a IH]; simpl; [now destruct b|].
  destruct (Ascii.ascii_dec x x); [exact IH | contradiction].
Qed.

Lemma Listado_ruta svc parent_id ruta it r :
  Listado svc parent_id ruta it r ->
  r = ruta \/ exists resto, r = (ruta ++ "/" ++ resto)%string.
Proof.
  induction 1 as [parent_id ruta items it Hh Hin
                 | parent_id ruta items c it r Hh Hin Hc Hl IH];
    [now left|].
  right. destruct IH as [->|[resto ->]].
  - now exists (item_name c).
  - exists (item_name c ++ "/" ++ resto)%string.
    now rewrite !append_assoc_string.
Qed.

Lemma registros_forma svc (parent_id ruta : string) rows :
  devuelve svc parent_id ruta rows ->
  Forall (fun reg =>
            List.length reg = 5 /\
            (nth 2 reg "" = "Carpeta" \/ nth 2 reg "" = "Archivo") /\
            (nth 0 reg "" = ruta \/
             exists resto, nth 0 reg "" = (ruta ++ "/" ++ resto)%string) /\
            String.prefix ruta (nth 0 reg "") = true) rows /\
  exists d, Snapshot.snapshot_nuevo_de rows = Some d /\ PyDict.wf d.
Proof.
  intros Hd.
  assert (HF : Forall (fun reg =>
            List.length reg = 5 /\
            (nth 2 reg "" = "Carpeta" \/ nth 2 reg "" = "Archivo") /\
            (nth 0 reg "" = ruta \/
             exists resto, nth 0 reg "" = (ruta ++ "/" ++ resto)%string) /\
            String.prefix ruta (nth 0 reg "") = true) rows).
  { apply Forall_forall. intros reg Hin.
    destruct (Preorden_Listado svc _ _ _ (proj1 (devuelve_Preorden _ _ _ _) Hd) reg Hin)
      as (it & r & Hl & ->).
    split; [reflexivity|]. split; [|split].
    - simpl. unfold tipo_de.
      destruct (String.eqb (item_mimeType it) MIME_CARPETA); auto.
    - simpl. exact (Listado_ruta _ _ _ _ _ Hl).
    - simpl. destruct (Listado_ruta _ _ _ _ _ Hl) as [->|[resto ->]].
      + rewrite <- (prefix_append ruta "") at 1.
        f_equal. clear. induction ruta as [|x a IH]; simpl; congruence.
      + apply prefix_append. }
  split; [exact HF|].
  assert (H2 : Forall (fun r => 2 <= List.length r) rows).
  { eapply Forall_impl; [|exact HF]. simpl. intros r (Hr & _). lia. }
  destruct (indexar_total rows PyDict.empty H2) as [d Hdict].
  exists d. rewrite snapshot_nuevo_de_indexar. split; [exact Hdict|].
  exact (indexar_wf rows PyDict.empty d wf_empty Hdict).
Qed.

(** X7. Every record the walk returns has five cells, is a "Carpeta" or an
    "Archivo", and lies at the label the walk was started with or below it.
    So the keying loop of [main] never raises on what the walk returns. *)
Theorem registros_bien_formados svc (parent_id ruta : string) rows :
  devuelve svc parent_id ruta rows ->
  Forall (fun reg =>
            List.length reg = 5 /\
            (nth 2 reg "" = "Carpeta" \/ nth 2 reg "" = "Archivo") /\
            (nth 0 reg "" = ruta \/
             exists resto, nth 0 reg "" = (ruta ++ "/" ++ resto)%string) /\
            String.prefix ruta (nth 0 reg "") = true) rows /\
  exists d, Snapshot.snapshot_nuevo_de rows = Some d /\ PyDict.wf d.
Proof. apply registros_forma. Qed.

(** X8. A container whose every page announces a next page is never left: the
    walk does not return, however much fuel it is given. *)
Theorem fichas_sin_fin svc (parent_id : string) :
  (forall tok, exists res,
      svc (consulta parent_id) tok = Respuesta res /\
      sin_token (nextPageToken res) = false) ->
  forall fuel ruta tok acc,
    bucle svc fuel parent_id ruta tok acc = None.
Proof.
  intros Hsvc fuel ruta tok acc.
  assert (H : filas (bucle svc fuel parent_id ruta tok acc) = None).
  { revert tok acc. induction fuel as [|fuel IH]; intros tok acc; [reflexivity|].
    rewrite filas_bucle_S. destruct (Hsvc tok) as (res & -> & Hsin).
    destruct (filas (para_items _ _ _ _)); [|reflexivity].
    rewrite Hsin. apply IH. }
  destruct (bucle svc fuel parent_id ruta tok acc); [discriminate | reflexivity].
Qed.

End WalkMore.

Section TestigosMore.
Import Drive Recorrido Servicios ServiciosExtra FechaISO.

Lemma registro_de_un_listado_witness :
  devuelve arbol "raiz" "Root" filas_arbol /\
  forall reg, In reg filas_arbol ->
    exists it r, Listado arbol "raiz" "Root" it r /\
                 reg = [r; item_name it; tipo_de it; propietario_de it;
                        fecha_mostrada (fecha_subida_de it)].
Proof.
  split; [exact devuelve_arbol|].
  exact (registro_de_un_listado arbol "raiz" "Root" filas_arbol devuelve_arbol).
Defined.

Lemma registros_bien_formados_witness :
  devuelve arbol "raiz" "Root" filas_arbol /\
  Forall (fun reg =>
            List.length reg = 5 /\
            (nth 2 reg "" = "Carpeta" \/ nth 2 reg "" = "Archivo") /\
            (nth 0 reg "" = "Root" \/
             exists resto, nth 0 reg "" = ("Root" ++ "/" ++ resto)%string) /\
            String.prefix "Root" (nth 0 reg "") = true) filas_arbol /\
  exists d, Snapshot.snapshot_nuevo_de filas_arbol = Some d /\ PyDict.wf d.
Proof.
  split; [exact devuelve_arbol|].
  exact (registros_bien_formados arbol "raiz" "Root" filas_arbol devuelve_arbol).
Defined.

Lemma fichas_sin_fin_witness :
  (forall tok, exists res,
      sin_fin (consulta "raiz") tok = Respuesta res /\
      sin_token (nextPageToken res) = false) /\
  forall fuel ruta tok acc, bucle sin_fin fuel "raiz" ruta tok acc = None.
Proof.
  assert (H : forall tok, exists res,
               sin_fin (consulta "raiz") tok = Respuesta res /\
               sin_token (nextPageToken res) = false).
  { intros tok. eexists. split; reflexivity. }
  split; [exact H|].
  exact (fichas_sin_fin sin_fin "raiz" H).
Defined.

End TestigosMore.

(** ** Inserting in batches *)

Section BatchFacts.
Import Snapshot Lotes.

Lemma firstn_suma {A : Type} (a b : nat) (l : list A) :
  firstn (a + b) l = firstn a l ++ firstn b (skipn a l).
Proof.
  revert l. induction a as [|a IH]; intros l; [reflexivity|].
  destruct l as [|x t]; simpl.
  - now rewrite firstn_nil.
  - now rewrite IH.
Qed.

Lemma techo_lt (total p k : nat) :
  0 < p -> k < (total + p - 1) / p -> k * p < total.
Proof.
  intros Hp Hk.
  pose proof (Nat.div_mod_eq (total + p - 1) p) as E.
  pose proof (Nat.mod_upper_bound (total + p - 1) p ltac:(lia)) as Hr.
  nia.
Qed.

Lemma techo_ge (total p : nat) :
  0 < p -> total <= (total + p - 1) / p * p.
Proof.
  intros Hp.
  pose proof (Nat.div_mod_eq (total + p - 1) p) as E.
  pose proof (Nat.mod_upper_bound (total + p - 1) p ltac:(lia)) as Hr.
  nia.
Qed.

Lemma rango_positivo (total : nat) (batch_size : Z) :
  (0 < batch_size)%Z ->
  rango total batch_size
  = Some (map (fun k => k * Z.to_nat batch_size)
              (seq 0 ((total + Z.to_nat batch_size - 1) / Z.to_nat batch_size))).
Proof.
  intros H. unfold rango.
  destruct (Z.eqb_spec batch_size 0); [lia|].
  destruct (Z.ltb_spec batch_size 0); [lia | reflexivity].
Qed.

Lemma intentos_app (a b : list suceso) :
  intentos (a ++ b) = intentos a + intentos b.
Proof.
  induction a as [|[| |] t IH]; simpl; auto.
Qed.

Lemma Subsecuencia_nil {A : Type} (l : list A) : Subsecuencia [] l.
Proof. induction l; constructor; auto. Qed.

Lemma Subsecuencia_refl {A : Type} (l : list A) : Subsecuencia l l.
Proof. induction l; constructor; auto. Qed.

Lemma Subsecuencia_app {A : Type} (s1 l1 s2 l2 : list A) :
  Subsecuencia s1 l1 -> Subsecuencia s2 l2 ->
  Subsecuencia (s1 ++ s2) (l1 ++ l2).
Proof.
  intros H1 H2. induction H1; simpl; [exact H2 | |]; constructor; auto.
Qed.

Section UnaHoja.
Variable api : hoja -> list row -> option hoja.
Variable datos : list row.
Variable p : nat.

Lemma lotes_subsecuencia :
  (forall h l, api h l = None \/ api h l = Some (h ++ l)) ->
  forall n j sheet0 suc0,
  exists sub suc,
    fold_left (paso_lote api datos p) (map (fun k => k * p) (seq j n)) (sheet0, suc0)
    = (sheet0 ++ sub, suc0 ++ suc) /\
    Subsecuencia sub (firstn (n * p) (skipn (j * p) datos)) /\
    intentos suc = n.
Proof.
  intros Hapi. induction n as [|n IH]; intros j sheet0 suc0.
  - exists [], []. simpl. rewrite !app_nil_r. repeat split. constructor.
  - cbn [seq map fold_left]. unfold paso_lote at 2.
    assert (Hcorte : firstn (S n * p) (skipn (j * p) datos)
                     = firstn p (skipn (j * p) datos)
                       ++ firstn (n * p) (skipn (S j * p) datos)).
    { change (S n * p) with (p + n * p). rewrite firstn_suma, skipn_skipn.
      reflexivity. }
    destruct (Hapi sheet0 (firstn p (skipn (j * p) datos))) as [E|E]; rewrite E.
    + destruct (IH (S j) sheet0 (suc0 ++ [ErrorLote])) as (sub & suc & Hf & Hs & Hi).
      exists sub, (ErrorLote :: suc). split; [|split].
      * rewrite Hf, <- app_assoc. reflexivity.
      * rewrite Hcorte. rewrite <- (app_nil_l sub).
        apply Subsecuencia_app; [apply Subsecuencia_nil | exact Hs].
      * simpl. now rewrite Hi.
    + destruct (IH (S j) (sheet0 ++ firstn p (skipn (j * p) datos))
                  (suc0 ++ [InfoLote (j * p + 1)
                              (j * p + List.length (firstn p (skipn (j * p) datos)));
                            Pausa]))
        as (sub & suc & Hf & Hs & Hi).
      exists (firstn p (skipn (j * p) datos) ++ sub),
             (InfoLote (j * p + 1)
                (j * p + List.length (firstn p (skipn (j * p) datos)))
                :: Pausa :: suc).
      split; [|split].
      * rewrite Hf, <- !app_assoc. reflexivity.
      * rewrite Hcorte.
        apply Subsecuencia_app; [apply Subsecuencia_refl | exact Hs].
      * simpl. now rewrite Hi.
Qed.

Lemma lotes_fieles :
  (forall h l, api h l = Some (h ++ l)) ->
  0 < p ->
  forall n j sheet0 suc0,
    j + n = (List.length datos + p - 1) / p ->
    exists suc,
      fold_left (paso_lote api datos p) (map (fun k => k * p) (seq j n)) (sheet0, suc0)
      = (sheet0 ++ firstn (n * p) (skipn (j * p) datos), suc0 ++ suc) /\
      cubren (Nat.min (j * p) (List.length datos) + 1) (rangos suc)
             (List.length datos) /\
      Forall (fun ab => snd ab < fst ab + p) (rangos suc) /\
      ~ In ErrorLote suc.
Proof.
  intros Hapi Hp. induction n as [|n IH]; intros j sheet0 suc0 Hj.
  - exists []. simpl. rewrite !app_nil_r. repeat split; auto.
    pose proof (techo_ge (List.length datos) p Hp).
    rewrite Nat.add_0_r in Hj. subst j. lia.
  - cbn [seq map fold_left]. unfold paso_lote at 2. rewrite Hapi.
    assert (Hk : j * p < List.length datos).
    { apply techo_lt; [exact Hp | lia]. }
    assert (Hlen : List.length (firstn p (skipn (j * p) datos))
                   = Nat.min p (List.length datos - j * p)).
    { now rewrite length_firstn, length_skipn. }
    destruct (IH (S j) (sheet0 ++ firstn p (skipn (j * p) datos))
                (suc0 ++ [InfoLote (j * p + 1)
                            (j * p + List.length (firstn p (skipn (j * p) datos)));
                          Pausa]) ltac:(lia))
      as (suc & Hf & Hc & Hr & He).
    exists (InfoLote (j * p + 1)
              (j * p + List.length (firstn p (skipn (j * p) datos)))
              :: Pausa :: suc).
    split; [|split; [|split]].
    + rewrite Hf, <- !app_assoc. change (S n * p) with (p + n * p).
      rewrite firstn_suma, skipn_skipn. reflexivity.
    + simpl. split; [lia|]. split; [lia|].
      replace (S (j * p + List.length (firstn p (skipn (j * p) datos))))
        with (Nat.min (S j * p) (List.length datos) + 1); [exact Hc|].
      rewrite Hlen. simpl. lia.
    + simpl. constructor; [|exact Hr]. simpl. rewrite Hlen. lia.
    + simpl. intros [H|[H|H]]; try discriminate. contradiction.
Qed.

End UnaHoja.

(** X9. With a positive batch size and an [append_rows] that does not fail,
    batching does not show: the sheet ends with the rows of [datos] added in
    order, the batches reported in the log follow one another from row 1 to
    the last row, none has more than [batch_size] rows, and none fails. *)
Theorem insertar_todo (sheet : hoja) (datos : list row) (batch_size : Z) :
  (0 < batch_size)%Z ->
  exists sucesos,
    insertar_datos_en_sheets append_rows_fiel sheet datos batch_size
    = Some (sheet ++ datos, sucesos) /\
    cubren 1 (rangos sucesos) (List.length datos) /\
    Forall (fun ab => snd ab < fst ab + Z.to_nat batch_size) (rangos sucesos) /\
    ~ In ErrorLote sucesos.
Proof.
  intros Hb. unfold insertar_datos_en_sheets.
  rewrite (rango_positivo _ _ Hb).
  assert (Hp : 0 < Z.to_nat batch_size) by lia.
  destruct (lotes_fieles append_rows_fiel datos (Z.to_nat batch_size)
              (fun h l => eq_refl) Hp
              ((List.length datos + Z.to_nat batch_size - 1) / Z.to_nat batch_size)
              0 sheet [] eq_refl)
    as (suc & Hf & Hc & Hr & He).
  cbn [Nat.mul skipn app] in Hf.
  rewrite firstn_all2 in Hf by (apply techo_ge; exact Hp).
  exists suc. split; [|split; [exact Hc | split; [exact Hr | exact He]]].
  f_equal. exact Hf.
Qed.

(** X10. A batch that fails is skipped and the batches after it are still
    tried: with a positive batch size, whatever calls fail, the number of
    batches tried is the number of batches there are, and the rows added to
    the sheet are rows of [datos], in order, with those of the failed
    batches left out. *)
Theorem insertar_con_fallos (api : hoja -> list row -> option hoja)
  (sheet : hoja) (datos : list row) (batch_size : Z) :
  (forall h l, api h l = None \/ api h l = Some (h ++ l)) ->
  (0 < batch_size)%Z ->
  exists escritas sucesos,
    insertar_datos_en_sheets api sheet datos batch_size
    = Some (sheet ++ escritas, sucesos) /\
    Subsecuencia escritas datos /\
    intentos sucesos
    = (List.length datos + Z.to_nat batch_size - 1) / Z.to_nat batch_size.
Proof.
  intros Hapi Hb. unfold insertar_datos_en_sheets.
  rewrite (rango_positivo _ _ Hb).
  assert (Hp : 0 < Z.to_nat batch_size) by lia.
  destruct (lotes_subsecuencia api datos (Z.to_nat batch_size) Hapi
              ((List.length datos + Z.to_nat batch_size - 1) / Z.to_nat batch_size)
              0 sheet [])
    as (sub & suc & Hf & Hs & Hi).
  cbn [Nat.mul skipn app] in Hf, Hs.
  rewrite firstn_all2 in Hs by (apply techo_ge; exact Hp).
  exists sub, suc. split; [|split; [exact Hs | exact Hi]].
  f_equal. exact Hf.
Qed.

(** X11. A batch size of zero raises before anything is written, even for an
    empty [datos]; a negative one writes nothing, logs nothing and raises
    nothing. *)
Theorem insertar_sin_lotes (api : hoja -> list row -> option hoja)
  (sheet : hoja) (datos : list row) :
  insertar_datos_en_sheets api sheet datos 0 = None /\
  forall batch_size,
    (batch_size < 0)%Z ->
    insertar_datos_en_sheets api sheet datos batch_size = Some (sheet, []).
Proof.
  split; [reflexivity|].
  intros batch_size H. unfold insertar_datos_en_sheets, rango.
  destruct (Z.eqb_spec batch_size 0); [lia|].
  destruct (Z.ltb_spec batch_size 0); [reflexivity | lia].
Qed.

Lemma insertar_todo_witness :
  (0 < 2)%Z /\
  exists sucesos,
    insertar_datos_en_sheets append_rows_fiel [encabezado] Ejemplos.inventario 2
    = Some ([encabezado] ++ Ejemplos.inventario, sucesos) /\
    cubren 1 (rangos sucesos) (List.length Ejemplos.inventario) /\
    Forall (fun ab => snd ab < fst ab + Z.to_nat 2) (rangos sucesos) /\
    ~ In ErrorLote sucesos.
Proof.
  split; [reflexivity|].
  exact (insertar_todo [encabezado] Ejemplos.inventario 2 eq_refl).
Defined.

Lemma append_rows_salvo_falla_o_anade (malo : row) :
  forall h l, append_rows_salvo malo h l = None
              \/ append_rows_salvo malo h l = Some (h ++ l).
Proof.
  intros h [|r t]; simpl.
  - right. now rewrite app_nil_r.
  - destruct (list_eq_dec string_dec r malo); [now left | now right].
Defined.

Lemma insertar_con_fallos_witness :
  (forall h l,
      append_rows_salvo ["R"; "a"; "Archivo"; "ana@x.org"; "01/01/2024 00:00:00"] h l
      = None
      \/ append_rows_salvo ["R"; "a"; "Archivo"; "ana@x.org"; "01/01/2024 00:00:00"] h l
         = Some (h ++ l)) /\
  (0 < 2)%Z /\
  exists escritas sucesos,
    insertar_datos_en_sheets
      (append_rows_salvo ["R"; "a"; "Archivo"; "ana@x.org"; "01/01/2024 00:00:00"])
      [encabezado] Ejemplos.inventario 2
    = Some ([encabezado] ++ escritas, sucesos) /\
    Subsecuencia escritas Ejemplos.inventario /\
    intentos sucesos
    = (List.length Ejemplos.inventario + Z.to_nat 2 - 1) / Z.to_nat 2.
Proof.
  split; [apply append_rows_salvo_falla_o_anade|]. split; [reflexivity|].
  exact (insertar_con_fallos
           (append_rows_salvo ["R"; "a"; "Archivo"; "ana@x.org"; "01/01/2024 00:00:00"])
           [encabezado] Ejemplos.inventario 2
           (append_rows_salvo_falla_o_anade _) eq_refl).
Defined.

(** Three records in batches of two, the first batch failing: the third
    record is written all the same. *)
Example insertar_con_un_fallo :
  insertar_datos_en_sheets
    (append_rows_salvo ["R"; "a"; "Archivo"; "ana@x.org"; "01/01/2024 00:00:00"])
    [encabezado] Ejemplos.inventario 2
  = Some ([encabezado; ["R/s"; "a"; "Archivo"; "Desconocido"; "No disponible"]],
          [ErrorLote; InfoLote 3 3; Pausa]).
Proof. vm_compute. reflexivity. Qed.

End BatchFacts.

(** ** The change log and [main] *)

Section LibroFacts.
Import PyDict Snapshot Principal.

Implicit Types (s : libro) (t : string) (h : hoja).

Lemma worksheet_en_hoja s t (f : hoja -> hoja) :
  worksheet (en_hoja s t f) t = option_map f (worksheet s t).
Proof.
  induction s as [|[t0 h0] r IH]; simpl; [reflexivity|].
  destruct (String.eqb t0 t) eqn:E; simpl; rewrite E; auto.
Qed.

Lemma worksheet_en_hoja_otra s t t' (f : hoja -> hoja) :
  t <> t' -> worksheet (en_hoja s t f) t' = worksheet s t'.
Proof.
  intros Hne. induction s as [|[t0 h0] r IH]; simpl; [reflexivity|].
  destruct (String.eqb t0 t) eqn:E; simpl.
  - apply String.eqb_eq in E. subst t0.
    apply String.eqb_neq in Hne. now rewrite Hne.
  - destruct (String.eqb t0 t'); auto.
Qed.

Lemma worksheet_app s t h t' :
  worksheet (s ++ [(t, h)]) t'
  = match worksheet s t' with
    | Some h' => Some h'
    | None => if String.eqb t t' then Some h else None
    end.
Proof.
  induction s as [|[t0 h0] r IH]; simpl; [reflexivity|].
  destruct (String.eqb t0 t'); auto.
Qed.

Lemma en_hoja_app s t h (f : hoja -> hoja) :
  worksheet s t = None -> en_hoja (s ++ [(t, h)]) t f = s ++ [(t, f h)].
Proof.
  induction s as [|[t0 h0] r IH]; simpl.
  - now rewrite String.eqb_refl.
  - destruct (String.eqb t0 t); [discriminate|].
    intros H. now rewrite IH.
Qed.

Lemma en_hoja_igual s t h (f : hoja -> hoja) :
  worksheet s t = Some h -> f h = h -> en_hoja s t f = s.
Proof.
  induction s as [|[t0 h0] r IH]; simpl; [reflexivity|].
  destruct (String.eqb t0 t).
  - intros H Hf. injection H as ->. now rewrite Hf.
  - intros H Hf. now rewrite IH.
Qed.

Lemma titulos_en_hoja s t (f : hoja -> hoja) :
  titulos (en_hoja s t f) = titulos s.
Proof.
  unfold titulos. induction s as [|[t0 h0] r IH]; simpl; [reflexivity|].
  destruct (String.eqb t0 t); simpl; [reflexivity | now rewrite IH].
Qed.

Lemma fold_en_hoja_app s t h (g : row -> row) (l : list row) :
  worksheet s t = None ->
  fold_left (fun s r => en_hoja s t (fun h => append_row h (g r))) l
            (s ++ [(t, h)])
  = s ++ [(t, h ++ map g l)].
Proof.
  intros Hs. revert h. induction l as [|r l IH]; intros h; simpl.
  - now rewrite app_nil_r.
  - rewrite en_hoja_app by exact Hs. rewrite IH. unfold append_row.
    now rewrite <- app_assoc.
Qed.

Lemma registrar_cambios_libre s (marca : string) (nuevos eliminados : list row) :
  worksheet s ("Cambios " ++ marca)%string = None ->
  registrar_cambios s marca nuevos eliminados
  = (s ++ [(("Cambios " ++ marca)%string,
            encabezado_cambios
              :: map (cons "Nuevo") nuevos ++ map (cons "Eliminado") eliminados)],
     [InfoCambiosRegistrados ("Cambios " ++ marca)%string]).
Proof.
  unfold registrar_cambios, add_worksheet.
  intros Hs. rewrite Hs. cbv zeta.
  rewrite en_hoja_app by exact Hs.
  rewrite (fold_en_hoja_app s _ _ (cons "Nuevo") nuevos Hs).
  rewrite (fold_en_hoja_app s _ _ (cons "Eliminado") eliminados Hs).
  unfold append_row. reflexivity.
Qed.

Lemma registrar_cambios_ocupada s (marca : string) (nuevos eliminados : list row) h :
  worksheet s ("Cambios " ++ marca)%string = Some h ->
  registrar_cambios s marca nuevos eliminados = (s, [ErrorCrearHoja]).
Proof.
  unfold registrar_cambios, add_worksheet. intros Hs. now rewrite Hs.
Qed.

(** X12. Where the title "Cambios <marca>" is free, [registrar_cambios] adds
    one worksheet at the end, with the header, then one row per new record
    tagged "Nuevo", then one row per removed record tagged "Eliminado", and
    leaves every other worksheet as it was. Where the title is taken, it
    logs an error and writes nothing. *)
Theorem registrar_cambios_hoja s (marca : string) (nuevos eliminados : list row) :
  (worksheet s ("Cambios " ++ marca)%string = None ->
   registrar_cambios s marca nuevos eliminados
   = (s ++ [(("Cambios " ++ marca)%string,
             encabezado_cambios
               :: map (cons "Nuevo") nuevos ++ map (cons "Eliminado") eliminados)],
      [InfoCambiosRegistrados ("Cambios " ++ marca)%string])) /\
  (forall h, worksheet s ("Cambios " ++ marca)%string = Some h ->
             registrar_cambios s marca nuevos eliminados = (s, [ErrorCrearHoja])).
Proof.
  split.
  - apply registrar_cambios_libre.
  - intros h. apply registrar_cambios_ocupada.
Qed.

Lemma Snapshot_no_es_Cambios (marca : string) :
  ("Cambios " ++ marca)%string <> "Snapshot".
Proof. simpl. discriminate. Qed.

Lemma registrar_cambios_otras s marca nuevos eliminados t h :
  worksheet s t = Some h ->
  worksheet (fst (registrar_cambios s marca nuevos eliminados)) t = Some h.
Proof.
  intros Ht.
  destruct (worksheet s ("Cambios " ++ marca)%string) as [c|] eqn:Ec.
  - now rewrite (registrar_cambios_ocupada s marca nuevos eliminados c Ec).
  - rewrite (registrar_cambios_libre s marca nuevos eliminados Ec).
    simpl. now rewrite worksheet_app, Ht.
Qed.

Lemma registrar_cambios_titulos s marca nuevos eliminados :
  exists nuevas,
    titulos (fst (registrar_cambios s marca nuevos eliminados))
    = titulos s ++ nuevas /\ List.length nuevas <= 1.
Proof.
  destruct (worksheet s ("Cambios " ++ marca)%string) as [c|] eqn:Ec.
  - rewrite (registrar_cambios_ocupada s marca nuevos eliminados c Ec).
    exists []. split; [simpl; now rewrite app_nil_r | simpl; lia].
  - rewrite (registrar_cambios_libre s marca nuevos eliminados Ec).
    exists [("Cambios " ++ marca)%string]. split; [|simpl; lia].
    simpl. unfold titulos. now rewrite map_app.
Qed.

Lemma obtener_snapshot_escrito (datos : list row) (d : snapshot) :
  snapshot_nuevo_de datos = Some d ->
  obtener_snapshot (encabezado :: datos) = Some d.
Proof.
  destruct datos as [|r t].
  - simpl. intros H. injection H as <-. reflexivity.
  - rewrite obtener_snapshot_indexar by discriminate.
    now rewrite snapshot_nuevo_de_indexar.
Qed.

End LibroFacts.

Section MainFacts.
Import PyDict Snapshot Drive Principal.

Implicit Types (s : libro) (t : string) (h : hoja).

Lemma main_con_spreadsheet_nueva s (marca : string) (datos : list row) :
  worksheet s "Snapshot" = None ->
  main_con_spreadsheet s marca datos
  = (Retorna, s ++ [("Snapshot", encabezado :: datos)], [InfoSnapshotCreado]).
Proof.
  intros Hs. unfold main_con_spreadsheet, add_worksheet. rewrite Hs.
  cbv zeta. rewrite !en_hoja_app by exact Hs. reflexivity.
Qed.

Lemma main_con_spreadsheet_compara s (marca : string) (datos : list row)
  h (previo nuevo : snapshot) :
  worksheet s "Snapshot" = Some h ->
  obtener_snapshot h = Some previo ->
  snapshot_nuevo_de datos = Some nuevo ->
  main_con_spreadsheet s marca datos
  = let nuevos := fst (comparar_snapshot previo nuevo) in
    let eliminados := snd (comparar_snapshot previo nuevo) in
    if hay_cambios nuevos eliminados then
      (Retorna,
       en_hoja (fst (registrar_cambios s marca nuevos eliminados)) "Snapshot"
               (fun h => actualizar_snapshot h datos),
       (InfoDetectados (List.length nuevos) (List.length eliminados)
          :: snd (registrar_cambios s marca nuevos eliminados))
         ++ [InfoSnapshotActualizado (List.length datos)])
    else
      (Retorna,
       en_hoja s "Snapshot" (fun h => actualizar_snapshot h datos),
       [InfoDetectados (List.length nuevos) (List.length eliminados);
        InfoSinCambios; InfoSnapshotActualizado (List.length datos)]).
Proof.
  intros Hs Hp Hn. unfold main_con_spreadsheet. rewrite Hs, Hp, Hn.
  destruct (comparar_snapshot previo nuevo) as [nuevos eliminados]. cbv zeta.
  simpl fst. simpl snd.
  destruct (hay_cambios nuevos eliminados); [|reflexivity].
  destruct (registrar_cambios s marca nuevos eliminados) as [s1 d1].
  reflexivity.
Qed.

Lemma main_con_spreadsheet_lanza s (marca : string) (datos : list row) h :
  worksheet s "Snapshot" = Some h ->
  obtener_snapshot h = None \/ snapshot_nuevo_de datos = None ->
  main_con_spreadsheet s marca datos = (Lanza IndexError, s, []).
Proof.
  intros Hs H. unfold main_con_spreadsheet. rewrite Hs.
  destruct (obtener_snapshot h); [|reflexivity].
  destruct H as [H|H]; [discriminate|]. now rewrite H.
Qed.

(** The cases of [main_con_spreadsheet], on what matters to the sheets. *)
Lemma main_con_spreadsheet_hojas s (marca : string) (datos : list row) :
  (fst (fst (main_con_spreadsheet s marca datos)) = Retorna /\
   worksheet (snd (fst (main_con_spreadsheet s marca datos))) "Snapshot"
   = Some (encabezado :: datos) /\
   (forall t h, t <> "Snapshot" -> worksheet s t = Some h ->
                worksheet (snd (fst (main_con_spreadsheet s marca datos))) t
                = Some h) /\
   exists nuevas,
     titulos (snd (fst (main_con_spreadsheet s marca datos)))
     = titulos s ++ nuevas /\ List.length nuevas <= 1) \/
  (fst (fst (main_con_spreadsheet s marca datos)) = Lanza IndexError /\
   main_con_spreadsheet s marca datos = (Lanza IndexError, s, [])).
Proof.
  destruct (worksheet s "Snapshot") as [h|] eqn:Hs.
  - destruct (obtener_snapshot h) as [previo|] eqn:Hp.
    + destruct (snapshot_nuevo_de datos) as [nuevo|] eqn:Hn.
      * left. rewrite (main_con_spreadsheet_compara s marca datos h previo nuevo Hs Hp Hn).
        cbv zeta.
        set (nuevos := fst (comparar_snapshot previo nuevo)).
        set (eliminados := snd (comparar_snapshot previo nuevo)).
        destruct (hay_cambios nuevos eliminados); simpl fst; simpl snd.
        -- split; [reflexivity|]. split; [|split].
           ++ rewrite worksheet_en_hoja.
              rewrite (registrar_cambios_otras s marca nuevos eliminados _ _ Hs).
              reflexivity.
           ++ intros t h' Ht Hw.
              rewrite worksheet_en_hoja_otra by congruence.
              now apply registrar_cambios_otras.
           ++ rewrite titulos_en_hoja. apply registrar_cambios_titulos.
        -- split; [reflexivity|]. split; [|split].
           ++ rewrite worksheet_en_hoja, Hs. reflexivity.
           ++ intros t h' Ht Hw. now rewrite worksheet_en_hoja_otra by congruence.
           ++ rewrite titulos_en_hoja. exists []. rewrite app_nil_r. auto.
      * right. rewrite (main_con_spreadsheet_lanza s marca datos h Hs (or_intror Hn)).
        auto.
    + right. rewrite (main_con_spreadsheet_lanza s marca datos h Hs (or_introl Hp)).
      auto.
  - left. rewrite (main_con_spreadsheet_nueva s marca datos Hs).
    simpl fst. simpl snd. split; [reflexivity|]. split; [|split].
    + now rewrite worksheet_app, Hs, String.eqb_refl.
    + intros t h' Ht Hw. now rewrite worksheet_app, Hw.
    + exists ["Snapshot"]. unfold titulos. rewrite map_app. auto.
Qed.

Lemma main_con_spreadsheet_repetido s (marca : string) (datos : list row) :
  Forall (fun r => 2 <= List.length r) datos ->
  worksheet s "Snapshot" = Some (encabezado :: datos) ->
  main_con_spreadsheet s marca datos
  = (Retorna, s,
     [InfoDetectados 0 0; InfoSinCambios;
      InfoSnapshotActualizado (List.length datos)]).
Proof.
  intros H2 Hs.
  destruct (indexar_total datos empty H2) as [d Hd].
  rewrite <- snapshot_nuevo_de_indexar in Hd.
  rewrite (main_con_spreadsheet_compara s marca datos _ d d Hs
             (obtener_snapshot_escrito datos d Hd) Hd).
  rewrite comparar_snapshot_ausentes, ausentes_mismo. simpl.
  rewrite (en_hoja_igual s "Snapshot" (encabezado :: datos)); auto.
Qed.

(** X15. Apart from the "Snapshot" worksheet, a run leaves every worksheet that
    was there as it was, at its place; it adds at most one worksheet; and
    when an [IndexError] leaves it, it has written and logged nothing. *)
Theorem main_no_toca_otras s (marca : string) (datos : list row) :
  (forall t h, t <> "Snapshot" -> worksheet s t = Some h ->
               worksheet (snd (fst (main_con_spreadsheet s marca datos))) t
               = Some h) /\
  (exists nuevas,
      titulos (snd (fst (main_con_spreadsheet s marca datos)))
      = titulos s ++ nuevas /\ List.length nuevas <= 1) /\
  (fst (fst (main_con_spreadsheet s marca datos)) = Retorna \/
   main_con_spreadsheet s marca datos = (Lanza IndexError, s, [])).
Proof.
  destruct (main_con_spreadsheet_hojas s marca datos)
    as [(Hf & _ & Hotras & Htit)|(Hf & E)].
  - split; [exact Hotras|]. split; [exact Htit|]. now left.
  - rewrite E. simpl. split; [auto|]. split; [|now right].
    exists []. rewrite app_nil_r. auto.
Qed.

(** X16. A "Snapshot" worksheet with a row of fewer than two cells below its
    first row stops every run: whatever the inventory, an [IndexError]
    leaves [main] before anything is written, so the next run meets the same
    worksheet. *)
Theorem main_snapshot_ilegible s (header : row) (rows : list row) :
  worksheet s "Snapshot" = Some (header :: rows) ->
  Exists (fun r => List.length r < 2) rows ->
  forall marca datos,
    main_con_spreadsheet s marca datos = (Lanza IndexError, s, []).
Proof.
  intros Hs Hcorta marca datos.
  apply (main_con_spreadsheet_lanza s marca datos _ Hs). left.
  assert (Hne : rows <> []) by (intros ->; inversion Hcorta).
  rewrite (obtener_snapshot_indexar header rows Hne).
  now apply indexar_None.
Qed.

(** X17. When there are changes and the title of the change sheet is taken (a
    second run in the same second), the run writes the changes nowhere, logs
    the error, and overwrites the snapshot all the same: the next run, on
    the same inventory, finds nothing to report. *)
Theorem main_cambios_perdidos s (marca : string) (datos : list row)
  h c (previo nuevo : snapshot) :
  worksheet s "Snapshot" = Some h ->
  obtener_snapshot h = Some previo ->
  snapshot_nuevo_de datos = Some nuevo ->
  comparar_snapshot previo nuevo <> ([], []) ->
  worksheet s ("Cambios " ++ marca)%string = Some c ->
  exists s',
    main_con_spreadsheet s marca datos
    = (Retorna, s',
       [InfoDetectados (List.length (fst (comparar_snapshot previo nuevo)))
                       (List.length (snd (comparar_snapshot previo nuevo)));
        ErrorCrearHoja; InfoSnapshotActualizado (List.length datos)]) /\
    worksheet s' "Snapshot" = Some (encabezado :: datos) /\
    worksheet s' ("Cambios " ++ marca)%string = Some c /\
    titulos s' = titulos s /\
    forall marca',
      main_con_spreadsheet s' marca' datos
      = (Retorna, s',
         [InfoDetectados 0 0; InfoSinCambios;
          InfoSnapshotActualizado (List.length datos)]).
Proof.
  intros Hs Hp Hn Hcambios Hc.
  exists (en_hoja s "Snapshot" (fun h => actualizar_snapshot h datos)).
  assert (Hsnap : worksheet (en_hoja s "Snapshot"
                               (fun h => actualizar_snapshot h datos)) "Snapshot"
                  = Some (encabezado :: datos)).
  { rewrite worksheet_en_hoja, Hs. reflexivity. }
  split; [|split; [exact Hsnap|split; [|split]]].
  - rewrite (main_con_spreadsheet_compara s marca datos h previo nuevo Hs Hp Hn).
    cbv zeta.
    destruct (comparar_snapshot previo nuevo) as [nuevos eliminados].
    simpl fst. simpl snd.
    assert (Hh : hay_cambios nuevos eliminados = true).
    { destruct nuevos, eliminados; try reflexivity. now elim Hcambios. }
    rewrite Hh, (registrar_cambios_ocupada s marca nuevos eliminados c Hc).
    reflexivity.
  - rewrite worksheet_en_hoja_otra; [exact Hc|].
    intros E. symmetry in E. exact (Snapshot_no_es_Cambios marca E).
  - apply titulos_en_hoja.
  - intros marca'. apply main_con_spreadsheet_repetido; [|exact Hsnap].
    rewrite snapshot_nuevo_de_indexar in Hn.
    apply Forall_forall. intros r Hr.
    destruct (Nat.le_gt_cases 2 (List.length r)) as [|Hlt]; [assumption|].
    assert (E : para_cada datos empty cuerpo_indexar = None).
    { apply indexar_None. apply Exists_exists. exists r. auto. }
    congruence.
Qed.

End MainFacts.

Section MainWalkFacts.
Import PyDict Snapshot Drive Principal.
Context {DT : DateTime}.

(** X13. The first run, on a spreadsheet without a "Snapshot" worksheet, adds
    that worksheet with the header and the inventory as walked, compares
    nothing, adds no change sheet and reports no change. *)
Theorem main_primera_vez (fuel : nat) (env : entorno) (svc : servicio)
  (s : libro) (datos : list row) (ev : list evento) :
  servicios env = Some svc ->
  spreadsheet_remoto env = Some s ->
  obtener_archivos_recursivamente svc fuel FOLDER_ID RUTA_INICIAL
  = Some (datos, ev) ->
  worksheet s "Snapshot" = None ->
  main fuel env
  = Some {| fin_de := Retorna;
            libro_de := Some (s ++ [("Snapshot", encabezado :: datos)]);
            eventos_de := ev;
            diario_de := [InfoObteniendo FOLDER_ID;
                          InfoEncontrados (List.length datos);
                          InfoSnapshotCreado] |}.
Proof.
  intros Hsvc Hs Hw Hsnap. unfold main. rewrite Hsvc, Hw, Hs.
  rewrite (main_con_spreadsheet_nueva s _ datos Hsnap). reflexivity.
Qed.

(** X14. Running again on what a run left, with the Drive unchanged, changes
    nothing: the second run returns, reports no new and no removed entry,
    adds no worksheet and leaves the spreadsheet as the first run left
    it. *)
Theorem main_dos_veces (fuel : nat) (env : entorno) (out : salida) (s' : libro) :
  main fuel env = Some out ->
  fin_de out = Retorna ->
  libro_de out = Some s' ->
  forall marca',
  exists n,
    main fuel {| servicios := servicios env;
                 spreadsheet_remoto := Some s';
                 marca_de_tiempo := marca' |}
    = Some {| fin_de := Retorna;
              libro_de := Some s';
              eventos_de := eventos_de out;
              diario_de := [InfoObteniendo FOLDER_ID; InfoEncontrados n;
                            InfoDetectados 0 0; InfoSinCambios;
                            InfoSnapshotActualizado n] |}.
Proof.
  unfold main. intros Hmain Hfin Hlibro marca'. simpl.
  destruct (servicios env) as [svc|].
  2:{ injection Hmain as <-. discriminate. }
  destruct (obtener_archivos_recursivamente svc fuel FOLDER_ID RUTA_INICIAL)
    as [[datos ev]|] eqn:Hw; [|discriminate].
  destruct (spreadsheet_remoto env) as [s|].
  2:{ injection Hmain as <-. discriminate. }
  assert (H2 : Forall (fun r => 2 <= List.length r) datos).
  { assert (Hd : devuelve svc FOLDER_ID RUTA_INICIAL datos) by (exists fuel, ev; exact Hw).
    destruct (registros_forma svc _ _ _ Hd) as [HF _].
    eapply Forall_impl; [|exact HF]. simpl. intros r (Hr & _). lia. }
  destruct (main_con_spreadsheet_hojas s (marca_de_tiempo env) datos)
    as [(Hf & Hsnap & _ & _)|(Hf & E)].
  - destruct (main_con_spreadsheet s (marca_de_tiempo env) datos) as [[f s1] d].
    simpl in Hf, Hsnap. injection Hmain as <-. simpl in Hlibro, Hfin.
    injection Hlibro as ->. exists (List.length datos).
    rewrite (main_con_spreadsheet_repetido s' marca' datos H2 Hsnap).
    reflexivity.
  - rewrite E in Hmain. injection Hmain as <-. discriminate.
Qed.

(** X18. When the root cannot be listed the inventory comes out empty, and the
    run takes it at its word: every entry of the snapshot is logged as
    "Eliminado" in a new change sheet and the snapshot is left with its
    header alone. *)
Theorem main_raiz_caida (fuel : nat) (env : entorno) (svc : servicio)
  (e : string) (s : libro) h (previo : snapshot) :
  servicios env = Some svc ->
  svc (consulta FOLDER_ID) None = Excepcion e ->
  spreadsheet_remoto env = Some s ->
  worksheet s "Snapshot" = Some h ->
  obtener_snapshot h = Some previo ->
  previo <> [] ->
  worksheet s ("Cambios " ++ marca_de_tiempo env)%string = None ->
  exists s',
    main (S fuel) env
    = Some {| fin_de := Retorna;
              libro_de := Some s';
              eventos_de := [Listar (consulta FOLDER_ID) None;
                             LogError FOLDER_ID e];
              diario_de := [InfoObteniendo FOLDER_ID; InfoEncontrados 0;
                            InfoDetectados 0 (List.length previo);
                            InfoCambiosRegistrados
                              ("Cambios " ++ marca_de_tiempo env)%string;
                            InfoSnapshotActualizado 0] |} /\
    worksheet s' "Snapshot" = Some [encabezado] /\
    worksheet s' ("Cambios " ++ marca_de_tiempo env)%string
    = Some (encabezado_cambios :: map (cons "Eliminado") (map snd previo)).
Proof.
  intros Hsvc Hfalla Hs Hsnap Hp Hne Hlibre.
  exists (en_hoja (s ++ [(("Cambios " ++ marca_de_tiempo env)%string,
                          encabezado_cambios
                            :: map (cons "Eliminado") (map snd previo))])
                  "Snapshot" (fun h => actualizar_snapshot h [])).
  split; [|split].
  - unfold main, obtener_archivos_recursivamente. rewrite Hsvc.
    cbn [bucle]. rewrite Hfalla. simpl. rewrite Hs.
    rewrite (main_con_spreadsheet_compara s _ [] h previo empty Hsnap Hp eq_refl).
    assert (Hc : comparar_snapshot previo empty = ([], map snd previo)).
    { rewrite comparar_snapshot_ausentes, ausentes_empty. reflexivity. }
    rewrite Hc. cbv zeta. cbn [fst snd].
    assert (Hh : hay_cambios [] (map snd previo) = true)
      by (destruct previo; [contradiction | reflexivity]).
    rewrite Hh, (registrar_cambios_libre s _ [] (map snd previo) Hlibre).
    cbn [fst snd]. rewrite length_map. reflexivity.
  - rewrite worksheet_en_hoja, worksheet_app, Hsnap. reflexivity.
  - rewrite worksheet_en_hoja_otra
      by (intros E; symmetry in E; exact (Snapshot_no_es_Cambios _ E)).
    now rewrite worksheet_app, Hlibre, String.eqb_refl.
Qed.

End MainWalkFacts.

Section TestigosMain.
Import PyDict Snapshot Drive Principal Servicios LibrosEjemplo FechaISO.

Lemma main_snapshot_ilegible_witness :
  worksheet con_fila_corta "Snapshot" = Some (["Ubicación"] :: [["Root"]]) /\
  Exists (fun r => List.length r < 2) [["Root"]] /\
  forall marca datos,
    main_con_spreadsheet con_fila_corta marca datos
    = (Lanza IndexError, con_fila_corta, []).
Proof.
  assert (H : Exists (fun r : row => List.length r < 2) [["Root"]]).
  { left. simpl. lia. }
  split; [reflexivity|]. split; [exact H|].
  exact (main_snapshot_ilegible con_fila_corta ["Ubicación"] [["Root"]] eq_refl H).
Defined.

Lemma main_cambios_perdidos_witness :
  worksheet con_cambios_previos "Snapshot"
  = Some [encabezado;
          ["Root"; "a.txt"; "Archivo"; "ana@example.org"; "02/01/2024 03:04:05"];
          ["Root"; "viejo.txt"; "Archivo"; "luz@example.org";
           "01/01/2023 00:00:00"]] /\
  obtener_snapshot
    [encabezado;
     ["Root"; "a.txt"; "Archivo"; "ana@example.org"; "02/01/2024 03:04:05"];
     ["Root"; "viejo.txt"; "Archivo"; "luz@example.org"; "01/01/2023 00:00:00"]]
  = Some snapshot_previo /\
  snapshot_nuevo_de filas_arbol = Some snapshot_arbol /\
  comparar_snapshot snapshot_previo snapshot_arbol <> ([], []) /\
  worksheet con_cambios_previos ("Cambios " ++ "2024-05-06_07-08-09")%string
  = Some [encabezado_cambios] /\
  exists s',
    main_con_spreadsheet con_cambios_previos "2024-05-06_07-08-09" filas_arbol
    = (Retorna, s',
       [InfoDetectados
          (List.length (fst (comparar_snapshot snapshot_previo snapshot_arbol)))
          (List.length (snd (comparar_snapshot snapshot_previo snapshot_arbol)));
        ErrorCrearHoja; InfoSnapshotActualizado (List.length filas_arbol)]) /\
    worksheet s' "Snapshot" = Some (encabezado :: filas_arbol) /\
    worksheet s' ("Cambios " ++ "2024-05-06_07-08-09")%string
    = Some [encabezado_cambios] /\
    titulos s' = titulos con_cambios_previos /\
    forall marca',
      main_con_spreadsheet s' marca' filas_arbol
      = (Retorna, s',
         [InfoDetectados 0 0; InfoSinCambios;
          InfoSnapshotActualizado (List.length filas_arbol)]).
Proof.
  assert (H : comparar_snapshot snapshot_previo snapshot_arbol <> ([], []))
    by (vm_compute; discriminate).
  split; [reflexivity|]. split; [reflexivity|]. split; [reflexivity|].
  split; [exact H|]. split; [reflexivity|].
  exact (main_cambios_perdidos con_cambios_previos "2024-05-06_07-08-09"
           filas_arbol _ [encabezado_cambios] snapshot_previo snapshot_arbol
           eq_refl eq_refl eq_refl H eq_refl).
Defined.

Lemma recorrido_principal :
  obtener_archivos_recursivamente arbol_principal 2 FOLDER_ID RUTA_INICIAL
  = Some (filas_principal, eventos_principal).
Proof. vm_compute. reflexivity. Defined.

Lemma main_primera_vez_witness :
  servicios primera_vez = Some arbol_principal /\
  spreadsheet_remoto primera_vez = Some nuevo /\
  obtener_archivos_recursivamente arbol_principal 2 FOLDER_ID RUTA_INICIAL
  = Some (filas_principal, eventos_principal) /\
  worksheet nuevo "Snapshot" = None /\
  main 2 primera_vez
  = Some {| fin_de := Retorna;
            libro_de := Some (nuevo ++ [("Snapshot", encabezado :: filas_principal)]);
            eventos_de := eventos_principal;
            diario_de := [InfoObteniendo FOLDER_ID;
                          InfoEncontrados (List.length filas_principal);
                          InfoSnapshotCreado] |}.
Proof.
  split; [reflexivity|]. split; [reflexivity|].
  split; [exact recorrido_principal|]. split; [reflexivity|].
  exact (main_primera_vez 2 primera_vez arbol_principal nuevo filas_principal
           eventos_principal eq_refl eq_refl recorrido_principal eq_refl).
Defined.

Lemma main_primera_vez_salida : main 2 primera_vez = Some salida_primera_vez.
Proof. vm_compute. reflexivity. Defined.

Lemma main_dos_veces_witness :
  main 2 primera_vez = Some salida_primera_vez /\
  fin_de salida_primera_vez = Retorna /\
  libro_de salida_primera_vez = Some libro_primera_vez /\
  forall marca',
  exists n,
    main 2 {| servicios := servicios primera_vez;
              spreadsheet_remoto := Some libro_primera_vez;
              marca_de_tiempo := marca' |}
    = Some {| fin_de := Retorna;
              libro_de := Some libro_primera_vez;
              eventos_de := eventos_de salida_primera_vez;
              diario_de := [InfoObteniendo FOLDER_ID; InfoEncontrados n;
                            InfoDetectados 0 0; InfoSinCambios;
                            InfoSnapshotActualizado n] |}.
Proof.
  split; [exact main_primera_vez_salida|]. split; [reflexivity|].
  split; [reflexivity|].
  exact (main_dos_veces 2 primera_vez salida_primera_vez libro_primera_vez
           main_primera_vez_salida eq_refl eq_refl).
Defined.

Lemma main_raiz_caida_witness :
  servicios raiz_caida = Some sin_raiz /\
  sin_raiz (consulta FOLDER_ID) None = Excepcion "HttpError 404" /\
  spreadsheet_remoto raiz_caida = Some con_snapshot /\
  worksheet con_snapshot "Snapshot"
  = Some [encabezado;
          ["Root"; "a.txt"; "Archivo"; "ana@example.org"; "02/01/2024 03:04:05"];
          ["Root"; "viejo.txt"; "Archivo"; "luz@example.org";
           "01/01/2023 00:00:00"]] /\
  obtener_snapshot
    [encabezado;
     ["Root"; "a.txt"; "Archivo"; "ana@example.org"; "02/01/2024 03:04:05"];
     ["Root"; "viejo.txt"; "Archivo"; "luz@example.org"; "01/01/2023 00:00:00"]]
  = Some snapshot_previo /\
  snapshot_previo <> [] /\
  worksheet con_snapshot ("Cambios " ++ marca_de_tiempo raiz_caida)%string = None /\
  exists s',
    main 1 raiz_caida
    = Some {| fin_de := Retorna;
              libro_de := Some s';
              eventos_de := [Listar (consulta FOLDER_ID) None;
                             LogError FOLDER_ID "HttpError 404"];
              diario_de := [InfoObteniendo FOLDER_ID; InfoEncontrados 0;
                            InfoDetectados 0 (List.length snapshot_previo);
                            InfoCambiosRegistrados
                              ("Cambios " ++ marca_de_tiempo raiz_caida)%string;
                            InfoSnapshotActualizado 0] |} /\
    worksheet s' "Snapshot" = Some [encabezado] /\
    worksheet s' ("Cambios " ++ marca_de_tiempo raiz_caida)%string
    = Some (encabezado_cambios :: map (cons "Eliminado") (map snd snapshot_previo)).
Proof.
  assert (H : snapshot_previo <> []) by discriminate.
  split; [reflexivity|]. split; [reflexivity|]. split; [reflexivity|].
  split; [reflexivity|]. split; [reflexivity|]. split; [exact H|].
  split; [reflexivity|].
  exact (main_raiz_caida 0 raiz_caida sin_raiz "HttpError 404" con_snapshot _
           snapshot_previo eq_refl eq_refl eq_refl eq_refl eq_refl H eq_refl).
Defined.

(** A run on [con_snapshot] with the inventory [filas_arbol]: two new
    records, one removed, one change sheet. *)
Example main_con_cambios :
  main_con_spreadsheet con_snapshot "2024-05-06_07-08-09" filas_arbol
  = (Retorna,
     [("Hoja 1", [["notas"]]);
      ("Snapshot", encabezado :: filas_arbol);
      ("Cambios 2024-05-06_07-08-09",
       [encabezado_cambios;
        ["Nuevo"; "Root"; "sub"; "Carpeta"; "Desconocido"; "2024-01-02 03:04"];
        ["Nuevo"; "Root/sub"; "b.txt"; "Archivo"; "Desconocido"; "No disponible"];
        ["Eliminado"; "Root"; "viejo.txt"; "Archivo"; "luz@example.org";
         "01/01/2023 00:00:00"]])],
     [InfoDetectados 2 1;
      InfoCambiosRegistrados "Cambios 2024-05-06_07-08-09";
      InfoSnapshotActualizado 3]).
Proof. vm_compute. reflexivity. Qed.

End TestigosMain.

(** ** Runs in which the calls to the spreadsheet may fail *)

Section FalibleFacts.
Import PyDict Snapshot Drive Principal Falible.

Implicit Types (s : libro) (g : list bool) (t : string).

Lemma bind_g_inv {A B : Type} (m : G A) (f : A -> G B) (st st2 : estado)
  (r : B + excepcion) (d : list linea) :
  bind_g m f st = (r, st2, d) ->
  (exists a st1 d1 d2,
      m st = (inl a, st1, d1) /\ f a st1 = (r, st2, d2) /\ d = d1 ++ d2) \/
  (exists e, m st = (inr e, st2, d) /\ r = inr e).
Proof.
  unfold bind_g. destruct (m st) as [[[a|e] st1] d1].
  - destruct (f a st1) as [[r' st''] d'] eqn:Ef. intros H.
    injection H as <- <- <-. left. exists a, st1, d1, d'. auto.
  - intros H. injection H as <- <- <-. right. exists e. auto.
Qed.

(** *** Steps raise nothing but the error of a call *)

Lemma SoloAPI_bind {A B : Type} (m : G A) (f : A -> G B) :
  SoloAPI m -> (forall a, SoloAPI (f a)) -> SoloAPI (bind_g m f).
Proof.
  intros Hm Hf st e st' d H. apply bind_g_inv in H.
  destruct H as [(a & st1 & d1 & d2 & _ & H & _)|(e' & H & E)].
  - exact (Hf a _ _ _ _ H).
  - injection E as ->. exact (Hm _ _ _ _ H).
Qed.

Lemma SoloAPI_llamada : SoloAPI llamada.
Proof.
  intros [s g] e st' d. unfold llamada. simpl.
  destruct g as [|[|] g']; intros H; inversion H; reflexivity.
Qed.

Lemma SoloAPI_anotar (l : linea) : SoloAPI (anotar l).
Proof. intros st e st' d H. discriminate H. Qed.

Lemma SoloAPI_intentar {A : Type} (m : G A) : SoloAPI (intentar m).
Proof.
  intros st e st' d. unfold intentar.
  destruct (m st) as [[[a|e'] st1] d1]; discriminate.
Qed.

Lemma SoloAPI_en_hoja_g t (f : hoja -> hoja) : SoloAPI (en_hoja_g t f).
Proof.
  apply SoloAPI_bind; [exact SoloAPI_llamada|].
  intros _ st e st' d H. discriminate H.
Qed.

Lemma SoloAPI_add_worksheet_g t : SoloAPI (add_worksheet_g t).
Proof.
  apply SoloAPI_bind; [exact SoloAPI_llamada|].
  intros _ st e st' d. destruct (add_worksheet (fst st) t); intros H;
    inversion H; reflexivity.
Qed.

Lemma SoloAPI_para_cada_g {A : Type} (l : list A) (cuerpo : A -> G unit) :
  (forall a, SoloAPI (cuerpo a)) -> SoloAPI (para_cada_g l cuerpo).
Proof.
  intros Hc. induction l as [|a resto IH]; simpl.
  - intros st e st' d H. discriminate H.
  - apply SoloAPI_bind; auto.
Qed.

Lemma SoloAPI_registrar_cambios_g (marca : string) (nuevos eliminados : list row) :
  SoloAPI (registrar_cambios_g marca nuevos eliminados).
Proof.
  unfold registrar_cambios_g. apply SoloAPI_bind; [apply SoloAPI_intentar|].
  intros [[]|]; [|apply SoloAPI_anotar].
  repeat (apply SoloAPI_bind;
          [first [apply SoloAPI_en_hoja_g
                 | apply SoloAPI_para_cada_g; intros r; apply SoloAPI_en_hoja_g]
          | intros _]).
  apply SoloAPI_anotar.
Qed.

Lemma SoloAPI_actualizar_snapshot_g (datos : list row) :
  SoloAPI (actualizar_snapshot_g datos).
Proof.
  unfold actualizar_snapshot_g.
  repeat (apply SoloAPI_bind; [apply SoloAPI_en_hoja_g | intros _]).
  apply SoloAPI_anotar.
Qed.

(** *** Reading does not write *)

Lemma worksheet_g_lee t (st st' : estado) (r : hoja + excepcion) (d : list linea) :
  worksheet_g t st = (r, st', d) ->
  fst st' = fst st /\
  forall h, r = inl h -> worksheet (fst st) t = Some h.
Proof.
  destruct st as [s g]. unfold worksheet_g, bind_g, llamada. simpl.
  destruct g as [|[|] g']; simpl;
    try (intros H; inversion H; subst; split; [reflexivity | discriminate]);
    destruct (worksheet s t) as [h0|]; intros H; inversion H; subst; simpl;
    (split; [reflexivity|]); intros h E; congruence.
Qed.

Lemma get_all_values_g_lee t (st st' : estado) (r : hoja + excepcion)
  (d : list linea) h :
  worksheet (fst st) t = Some h ->
  get_all_values_g t st = (r, st', d) ->
  fst st' = fst st /\ (r = inl h \/ r = inr APIError).
Proof.
  destruct st as [s g]. simpl. intros Hw.
  unfold get_all_values_g, bind_g, llamada.
  destruct g as [|[|] g']; simpl; rewrite ?Hw; intros H; inversion H; subst;
    simpl; auto.
Qed.

(** An [IndexError] leaves the run only from reading the "Snapshot"
    worksheet, before anything is written. *)
Lemma main_con_fallos_IndexError (marca : string) (datos : list row)
  s g (st' : estado) (d : list linea) :
  snapshot_nuevo_de datos <> None ->
  main_con_fallos marca datos (s, g) = (inr IndexError, st', d) ->
  fst st' = s /\
  exists h, worksheet s "Snapshot" = Some h /\ obtener_snapshot h = None.
Proof.
  intros Hdatos H. unfold main_con_fallos in H. apply bind_g_inv in H.
  destruct H as [(hallada & st1 & d1 & d2 & Hi & H & _)|(e & Hi & _)].
  2:{ unfold intentar in Hi.
      destruct (worksheet_g "Snapshot" (s, g)) as [[[h0|e0] st0] d0];
        discriminate. }
  unfold intentar in Hi.
  destruct (worksheet_g "Snapshot" (s, g)) as [[[h0|e0] st0] d0] eqn:Ew;
    injection Hi as <- <- <-.
  - destruct (worksheet_g_lee _ _ _ _ _ Ew) as [Hst Hh]. simpl in Hst.
    specialize (Hh h0 eq_refl). simpl in Hh.
    apply bind_g_inv in H.
    destruct H as [(data & st2 & d3 & d4 & Hg & H & _)|(e & Hg & E)].
    + assert (Hw : worksheet (fst st0) "Snapshot" = Some h0) by now rewrite Hst.
      destruct (get_all_values_g_lee _ _ _ _ _ _ Hw Hg) as [Hst2 [E|E]];
        [|discriminate].
      injection E as ->.
      destruct (obtener_snapshot h0) as [previo|] eqn:Hp.
      * destruct (snapshot_nuevo_de datos) as [nuevo|]; [|contradiction].
        exfalso.
        assert (Hs : SoloAPI
                  (bind_g (anotar (InfoDetectados
                             (List.length (fst (comparar_snapshot previo nuevo)))
                             (List.length (snd (comparar_snapshot previo nuevo)))))
                    (fun _ =>
                     bind_g (if hay_cambios (fst (comparar_snapshot previo nuevo))
                                            (snd (comparar_snapshot previo nuevo))
                             then registrar_cambios_g marca
                                    (fst (comparar_snapshot previo nuevo))
                                    (snd (comparar_snapshot previo nuevo))
                             else anotar InfoSinCambios)
                       (fun _ => actualizar_snapshot_g datos)))).
        { apply SoloAPI_bind; [apply SoloAPI_anotar | intros _].
          apply SoloAPI_bind; [|intros _; apply SoloAPI_actualizar_snapshot_g].
          destruct (hay_cambios _ _);
            [apply SoloAPI_registrar_cambios_g | apply SoloAPI_anotar]. }
        apply Hs in H. discriminate.
      * unfold lanzar in H. injection H as <- _.
        split; [congruence|]. exists h0. auto.
    + injection E as <-.
      assert (Hw : worksheet (fst st0) "Snapshot" = Some h0) by now rewrite Hst.
      destruct (get_all_values_g_lee _ _ _ _ _ _ Hw Hg) as [_ [E|E]];
        discriminate.
  - exfalso.
    assert (Hs : SoloAPI
              (bind_g (add_worksheet_g "Snapshot") (fun _ =>
               bind_g (en_hoja_g "Snapshot" (fun h => append_row h encabezado))
                 (fun _ =>
               bind_g (en_hoja_g "Snapshot" (fun h => append_rows h datos))
                 (fun _ => anotar InfoSnapshotCreado))))).
    { apply SoloAPI_bind; [apply SoloAPI_add_worksheet_g | intros _].
      repeat (apply SoloAPI_bind; [apply SoloAPI_en_hoja_g | intros _]).
      apply SoloAPI_anotar. }
    apply Hs in H. discriminate.
Qed.


(** *** Runs in which no call fails *)

Lemma Corre_eq {A : Type} (m : G A) s (r : A + excepcion) s' (d d' : list linea) :
  Corre m s r s' d -> d = d' -> Corre m s r s' d'.
Proof. intros H <-. exact H. Qed.

Lemma Corre_ret {A : Type} (a : A) s : Corre (ret_g a) s (inl a) s [].
Proof. intros g Hg. exists g. auto. Qed.

Lemma Corre_lanzar {A : Type} (e : excepcion) s :
  Corre (@lanzar A e) s (inr e) s [].
Proof. intros g Hg. exists g. auto. Qed.

Lemma Corre_anotar (l : linea) s : Corre (anotar l) s (inl tt) s [l].
Proof. intros g Hg. exists g. auto. Qed.

Lemma Corre_bind {A B : Type} (m : G A) (f : A -> G B) s (a : A) s1 d1
  (r : B + excepcion) s2 d2 :
  Corre m s (inl a) s1 d1 -> Corre (f a) s1 r s2 d2 ->
  Corre (bind_g m f) s r s2 (d1 ++ d2).
Proof.
  intros Hm Hf g Hg. destruct (Hm g Hg) as (g1 & Hg1 & E1).
  destruct (Hf g1 Hg1) as (g2 & Hg2 & E2).
  exists g2. split; [exact Hg2|]. unfold bind_g. now rewrite E1, E2.
Qed.

Lemma Corre_llamada s : Corre llamada s (inl tt) s [].
Proof.
  intros g Hg. unfold llamada. simpl. destruct g as [|b g'].
  - exists []. split; [constructor | reflexivity].
  - inversion Hg as [|? ? Hb Hg']; subst. exists g'. auto.
Qed.

Lemma Corre_tras_llamada {A : Type} (k : G A) s (r : A + excepcion) s' d :
  Corre k s r s' d -> Corre (bind_g llamada (fun _ => k)) s r s' d.
Proof.
  intros Hk. exact (Corre_bind llamada (fun _ => k) s tt s [] r s' d
                      (Corre_llamada s) Hk).
Qed.

Lemma Corre_en_hoja_g t (f : hoja -> hoja) s :
  Corre (en_hoja_g t f) s (inl tt) (en_hoja s t f) [].
Proof.
  apply Corre_tras_llamada. intros g Hg. exists g. auto.
Qed.

Lemma Corre_add_worksheet_g t s :
  Corre (add_worksheet_g t) s
        (match add_worksheet s t with Some _ => inl tt | None => inr APIError end)
        (match add_worksheet s t with Some s' => s' | None => s end) [].
Proof.
  apply Corre_tras_llamada. intros g Hg. exists g. split; [exact Hg|].
  simpl. destruct (add_worksheet s t); reflexivity.
Qed.

Lemma Corre_worksheet_g t s :
  Corre (worksheet_g t) s
        (match worksheet s t with Some h => inl h | None => inr APIError end)
        s [].
Proof.
  apply Corre_tras_llamada. intros g Hg. exists g. split; [exact Hg|].
  simpl. destruct (worksheet s t); reflexivity.
Qed.

Lemma Corre_get_all_values_g t s h :
  worksheet s t = Some h -> Corre (get_all_values_g t) s (inl h) s [].
Proof.
  intros Hw. apply Corre_tras_llamada. intros g Hg. exists g.
  split; [exact Hg|]. simpl. now rewrite Hw.
Qed.

Lemma Corre_intentar {A : Type} (m : G A) s (r : A + excepcion) s' d :
  Corre m s r s' d ->
  Corre (intentar m) s
        (inl match r with inl a => Some a | inr _ => None end) s' d.
Proof.
  intros Hm g Hg. destruct (Hm g Hg) as (g' & Hg' & E).
  exists g'. split; [exact Hg'|]. unfold intentar. rewrite E.
  destruct r; reflexivity.
Qed.

Lemma Corre_para_cada_g t (marcar : row -> row) (l : list row) s :
  Corre (para_cada_g l (fun r =>
           en_hoja_g t (fun h => append_row h (marcar r)))) s (inl tt)
        (fold_left (fun s r => en_hoja s t (fun h => append_row h (marcar r))) l s)
        [].
Proof.
  revert s. induction l as [|r resto IH]; intros s; simpl.
  - apply Corre_ret.
  - exact (Corre_bind _ _ s tt _ [] _ _ [] (Corre_en_hoja_g t _ s) (IH _)).
Qed.

Lemma en_hoja_en_hoja s t (f f' : hoja -> hoja) :
  en_hoja (en_hoja s t f) t f' = en_hoja s t (fun h => f' (f h)).
Proof.
  induction s as [|[t0 h0] r IH]; simpl; [reflexivity|].
  destruct (String.eqb t0 t) eqn:E; simpl; rewrite E; [reflexivity|].
  now rewrite IH.
Qed.

Lemma Corre_registrar_cambios_g (marca : string) (nuevos eliminados : list row) s :
  Corre (registrar_cambios_g marca nuevos eliminados) s (inl tt)
        (fst (registrar_cambios s marca nuevos eliminados))
        (snd (registrar_cambios s marca nuevos eliminados)).
Proof.
  unfold registrar_cambios_g, registrar_cambios.
  pose proof (Corre_intentar _ _ _ _ _
                (Corre_add_worksheet_g ("Cambios " ++ marca)%string s)) as Hi.
  destruct (add_worksheet s ("Cambios " ++ marca)%string) as [s1|].
  - cbv zeta. simpl fst. simpl snd.
    eapply Corre_eq.
    + eapply Corre_bind; [exact Hi|]. cbv beta iota.
      eapply Corre_bind; [apply Corre_en_hoja_g|].
      eapply Corre_bind; [apply (Corre_para_cada_g _ (cons "Nuevo"))|].
      eapply Corre_bind; [apply (Corre_para_cada_g _ (cons "Eliminado"))|].
      apply Corre_anotar.
    + reflexivity.
  - simpl fst. simpl snd.
    eapply Corre_eq.
    + eapply Corre_bind; [exact Hi|]. cbv beta iota. apply Corre_anotar.
    + reflexivity.
Qed.

Lemma Corre_actualizar_snapshot_g (datos : list row) s :
  Corre (actualizar_snapshot_g datos) s (inl tt)
        (en_hoja s "Snapshot" (fun h => actualizar_snapshot h datos))
        [InfoSnapshotActualizado (List.length datos)].
Proof.
  unfold actualizar_snapshot_g.
  assert (E : en_hoja s "Snapshot" (fun h => actualizar_snapshot h datos)
              = en_hoja (en_hoja (en_hoja s "Snapshot" clear) "Snapshot"
                                 (fun h => append_row h encabezado))
                        "Snapshot" (fun h => append_rows h datos)).
  { rewrite !en_hoja_en_hoja. reflexivity. }
  rewrite E. eapply Corre_eq.
  - eapply Corre_bind; [apply Corre_en_hoja_g|].
    eapply Corre_bind; [apply Corre_en_hoja_g|].
    eapply Corre_bind; [apply Corre_en_hoja_g|].
    apply Corre_anotar.
  - reflexivity.
Qed.

(** When no call fails, the run is the run of [main_con_spreadsheet]. *)
Lemma main_con_fallos_limpio s (marca : string) (datos : list row) :
  Corre (main_con_fallos marca datos) s
        (resultado_g (fst (fst (main_con_spreadsheet s marca datos))))
        (snd (fst (main_con_spreadsheet s marca datos)))
        (snd (main_con_spreadsheet s marca datos)).
Proof.
  pose proof (Corre_intentar _ _ _ _ _ (Corre_worksheet_g "Snapshot" s)) as Hi.
  destruct (worksheet s "Snapshot") as [h|] eqn:Hs.
  - destruct (obtener_snapshot h) as [previo|] eqn:Hp.
    + destruct (snapshot_nuevo_de datos) as [nuevo|] eqn:Hn.
      * rewrite (main_con_spreadsheet_compara s marca datos h previo nuevo Hs Hp Hn).
        cbv zeta.
        destruct (hay_cambios (fst (comparar_snapshot previo nuevo))
                              (snd (comparar_snapshot previo nuevo))) eqn:Hh;
          simpl fst; simpl snd; eapply Corre_eq.
        -- unfold main_con_fallos. eapply Corre_bind; [exact Hi|]. cbv beta iota.
           eapply Corre_bind; [apply (Corre_get_all_values_g _ _ _ Hs)|].
           cbv beta. rewrite Hp, Hn. cbv zeta.
           eapply Corre_bind; [apply Corre_anotar|].
           rewrite Hh.
           eapply Corre_bind; [apply Corre_registrar_cambios_g|].
           apply Corre_actualizar_snapshot_g.
        -- reflexivity.
        -- unfold main_con_fallos. eapply Corre_bind; [exact Hi|]. cbv beta iota.
           eapply Corre_bind; [apply (Corre_get_all_values_g _ _ _ Hs)|].
           cbv beta. rewrite Hp, Hn. cbv zeta.
           eapply Corre_bind; [apply Corre_anotar|].
           rewrite Hh.
           eapply Corre_bind; [apply Corre_anotar|].
           apply Corre_actualizar_snapshot_g.
        -- reflexivity.
      * rewrite (main_con_spreadsheet_lanza s marca datos h Hs (or_intror Hn)).
        simpl fst. simpl snd. eapply Corre_eq.
        -- unfold main_con_fallos. eapply Corre_bind; [exact Hi|]. cbv beta iota.
           eapply Corre_bind; [apply (Corre_get_all_values_g _ _ _ Hs)|].
           cbv beta. rewrite Hp, Hn. apply Corre_lanzar.
        -- reflexivity.
    + rewrite (main_con_spreadsheet_lanza s marca datos h Hs (or_introl Hp)).
      simpl fst. simpl snd. eapply Corre_eq.
      * unfold main_con_fallos. eapply Corre_bind; [exact Hi|]. cbv beta iota.
        eapply Corre_bind; [apply (Corre_get_all_values_g _ _ _ Hs)|].
        cbv beta. rewrite Hp. apply Corre_lanzar.
      * reflexivity.
  - rewrite (main_con_spreadsheet_nueva s marca datos Hs).
    simpl fst. simpl snd.
    pose proof (Corre_add_worksheet_g "Snapshot" s) as Ha.
    unfold add_worksheet in Ha. rewrite Hs in Ha.
    assert (E : s ++ [("Snapshot", encabezado :: datos)]
                = en_hoja (en_hoja (s ++ [("Snapshot", [])]) "Snapshot"
                                   (fun h => append_row h encabezado))
                          "Snapshot" (fun h => append_rows h datos)).
    { rewrite !en_hoja_app by exact Hs. reflexivity. }
    rewrite E. eapply Corre_eq.
    + unfold main_con_fallos. eapply Corre_bind; [exact Hi|]. cbv beta iota.
      eapply Corre_bind; [exact Ha|].
      eapply Corre_bind; [apply Corre_en_hoja_g|].
      eapply Corre_bind; [apply Corre_en_hoja_g|].
      apply Corre_anotar.
    + reflexivity.
Qed.

End FalibleFacts.

Section FalibleMain.
Import PyDict Snapshot Drive Principal Falible.
Context {DT : DateTime}.

Lemma limpio_sin_true (g : list bool) : ~ In true g -> limpio g.
Proof.
  intros H. apply Forall_forall. intros [|] Hb; [contradiction | reflexivity].
Qed.

(** When no call to the spreadsheet fails, [main_falible] is [main]. *)
Lemma main_falible_limpio (fuel : nat) (env : entorno) (guion : list bool) :
  limpio guion -> main_falible fuel env guion = main fuel env.
Proof.
  intros Hg. unfold main_falible, main.
  destruct (servicios env) as [svc|]; [|reflexivity].
  destruct (obtener_archivos_recursivamente svc fuel FOLDER_ID RUTA_INICIAL)
    as [[datos ev]|]; [|reflexivity].
  destruct (spreadsheet_remoto env) as [s|]; [|reflexivity].
  destruct (main_con_fallos_limpio s (marca_de_tiempo env) datos guion Hg)
    as (g' & _ & E).
  rewrite E.
  destruct (main_con_spreadsheet s (marca_de_tiempo env) datos) as [[f s'] d].
  simpl. destruct f; reflexivity.
Qed.

(** X19. No exception leaves [main] on account of the inventory: whatever
    the walk returns can be keyed. When an exception leaves a run that
    opened the spreadsheet, either it is the [IndexError] of reading a
    "Snapshot" worksheet that [obtener_snapshot] cannot read, and then the
    spreadsheet is as it was opened, or it is the error of a call to the
    spreadsheet that failed. *)
Theorem main_solo_lanza_por_snapshot (fuel : nat) (env : entorno)
  (guion : list bool) (out : salida) (e : excepcion) :
  main_falible fuel env guion = Some out ->
  fin_de out = Lanza e ->
  (e = IndexError /\
   exists s h,
     spreadsheet_remoto env = Some s /\
     libro_de out = Some s /\
     worksheet s "Snapshot" = Some h /\
     obtener_snapshot h = None) \/
  (e = APIError /\ In true guion).
Proof.
  unfold main_falible. intros Hmain Hfin.
  destruct (servicios env) as [svc|].
  2:{ injection Hmain as <-. discriminate. }
  destruct (obtener_archivos_recursivamente svc fuel FOLDER_ID RUTA_INICIAL)
    as [[datos ev]|] eqn:Hw; [|discriminate].
  destruct (spreadsheet_remoto env) as [s|].
  2:{ injection Hmain as <-. discriminate. }
  assert (Hd : devuelve svc FOLDER_ID RUTA_INICIAL datos) by (exists fuel, ev; exact Hw).
  destruct (registros_forma svc _ _ _ Hd) as [_ (dic & Hn & _)].
  destruct (main_con_fallos (marca_de_tiempo env) datos (s, guion))
    as [[r st] dl] eqn:Em.
  injection Hmain as <-. simpl in Hfin.
  destruct r as [[]|e0]; [discriminate|]. simpl in Hfin. injection Hfin as ->.
  destruct e.
  - left. split; [reflexivity|].
    destruct (main_con_fallos_IndexError _ _ _ _ _ _
                ltac:(rewrite Hn; discriminate) Em) as (Hst & h & Hs & Hp).
    exists s, h. simpl. rewrite Hst. auto.
  - right. split; [reflexivity|].
    destruct (in_dec Bool.bool_dec true guion) as [Hin|Hno]; [exact Hin|].
    exfalso.
    destruct (main_con_fallos_limpio s (marca_de_tiempo env) datos guion
                (limpio_sin_true guion Hno)) as (g' & _ & E).
    rewrite Em in E.
    destruct (main_con_spreadsheet_hojas s (marca_de_tiempo env) datos)
      as [(Hf & _)|(Hf & _)]; rewrite Hf in E; discriminate.
Qed.

End FalibleMain.

Section TestigosFalible.
Import PyDict Snapshot Drive Principal Falible Servicios LibrosEjemplo.
Import EjemplosFalible FechaISO.

Lemma main_falible_ilegible :
  main_falible 2 con_snapshot_ilegible [] = Some salida_ilegible.
Proof. vm_compute. reflexivity. Defined.

Lemma main_solo_lanza_por_snapshot_witness :
  main_falible 2 con_snapshot_ilegible [] = Some salida_ilegible /\
  fin_de salida_ilegible = Lanza IndexError /\
  ((IndexError = IndexError /\
    exists s h,
      spreadsheet_remoto con_snapshot_ilegible = Some s /\
      libro_de salida_ilegible = Some s /\
      worksheet s "Snapshot" = Some h /\
      obtener_snapshot h = None) \/
   (IndexError = APIError /\ In true [])).
Proof.
  split; [exact main_falible_ilegible|]. split; [reflexivity|].
  exact (main_solo_lanza_por_snapshot 2 con_snapshot_ilegible [] salida_ilegible
           IndexError main_falible_ilegible eq_refl).
Defined.

(** A run with changes in which the call after [clear] fails: the change
    sheet is written, the error leaves [main], and the "Snapshot" worksheet
    is left empty. *)
Example main_con_fallos_a_medias :
  main_con_fallos "2024-05-06_07-08-09" filas_arbol (con_snapshot, falla_la_novena)
  = (inr APIError,
     ([("Hoja 1", [["notas"]]);
       ("Snapshot", []);
       ("Cambios 2024-05-06_07-08-09",
        [encabezado_cambios;
         ["Nuevo"; "Root"; "sub"; "Carpeta"; "Desconocido"; "2024-01-02 03:04"];
         ["Nuevo"; "Root/sub"; "b.txt"; "Archivo"; "Desconocido"; "No disponible"];
         ["Eliminado"; "Root"; "viejo.txt"; "Archivo"; "luz@example.org";
          "01/01/2023 00:00:00"]])],
      []),
     [InfoDetectados 2 1; InfoCambiosRegistrados "Cambios 2024-05-06_07-08-09"]).
Proof. vm_compute. reflexivity. Qed.

(** When the lookup of "Snapshot" fails although the worksheet is there,
    the run takes the first-run path and [add_worksheet] raises. *)
Example main_con_fallos_busqueda :
  main_con_fallos "2024-05-06_07-08-09" filas_arbol (con_snapshot, [true])
  = (inr APIError, (con_snapshot, []), []).
Proof. vm_compute. reflexivity. Qed.

End TestigosFalible.
